(** * ThirteenLabs frontend: the stream recorder and the task poller

    A shallow embedding of two pieces of the ThirteenLabs web client:

    - the [VideoRecorder] React component (WebSocket frame painting,
      canvas recording with a MediaRecorder, client-side transcode to MP4
      through ffmpeg.wasm, download link), and
    - [pollTaskStatus] of [frontend/lib/api.ts].

    React state ([useState]) and refs ([useRef]) become fields of an
    explicit [State]; the browser (timers, the MediaRecorder task queue,
    the console, the blob URL store, the clock) is a further part of that
    state.  Event handlers are state transformers.  React handlers read state
    variables from the render they were created in, so a handler takes the
    captured values as a [Render] argument and refs from the live state.

    JavaScript numbers are doubles.  Integer-valued numbers are embedded as
    [Z]; sums and differences ([frameCount], the chunk-size total, elapsed
    time) round to the nearest double as the engine does.  Canvas
    coordinates, which are quotients, are doubles proper: rationals rounded
    to binary64 after every operation, with the infinities and NaN. *)

From Stdlib Require Import ZArith NArith List Ascii String Lia QArith Qfield Lqa.
From Stdlib Require Import Qround Qpower Qabs Qreduction.
From stdpp Require Import base gmap strings list pretty.
From Equations Require Import Equations.

Local Open Scope string_scope.
Local Open Scope list_scope.
Local Open Scope Z_scope.

(** ** JavaScript numbers and strings *)

Module Js.

(** Round an integer to the nearest double, ties to even.  Doubles carry
    a 53-bit significand, so integers of magnitude up to [2^53] are exact.
    (Overflow to [Infinity] beyond [2^1024] is not represented.) *)
Definition round_double (z : Z) : Z :=
  let a := Z.abs z in
  if a <? 2 ^ 53 then z
  else
    let e := Z.log2 a - 52 in
    let q := a / 2 ^ e in
    let r := a mod 2 ^ e in
    let half := 2 ^ (e - 1) in
    let q' := if r <? half then q
              else if half <? r then q + 1
              else if Z.even q then q else q + 1 in
    Z.sgn z * (q' * 2 ^ e).

(** [a + b] and [a - b] on integer-valued doubles. *)
Definition add (a b : Z) : Z := round_double (a + b).
Definition sub (a b : Z) : Z := round_double (a - b).

(** [a % b]: the remainder takes the sign of the dividend. *)
Definition rem (a b : Z) : Z := Z.rem a b.

(** [Math.floor(a / b)] for an integer [a] and [b] one of the constants
    1000 and 60000.  The quotient is rounded to a double before the floor is
    taken; for [|a| < 2^53] that rounding never reaches the next integer, so
    the result is the floor of the exact quotient. *)
Definition floor_div (a b : Z) : Z := a / b.

(** [Number.prototype.toString()] of an integer. *)
Definition toString (n : Z) : string := pretty n.

Fixpoint repeat_char (c : ascii) (n : nat) : string :=
  match n with
  | O => ""
  | S n' => String c (repeat_char c n')
  end.

(** [s.padStart(targetLength, c)] with a one-character filler. *)
Definition padStart (targetLength : nat) (c : ascii) (s : string) : string :=
  repeat_char c (targetLength - String.length s) +:+ s.

(** [s.slice(0, n)]. *)
Definition slice0 (n : nat) (s : string) : string := substring 0 n s.

(** [s.replace(/c/g, d)] for single characters. *)
Fixpoint replace_all (c d : ascii) (s : string) : string :=
  match s with
  | EmptyString => EmptyString
  | String x s' => String (if Ascii.eqb x c then d else x) (replace_all c d s')
  end.

Definition digit_char (d : Z) : ascii :=
  ascii_of_N (48 + Z.to_N (d mod 10)).

(** The [k] low-order decimal digits of [n], most significant first. *)
Fixpoint digits_fixed (k : nat) (n : Z) : string :=
  match k with
  | O => ""
  | S k' => String (digit_char (n / 10 ^ Z.of_nat k')) (digits_fixed k' n)
  end.

(** [x.toFixed(2)] for [x = t / 2^20] with [t] a non-negative integer
    ([x] below [10^21], where [toFixed] still prints digits).
    ECMAScript: let [n] be the integer for which [n / 100 - x] is as close
    to zero as possible, the larger one on a tie; print [n] in decimal,
    left-padded with zeros to three digits, with a point before the last
    two.  The quotient by [2^20] is exact in a double, so [n] is
    [floor (100 * t / 2^20 + 1/2)]. *)
Definition toFixed2_scaled (t : Z) : Z := (200 * t + 2 ^ 20) / 2 ^ 21.

Definition toFixed2_mb (t : Z) : string :=
  let n := toFixed2_scaled t in
  toString (n / 100) +:+ "." +:+ digits_fixed 2 n.

(** *** Dates

    [new Date().toISOString()] for a time value [t] in milliseconds since
    the epoch, UTC.  The calendar fields follow ECMAScript's [Day],
    [YearFromTime], [MonthFromTime], [DateFromTime], [HourFromTime], ...;
    the year, month and day are computed from the day number by the usual
    era-based closed form for the proleptic Gregorian calendar. *)

Definition msPerDay : Z := 86400000.

Record CivilDate := { cd_year : Z; cd_month : Z; cd_day : Z }.

Definition civil_from_days (day : Z) : CivilDate :=
  let z := day + 719468 in
  let era := z / 146097 in
  let doe := z - era * 146097 in
  let yoe := (doe - doe / 1460 + doe / 36524 - doe / 146096) / 365 in
  let doy := doe - (365 * yoe + yoe / 4 - yoe / 100) in
  let mp := (5 * doy + 2) / 153 in
  let d := doy - (153 * mp + 2) / 5 + 1 in
  let m := if mp <? 10 then mp + 3 else mp - 9 in
  {| cd_year := yoe + era * 400 + (if m <=? 2 then 1 else 0);
     cd_month := m; cd_day := d |}.


(** The year field of the ISO format: four digits for years 0 to 9999,
    otherwise a sign and six digits. *)
Definition iso_year (y : Z) : string :=
  if (0 <=? y) && (y <=? 9999) then digits_fixed 4 y
  else (if y <? 0 then "-" else "+") +:+ digits_fixed 6 (Z.abs y).

Definition toISOString (t : Z) : string :=
  let c := civil_from_days (t / msPerDay) in
  let ms := t mod msPerDay in
  iso_year (cd_year c) +:+ "-" +:+ digits_fixed 2 (cd_month c) +:+ "-"
    +:+ digits_fixed 2 (cd_day c) +:+ "T"
    +:+ digits_fixed 2 (ms / 3600000) +:+ ":"
    +:+ digits_fixed 2 (ms / 60000 mod 60) +:+ ":"
    +:+ digits_fixed 2 (ms / 1000 mod 60) +:+ "."
    +:+ digits_fixed 3 (ms mod 1000) +:+ "Z".

End Js.

(** ** Doubles

    The numbers of the canvas arithmetic: IEEE 754 binary64 values, as
    rationals, with the two infinities and NaN.  Every operation computes the
    exact result and rounds it to the nearest double, ties to even,
    subnormals and overflow included.  The sign of a zero is not kept: the
    code divides by [img.height] and by the constant 2 only, which are never
    negative zeros. *)

Module Double.

Inductive number :=
| Finite (q : Q)
| Infinity (negative : bool)
| NaN.

(** [2^e] for any integer [e]. *)
Definition pow2 (e : Z) : Q := (2 ^ e)%Q.

(** For [x > 0], the [k] with [2^k <= x < 2^(k+1)]. *)
Definition ilog2 (x : Q) : Z :=
  let k := Z.log2 (Qnum x) - Z.log2 (Zpos (Qden x)) in
  if Qle_bool (pow2 k) x then k else k - 1.

(** The nearest integer, the even one of two equally near. *)
Definition round_half_even (x : Q) : Z :=
  let f := Qfloor x in
  match (x - inject_Z f ?= 1 # 2)%Q with
  | Lt => f
  | Gt => f + 1
  | Eq => if Z.even f then f else f + 1
  end.

(** The exponent of the unit in the last place of the doubles around
    [x > 0]: 52 binary places below the leading bit, and never below the
    subnormal step [2^-1074]. *)
Definition exponent (x : Q) : Z := Z.max (ilog2 x - 52) (-1074).

(** [x > 0] rounded to a multiple of that unit. *)
Definition round_pos (x : Q) : Q :=
  (inject_Z (round_half_even (x / pow2 (exponent x))) * pow2 (exponent x))%Q.

(** The double nearest to a rational; [2^1024] and beyond is infinite. *)
Definition to_number (x : Q) : number :=
  match (x ?= 0)%Q with
  | Eq => Finite 0
  | Gt => if Qle_bool (pow2 1024) (round_pos x) then Infinity false
          else Finite (Qred (round_pos x))
  | Lt => if Qle_bool (pow2 1024) (round_pos (- x)) then Infinity true
          else Finite (Qred (- round_pos (- x)))
  end.

Definition negative (q : Q) : bool := negb (Qle_bool 0 q).

(** An integer read as a number. *)
Definition of_Z (z : Z) : number := to_number (inject_Z z).

(** [a / b] *)
Definition div (a b : number) : number :=
  match a, b with
  | NaN, _ | _, NaN => NaN
  | Infinity _, Infinity _ => NaN
  | Infinity s, Finite y => Infinity (xorb s (negative y))
  | Finite _, Infinity _ => Finite 0
  | Finite x, Finite y =>
      if Qeq_bool y 0 then (if Qeq_bool x 0 then NaN else Infinity (negative x))
      else to_number (x / y)
  end.

(** [a * b] *)
Definition mul (a b : number) : number :=
  match a, b with
  | NaN, _ | _, NaN => NaN
  | Infinity s, Infinity t => Infinity (xorb s t)
  | Infinity s, Finite y | Finite y, Infinity s =>
      if Qeq_bool y 0 then NaN else Infinity (xorb s (negative y))
  | Finite x, Finite y => to_number (x * y)
  end.

(** [a - b] *)
Definition sub (a b : number) : number :=
  match a, b with
  | NaN, _ | _, NaN => NaN
  | Infinity s, Infinity t => if Bool.eqb s t then NaN else Infinity s
  | Infinity s, Finite _ => Infinity s
  | Finite _, Infinity t => Infinity (negb t)
  | Finite x, Finite y => to_number (x - y)
  end.

(** [a > b]; false when either is NaN. *)
Definition gt (a b : number) : bool :=
  match a, b with
  | NaN, _ | _, NaN => false
  | Finite x, Finite y => negb (Qle_bool x y)
  | Infinity s, Infinity t => negb s && t
  | Infinity s, Finite _ => negb s
  | Finite _, Infinity t => t
  end.
End Double.

(** ** The VideoRecorder component *)

Module Recorder.

(** *** Platform values *)

Record Blob := { blob_data : list Byte.byte; blob_type : string }.

(** [blob.size] *)
Definition blob_size (b : Blob) : Z := Z.of_nat (length (blob_data b)).

(** [new Blob(parts, { type })] *)
Definition new_Blob (parts : list (list Byte.byte)) (type : string) : Blob :=
  {| blob_data := concat parts; blob_type := type |}.

Inductive JsError :=
| Error (message : string)
| DOMException (name : string).

Inductive Outcome (A : Type) :=
| Returned (a : A)
| Thrown (e : JsError).
Arguments Returned {A} a.
Arguments Thrown {A} e.

(** A decoded [Image]: the source it was decoded from and its natural size. *)
Record Image := { img_src : string; img_width : Z; img_height : Z }.

(** The 2D context records the calls made on it, with their arguments. *)
Inductive CanvasOp :=
| clearRect (x y w h : Double.number)
| drawImage (img : Image) (x y w h : Double.number).

Record Canvas := {
  canvas_width : Z;
  canvas_height : Z;
  context2d : bool;            (* whether [getContext('2d')] returns a context *)
  canvas_ops : list CanvasOp }.

(** Values of state variables as captured by the handlers of one render. *)
Record Render := {
  r_isConnected : bool;
  r_isRecording : bool;
  r_ffmpegLoaded : bool }.

Inductive ReadyState := CONNECTING | OPEN | CLOSING | CLOSED.

Record WebSocket := {
  ws_url : string;
  ws_readyState : ReadyState;
  ws_closure : Render }.       (* the render whose [connect] installed the handlers *)

Inductive RecordingState := inactive | recording | paused.

Record MediaRecorder := {
  mr_state : RecordingState;
  mr_mimeType : string;
  mr_timeslice : Z;
  mr_gathered : list Byte.byte;     (* encoded data not yet delivered *)
  mr_closure : Render }.       (* the render whose [startRecording] installed the handlers *)

(** Tasks the MediaRecorder has queued on the event loop. *)
Inductive Task :=
| TaskDataAvailable (data : Blob)
| TaskStop (closure : Render). (* runs [onstop] of the recorder that was stopped *)

Inductive FFmpegCall :=
| CallWriteFile (path : string) (data : list Byte.byte)
| CallExec (args : list string)
| CallReadFile (path : string).

(** What the component relies on from outside: the browser's image decoder
    and codec support, and the ffmpeg.wasm core with state [E].  Each core
    operation either resolves or rejects, and may change the core. *)
Class Platform (E : Type) := {
  decodeImage : string -> option (Z * Z);
  isTypeSupported : string -> bool;
  core_writeFile : string -> list Byte.byte -> E -> Outcome unit * E;
  core_exec : list string -> E -> Outcome Z * E;
  core_readFile : string -> E -> Outcome (list Byte.byte) * E }.

(** *** Component state *)

(** The [useState] variables. *)
Record Ui := mkUi {
  status : string;
  frameCount : Z;
  recordingTime : string;
  fileSize : string;
  isConnected : bool;
  isRecording : bool;
  showDownload : bool;
  conversionProgress : Z;
  conversionStatus : string;
  downloadUrl : string;
  downloadFilename : string;
  ffmpegLoaded : bool }.

Definition setStatus (v : string) (u : Ui) : Ui :=
  let 'mkUi _ b c d e f g h i j k l := u in mkUi v b c d e f g h i j k l.
Definition setFrameCount (f0 : Z -> Z) (u : Ui) : Ui :=
  let 'mkUi a b c d e f g h i j k l := u in mkUi a (f0 b) c d e f g h i j k l.
Definition setRecordingTime (v : string) (u : Ui) : Ui :=
  let 'mkUi a b _ d e f g h i j k l := u in mkUi a b v d e f g h i j k l.
Definition setFileSize (v : string) (u : Ui) : Ui :=
  let 'mkUi a b c _ e f g h i j k l := u in mkUi a b c v e f g h i j k l.
Definition setIsConnected (v : bool) (u : Ui) : Ui :=
  let 'mkUi a b c d _ f g h i j k l := u in mkUi a b c d v f g h i j k l.
Definition setIsRecording (v : bool) (u : Ui) : Ui :=
  let 'mkUi a b c d e _ g h i j k l := u in mkUi a b c d e v g h i j k l.
Definition setShowDownload (v : bool) (u : Ui) : Ui :=
  let 'mkUi a b c d e f _ h i j k l := u in mkUi a b c d e f v h i j k l.
Definition setConversionProgress (v : Z) (u : Ui) : Ui :=
  let 'mkUi a b c d e f g _ i j k l := u in mkUi a b c d e f g v i j k l.
Definition setConversionStatus (v : string) (u : Ui) : Ui :=
  let 'mkUi a b c d e f g h _ j k l := u in mkUi a b c d e f g h v j k l.
Definition setDownloadUrl (v : string) (u : Ui) : Ui :=
  let 'mkUi a b c d e f g h i _ k l := u in mkUi a b c d e f g h i v k l.
Definition setDownloadFilename (v : string) (u : Ui) : Ui :=
  let 'mkUi a b c d e f g h i j _ l := u in mkUi a b c d e f g h i j v l.
Definition setFfmpegLoaded (v : bool) (u : Ui) : Ui :=
  let 'mkUi a b c d e f g h i j k _ := u in mkUi a b c d e f g h i j k v.

(** The [useRef] cells. *)
Record Refs (E : Type) := mkRefs {
  wsRef : option WebSocket;
  mediaRecorderRef : option MediaRecorder;
  recordedChunksRef : list Blob;
  canvasRef : option Canvas;
  startTimeRef : Z;
  recordingIntervalRef : option positive;
  ffmpegRef : option E }.
Arguments mkRefs {E}.
Arguments wsRef {E}.
Arguments mediaRecorderRef {E}.
Arguments recordedChunksRef {E}.
Arguments canvasRef {E}.
Arguments startTimeRef {E}.
Arguments recordingIntervalRef {E}.
Arguments ffmpegRef {E}.

(** The browser around the component. *)
Record Browser := mkBrowser {
  clock : Z;                        (* what [Date.now()] returns *)
  console : list string;            (* [console.error] lines *)
  intervals : gset positive;        (* active [setInterval] timers *)
  nextTimerId : positive;
  tasks : list Task;                (* MediaRecorder tasks not yet run *)
  objectUrls : gmap string Blob;    (* the blob URL store *)
  nextUrlId : positive;
  imageLoads : list string;         (* every value assigned to an [img.src] *)
  ffmpegLog : list FFmpegCall }.    (* calls made on the core, oldest first *)

Record State (E : Type) := mkState {
  ui : Ui;
  refs : Refs E;
  browser : Browser }.
Arguments mkState {E}.
Arguments ui {E}.
Arguments refs {E}.
Arguments browser {E}.

Definition render_of {E} (s : State E) : Render :=
  {| r_isConnected := isConnected (ui s);
     r_isRecording := isRecording (ui s);
     r_ffmpegLoaded := ffmpegLoaded (ui s) |}.

Section Handlers.

Context {E : Type} {P : Platform E}.
Variable wsUrl : string.

Definition with_ui (f : Ui -> Ui) (s : State E) : State E :=
  mkState (f (ui s)) (refs s) (browser s).
Definition with_refs (f : Refs E -> Refs E) (s : State E) : State E :=
  mkState (ui s) (f (refs s)) (browser s).
Definition with_browser (f : Browser -> Browser) (s : State E) : State E :=
  mkState (ui s) (refs s) (f (browser s)).

Definition set_wsRef (v : option WebSocket) (r : Refs E) : Refs E :=
  let 'mkRefs _ b c d e f g := r in mkRefs v b c d e f g.
Definition set_mediaRecorderRef (v : option MediaRecorder) (r : Refs E) : Refs E :=
  let 'mkRefs a _ c d e f g := r in mkRefs a v c d e f g.
Definition set_recordedChunksRef (v : list Blob) (r : Refs E) : Refs E :=
  let 'mkRefs a b _ d e f g := r in mkRefs a b v d e f g.
Definition set_canvasRef (v : option Canvas) (r : Refs E) : Refs E :=
  let 'mkRefs a b c _ e f g := r in mkRefs a b c v e f g.
Definition set_startTimeRef (v : Z) (r : Refs E) : Refs E :=
  let 'mkRefs a b c d _ f g := r in mkRefs a b c d v f g.
Definition set_recordingIntervalRef (v : option positive) (r : Refs E) : Refs E :=
  let 'mkRefs a b c d e _ g := r in mkRefs a b c d e v g.
Definition set_ffmpegRef (v : option E) (r : Refs E) : Refs E :=
  let 'mkRefs a b c d e f _ := r in mkRefs a b c d e f v.

Definition set_clock (v : Z) (b : Browser) : Browser :=
  let 'mkBrowser _ c i n t o u l g := b in mkBrowser v c i n t o u l g.
Definition set_console (v : list string) (b : Browser) : Browser :=
  let 'mkBrowser k _ i n t o u l g := b in mkBrowser k v i n t o u l g.
Definition set_intervals (v : gset positive) (b : Browser) : Browser :=
  let 'mkBrowser k c _ n t o u l g := b in mkBrowser k c v n t o u l g.
Definition set_nextTimerId (v : positive) (b : Browser) : Browser :=
  let 'mkBrowser k c i _ t o u l g := b in mkBrowser k c i v t o u l g.
Definition set_tasks (v : list Task) (b : Browser) : Browser :=
  let 'mkBrowser k c i n _ o u l g := b in mkBrowser k c i n v o u l g.
Definition set_objectUrls (v : gmap string Blob) (b : Browser) : Browser :=
  let 'mkBrowser k c i n t _ u l g := b in mkBrowser k c i n t v u l g.
Definition set_nextUrlId (v : positive) (b : Browser) : Browser :=
  let 'mkBrowser k c i n t o _ l g := b in mkBrowser k c i n t o v l g.
Definition set_imageLoads (v : list string) (b : Browser) : Browser :=
  let 'mkBrowser k c i n t o u _ g := b in mkBrowser k c i n t o u v g.
Definition set_ffmpegLog (v : list FFmpegCall) (b : Browser) : Browser :=
  let 'mkBrowser k c i n t o u l _ := b in mkBrowser k c i n t o u l v.

(** [console.error(msg, ...)]: the first argument is kept. *)
Definition console_error (msg : string) (s : State E) : State E :=
  with_browser (fun b => set_console (console b ++ [msg]) b) s.

(** [setInterval(...)]: a fresh positive timer id, now active. *)
Definition setInterval (s : State E) : positive * State E :=
  let id := nextTimerId (browser s) in
  (id, with_browser (fun b => set_nextTimerId (Pos.succ id)
                                (set_intervals ({[ id ]} ∪ intervals b) b)) s).

Definition clearInterval (id : positive) (s : State E) : State E :=
  with_browser (fun b => set_intervals (intervals b ∖ {[ id ]}) b) s.

(** *** Frames: [handleFrame] and [drawFrame] *)

(** The body of [img.onload]: clear, then draw the image scaled and centred. *)
Definition img_onload (img : Image) (canvas : Canvas) : Canvas :=
  let cw := Double.of_Z (canvas_width canvas) in
  let ch := Double.of_Z (canvas_height canvas) in
  let aspectRatio :=
    Double.div (Double.of_Z (img_width img)) (Double.of_Z (img_height img)) in
  let drawWidth :=
    if Double.gt aspectRatio (Double.of_Z 1) then cw else Double.mul ch aspectRatio in
  let drawHeight :=
    if Double.gt aspectRatio (Double.of_Z 1) then Double.div cw aspectRatio else ch in
  let x := Double.div (Double.sub cw drawWidth) (Double.of_Z 2) in
  let y := Double.div (Double.sub ch drawHeight) (Double.of_Z 2) in
  {| canvas_width := canvas_width canvas;
     canvas_height := canvas_height canvas;
     context2d := context2d canvas;
     canvas_ops := canvas_ops canvas
                     ++ [clearRect (Double.of_Z 0) (Double.of_Z 0) cw ch;
                         drawImage img x y drawWidth drawHeight] |}.

Definition formats (base64Data : string) : list string :=
  [ "data:image/bmp;base64," +:+ base64Data;
    "data:image/jpeg;base64," +:+ base64Data;
    "data:image/png;base64," +:+ base64Data ].

(** The record that [src] was assigned to [img.src]. *)
Definition loaded (src : string) (s : State E) : State E :=
  with_browser (fun b => set_imageLoads (imageLoads b ++ [src]) b) s.

(** [img.src = src] and what follows from it: the browser decodes [src] and
    fires [load] or [error]; the [error] handler moves on to the next format
    or logs. *)
Equations? img_set_src (fmts : list string) (formatIndex : nat) (src : string)
    (canvas : Canvas) (s : State E) : State E
    by wf (length fmts - formatIndex)%nat lt :=
img_set_src fmts formatIndex src canvas s
  with decodeImage src := {
  | Some (w, h) :=
      with_refs (set_canvasRef (Some (img_onload
          {| img_src := src; img_width := w; img_height := h |} canvas)))
        (loaded src s)
  | None with decide (S formatIndex < length fmts)%nat := {
    | left _ :=
        img_set_src fmts (S formatIndex) (nth (S formatIndex) fmts "") canvas
          (loaded src s)
    | right _ :=
        console_error "Failed to load image in any format" (loaded src s) } }.
Proof. lia. Qed.

Definition drawFrame (base64Data : string) (s : State E) : State E :=
  match canvasRef (refs s) with
  | None => s
  | Some canvas =>
      if negb (context2d canvas) then s
      else img_set_src (formats base64Data) 0 (nth 0 (formats base64Data) "") canvas s
  end.

Definition handleFrame (data : string) (s : State E) : State E :=
  drawFrame data (with_ui (setFrameCount (fun prev => Js.add prev 1)) s).

(** *** Recording: [startRecording], [stopRecording] and the displays *)

Definition updateRecordingTime (s : State E) : State E :=
  if startTimeRef (refs s) =? 0 then s
  else
    let elapsed := Js.sub (clock (browser s)) (startTimeRef (refs s)) in
    let minutes := Js.floor_div elapsed 60000 in
    let seconds := Js.floor_div (Js.rem elapsed 60000) 1000 in
    with_ui (setRecordingTime
      (Js.padStart 2 "0" (Js.toString minutes) +:+ ":"
         +:+ Js.padStart 2 "0" (Js.toString seconds))) s.

Definition updateFileSize (s : State E) : State E :=
  let totalSize :=
    fold_left (fun size chunk => Js.add size (blob_size chunk))
              (recordedChunksRef (refs s)) 0 in
  let sizeMB := Js.toFixed2_mb totalSize in
  with_ui (setFileSize (sizeMB +:+ " MB")) s.

(** [mediaRecorder.ondataavailable] *)
Definition ondataavailable (data : Blob) (s : State E) : State E :=
  if blob_size data >? 0 then
    updateFileSize
      (with_refs (fun r => set_recordedChunksRef (recordedChunksRef r ++ [data]) r) s)
  else s.

(** [new MediaRecorder(stream, { mimeType })] throws for an unsupported type. *)
Definition new_MediaRecorder (mimeType : string) (r : Render) : Outcome MediaRecorder :=
  if isTypeSupported mimeType then
    Returned {| mr_state := inactive; mr_mimeType := mimeType; mr_timeslice := 0;
                mr_gathered := []; mr_closure := r |}
  else Thrown (DOMException "NotSupportedError").

(** [mediaRecorder.start(timeslice)] *)
Definition mr_start (timeslice : Z) (m : MediaRecorder) : MediaRecorder :=
  {| mr_state := recording; mr_mimeType := mr_mimeType m; mr_timeslice := timeslice;
     mr_gathered := []; mr_closure := mr_closure m |}.

(** [mediaRecorder.stop()]: the recorder becomes inactive and queues a
    [dataavailable] event with the data gathered so far, then a [stop] event. *)
Definition mr_stop (m : MediaRecorder) : MediaRecorder * list Task :=
  ({| mr_state := inactive; mr_mimeType := mr_mimeType m;
      mr_timeslice := mr_timeslice m; mr_gathered := []; mr_closure := mr_closure m |},
   [TaskDataAvailable {| blob_data := mr_gathered m; blob_type := mr_mimeType m |};
    TaskStop (mr_closure m)]).

Definition startRecording (r : Render) (s : State E) : State E :=
  if negb (r_isConnected r) || negb (bool_decide (is_Some (canvasRef (refs s)))) then s
  else
    let s := with_refs (set_recordedChunksRef []) s in
    let s := with_ui (setIsRecording true) s in
    let s := with_refs (set_startTimeRef (clock (browser s))) s in
    match new_MediaRecorder "video/webm;codecs=vp9" r with
    | Returned mediaRecorder =>
        let s := with_refs (set_mediaRecorderRef (Some (mr_start 1000 mediaRecorder))) s in
        let '(id, s) := setInterval s in
        let s := with_refs (set_recordingIntervalRef (Some id)) s in
        with_ui (setStatus "Recording...") s
    | Thrown _ =>
        with_ui (setIsRecording false) (console_error "Failed to start recording:" s)
    end.

Definition stopRecording (r : Render) (s : State E) : State E :=
  if negb (r_isRecording r) then s
  else
    let s := with_ui (setIsRecording false) s in
    let s :=
      match mediaRecorderRef (refs s) with
      | Some m =>
          match mr_state m with
          | recording =>
              let '(m', queued) := mr_stop m in
              with_browser (fun b => set_tasks (tasks b ++ queued) b)
                (with_refs (set_mediaRecorderRef (Some m')) s)
          | _ => s
          end
      | None => s
      end in
    let s :=
      match recordingIntervalRef (refs s) with
      | Some id => with_refs (set_recordingIntervalRef None) (clearInterval id s)
      | None => s
      end in
    with_ui (setStatus "Recording stopped") s.

(** *** Transcode: [createVideoBlob] *)

(** Code that may throw while changing the state: the state reached when
    the exception is raised is kept. *)
Definition Run (A : Type) : Type := State E -> Outcome A * State E.

Definition ret {A} (a : A) : Run A := fun s => (Returned a, s).
Definition throw {A} (e : JsError) : Run A := fun s => (Thrown e, s).
Definition bind {A B} (m : Run A) (k : A -> Run B) : Run B :=
  fun s => match m s with
           | (Returned a, s') => k a s'
           | (Thrown e, s') => (Thrown e, s')
           end.
Definition gets {A} (f : State E -> A) : Run A := fun s => (Returned (f s), s).
Definition modify (f : State E -> State E) : Run unit := fun s => (Returned tt, f s).

Notation "'do' x <- m ; k" := (bind m (fun x => k))
  (at level 10, x name, m at level 100, k at level 200).
Notation "m ;; k" := (bind m (fun _ => k))
  (at level 100, k at level 200, right associativity).

(** A call on [ffmpegRef.current]: run the core operation, keep the new
    core, log the call.  On a null ref the member access itself throws. *)
Definition on_ffmpeg {A} (call : FFmpegCall) (op : E -> Outcome A * E) : Run A :=
  fun s =>
    match ffmpegRef (refs s) with
    | None => (Thrown (Error "TypeError"), s)
    | Some e =>
        let '(o, e') := op e in
        (o, with_browser (fun b => set_ffmpegLog (ffmpegLog b ++ [call]) b)
              (with_refs (set_ffmpegRef (Some e')) s))
    end.

Definition ffmpeg_writeFile (path : string) (data : list Byte.byte) : Run unit :=
  on_ffmpeg (CallWriteFile path data) (core_writeFile path data).
Definition ffmpeg_exec (args : list string) : Run Z :=
  on_ffmpeg (CallExec args) (core_exec args).
Definition ffmpeg_readFile (path : string) : Run (list Byte.byte) :=
  on_ffmpeg (CallReadFile path) (core_readFile path).

(** [fetchFile(blob)]: the bytes of the blob. *)
Definition fetchFile (b : Blob) : Run (list Byte.byte) := ret (blob_data b).

(** [URL.createObjectURL(blob)]: a new entry in the blob URL store. *)
Definition createObjectURL (b : Blob) : Run string :=
  fun s =>
    let id := nextUrlId (browser s) in
    let url := "blob:" +:+ pretty id in
    (Returned url,
     with_browser (fun br => set_nextUrlId (Pos.succ id)
                               (set_objectUrls (<[ url := b ]> (objectUrls br)) br)) s).

Definition exec_args : list string :=
  [ "-i"; "input.webm";
    "-c:v"; "libx264";
    "-preset"; "fast";
    "-crf"; "23";
    "-c:a"; "aac";
    "-b:a"; "128k";
    "output.mp4" ].

(** [`recorded_video_${new Date().toISOString().slice(0, 19).replace(/:/g, '-')}.mp4`]
    at time value [now]. *)
Definition download_filename (now : Z) : string :=
  "recorded_video_"
    +:+ Js.replace_all ":" "-" (Js.slice0 19 (Js.toISOString now))
    +:+ ".mp4".

(** The [try] block of [createVideoBlob]. *)
Definition createVideoBlob_try (r : Render) : Run unit :=
  do chunks <- gets (fun s => recordedChunksRef (refs s));
  let webmBlob := new_Blob (map blob_data chunks) "video/webm" in
  do ffmpeg <- gets (fun s => ffmpegRef (refs s));
  (if negb (bool_decide (is_Some ffmpeg)) || negb (r_ffmpegLoaded r)
   then throw (Error "FFmpeg not loaded") else ret tt) ;;
  do bytes <- fetchFile webmBlob;
  ffmpeg_writeFile "input.webm" bytes ;;
  ffmpeg_exec exec_args ;;
  do data <- ffmpeg_readFile "output.mp4";
  let mp4Blob := new_Blob [data] "video/mp4" in
  do url <- createObjectURL mp4Blob;
  do now <- gets (fun s => clock (browser s));
  let filename := download_filename now in
  modify (with_ui (setDownloadUrl url)) ;;
  modify (with_ui (setDownloadFilename filename)) ;;
  modify (with_ui (setConversionStatus "MP4 video ready for download!")) ;;
  modify (with_ui (setConversionProgress 100)) ;;
  modify (with_ui (setStatus "Video ready for download")).

(** [createVideoBlob], run to completion.  (The awaits in it are treated as
    one step: the component has no other job in flight meanwhile, and the
    core's [progress] events, which only move the progress bar, are left
    out.) *)
Definition createVideoBlob (r : Render) (s : State E) : State E :=
  let s := with_ui (setShowDownload true) s in
  let s := with_ui (setConversionStatus "Processing video...") s in
  let s := with_ui (setConversionProgress 0) s in
  match createVideoBlob_try r s with
  | (Returned _, s') => s'
  | (Thrown _, s') =>
      with_ui (setConversionStatus "Error converting video. Please try again.")
        (console_error "Error converting video:" s')
  end.

(** *** The socket: [connect], [disconnect] and the socket's handlers *)

Definition ws_set_readyState (st : ReadyState) (s : State E) : State E :=
  match wsRef (refs s) with
  | Some ws =>
      with_refs (set_wsRef (Some {| ws_url := ws_url ws; ws_readyState := st;
                                    ws_closure := ws_closure ws |})) s
  | None => s
  end.

Definition disconnect (r : Render) (s : State E) : State E :=
  let s := ws_set_readyState CLOSING s in
  let s := with_ui (setIsConnected false) s in
  let s := with_ui (setStatus "Disconnected") s in
  stopRecording r s.

Definition connect (r : Render) (s : State E) : State E :=
  if r_isConnected r then disconnect r s
  else
    let s := with_ui (setStatus "Connecting...") s in
    with_refs (set_wsRef (Some {| ws_url := wsUrl; ws_readyState := CONNECTING;
                                  ws_closure := r |})) s.

Definition ws_onopen (s : State E) : State E :=
  with_ui (setStatus "Connected") (with_ui (setIsConnected true) s).

Definition ws_onerror (s : State E) : State E :=
  with_ui (setIsConnected false)
    (with_ui (setStatus "Connection Error") (console_error "WebSocket error:" s)).

Definition ws_onclose (r : Render) (s : State E) : State E :=
  let s := with_ui (setIsConnected false) s in
  let s := with_ui (setStatus "Disconnected") s in
  stopRecording r s.

(** *** The event loop *)

Inductive Event :=
| FFmpegLoaded                      (* [ffmpeg.load] resolved *)
| FFmpegLoadFailed                  (* [ffmpeg.load] rejected *)
| ClickConnect
| ClickStart
| ClickStop
| WsOpen
| WsError
| WsClose
| WsMessage (data : string)
| IntervalFired (id : positive)
| Encoded (data : list Byte.byte)   (* the recorder's encoder produced data *)
| TimesliceElapsed                  (* the recorder's timeslice timer *)
| RunTask                           (* the oldest queued recorder task runs *)
| Elapse (dt : Z).                  (* the wall clock moves *)

Definition ws_is (st : ReadyState) (s : State E) : bool :=
  match wsRef (refs s) with
  | Some ws => match ws_readyState ws, st with
               | CONNECTING, CONNECTING | OPEN, OPEN
               | CLOSING, CLOSING | CLOSED, CLOSED => true
               | _, _ => false
               end
  | None => false
  end.

Definition ws_captured (s : State E) : Render :=
  match wsRef (refs s) with
  | Some ws => ws_closure ws
  | None => render_of s
  end.

Definition recorder_gather (data : list Byte.byte) (s : State E) : State E :=
  match mediaRecorderRef (refs s) with
  | Some m =>
      match mr_state m with
      | recording =>
          with_refs (set_mediaRecorderRef (Some
            {| mr_state := recording; mr_mimeType := mr_mimeType m;
               mr_timeslice := mr_timeslice m;
               mr_gathered := mr_gathered m ++ data; mr_closure := mr_closure m |})) s
      | _ => s
      end
  | None => s
  end.

Definition recorder_timeslice (s : State E) : State E :=
  match mediaRecorderRef (refs s) with
  | Some m =>
      match mr_state m with
      | recording =>
          with_browser (fun b => set_tasks (tasks b ++
              [TaskDataAvailable {| blob_data := mr_gathered m;
                                    blob_type := mr_mimeType m |}]) b)
            (with_refs (set_mediaRecorderRef (Some (mr_start (mr_timeslice m) m))) s)
      | _ => s
      end
  | None => s
  end.

Definition run_task (t : Task) (s : State E) : State E :=
  match t with
  | TaskDataAvailable data => ondataavailable data s
  | TaskStop closure => createVideoBlob closure s
  end.

(** One turn of the event loop.  Clicks go to the handlers of the current
    render and respect the buttons' [disabled] attributes; socket events go
    to the handlers installed by [connect]. *)
Definition step (ev : Event) (s : State E) : State E :=
  let r := render_of s in
  match ev with
  | FFmpegLoaded =>
      with_ui (setStatus "Ready to connect") (with_ui (setFfmpegLoaded true) s)
  | FFmpegLoadFailed =>
      with_ui (setStatus "FFmpeg failed to load") (console_error "Failed to load FFmpeg:" s)
  | ClickConnect =>
      if negb (r_ffmpegLoaded r) then s else connect r s
  | ClickStart =>
      if negb (r_isConnected r) || r_isRecording r || negb (r_ffmpegLoaded r) then s
      else startRecording r s
  | ClickStop =>
      if negb (r_isRecording r) then s else stopRecording r s
  | WsOpen =>
      if ws_is CONNECTING s then ws_onopen (ws_set_readyState OPEN s) else s
  | WsError =>
      if ws_is CLOSED s then s else ws_onerror s
  | WsClose =>
      if ws_is CLOSED s then s
      else match wsRef (refs s) with
           | Some _ => ws_onclose (ws_captured s) (ws_set_readyState CLOSED s)
           | None => s
           end
  | WsMessage data =>
      if ws_is OPEN s then handleFrame data s else s
  | IntervalFired id =>
      if bool_decide (id ∈ intervals (browser s)) then updateRecordingTime s else s
  | Encoded data => recorder_gather data s
  | TimesliceElapsed => recorder_timeslice s
  | RunTask =>
      match tasks (browser s) with
      | t :: rest => run_task t (with_browser (set_tasks rest) s)
      | [] => s
      end
  | Elapse dt => with_browser (fun b => set_clock (clock b + dt) b) s
  end.

Definition run (evs : list Event) (s : State E) : State E :=
  fold_left (fun s ev => step ev s) evs s.

(** The component after its first render and mount effect: the canvas is
    mounted (300 by 300), the FFmpeg object exists but is not loaded yet. *)
Definition initial (core : E) (now : Z) : State E :=
  {| ui := {| status := "Connecting..."; frameCount := 0; recordingTime := "00:00";
              fileSize := "0 MB"; isConnected := false; isRecording := false;
              showDownload := false; conversionProgress := 0;
              conversionStatus := "Processing..."; downloadUrl := "";
              downloadFilename := ""; ffmpegLoaded := false |};
     refs := {| wsRef := None; mediaRecorderRef := None; recordedChunksRef := [];
                canvasRef := Some {| canvas_width := 300; canvas_height := 300;
                                     context2d := true; canvas_ops := [] |};
                startTimeRef := 0; recordingIntervalRef := None;
                ffmpegRef := Some core |};
     browser := {| clock := now; console := []; intervals := ∅; nextTimerId := 1%positive;
                   tasks := []; objectUrls := ∅; nextUrlId := 1%positive;
                   imageLoads := []; ffmpegLog := [] |} |}.

End Handlers.

(** *** Observations used in the statements *)

Section Observations.

Context {E : Type} {P : Platform E}.

(** The calls one run of [createVideoBlob] makes on the core. *)
Definition job_calls (r : Render) (s : State E) : list FFmpegCall :=
  drop (length (ffmpegLog (browser s))) (ffmpegLog (browser (createVideoBlob r s))).

(** The virtual files a call writes or reads by name. *)
Definition call_files (c : FFmpegCall) : list string :=
  match c with
  | CallWriteFile path _ => [path]
  | CallReadFile path => [path]
  | CallExec _ => []
  end.

Definition job_files (r : Render) (s : State E) : list string :=
  concat (map call_files (job_calls r s)).

Definition is_exec (c : FFmpegCall) : bool :=
  match c with CallExec _ => true | _ => false end.

(** The three calls of a job that runs to the end. *)
Definition full_job (s : State E) : list FFmpegCall :=
  [ CallWriteFile "input.webm" (concat (map blob_data (recordedChunksRef (refs s))));
    CallExec exec_args;
    CallReadFile "output.mp4" ].

(** The value that follows option [flag] on a command line. *)
Fixpoint arg_value (flag : string) (args : list string) : option string :=
  match args with
  | a :: ((v :: _) as rest) => if String.eqb a flag then Some v else arg_value flag rest
  | _ => None
  end.

Definition ready_message : string := "MP4 video ready for download!".
Definition error_message : string := "Error converting video. Please try again.".

(** The download link as rendered: its [href], its [download] name and the
    blob the URL stands for. *)
Definition download_link (s : State E) : string * string * option Blob :=
  (downloadUrl (ui s), downloadFilename (ui s),
   objectUrls (browser s) !! downloadUrl (ui s)).

(** What the platform does with one job, read off the core: which of the
    three operations rejects first, or the data read back. *)
Inductive JobOutcome :=
| JobNotLoaded
| JobWriteRejected (e : JsError)
| JobExecRejected (e : JsError)
| JobReadRejected (e : JsError)
| JobReady (data : list Byte.byte).

Definition job_outcome (r : Render) (s : State E) : JobOutcome :=
  match ffmpegRef (refs s) with
  | None => JobNotLoaded
  | Some c0 =>
      if negb (r_ffmpegLoaded r) then JobNotLoaded
      else
        match core_writeFile "input.webm"
                (concat (map blob_data (recordedChunksRef (refs s)))) c0 with
        | (Thrown e, _) => JobWriteRejected e
        | (Returned _, c1) =>
            match core_exec exec_args c1 with
            | (Thrown e, _) => JobExecRejected e
            | (Returned _, c2) =>
                match core_readFile "output.mp4" c2 with
                | (Thrown e, _) => JobReadRejected e
                | (Returned data, _) => JobReady data
                end
            end
        end
  end.

(** A job that ended in the error state, seen from outside. *)
Definition job_failed (s s' : State E) : Prop :=
  conversionStatus (ui s') = error_message
  /\ showDownload (ui s') = true
  /\ status (ui s') = status (ui s)
  /\ download_link s' = download_link s
  /\ console (browser s') = console (browser s) ++ ["Error converting video:"]
  /\ tasks (browser s') = tasks (browser s).

(** A job that ended with a download link for [data]. *)
Definition job_ready (data : list Byte.byte) (s s' : State E) : Prop :=
  conversionStatus (ui s') = ready_message
  /\ showDownload (ui s') = true
  /\ conversionProgress (ui s') = 100
  /\ status (ui s') = "Video ready for download"
  /\ download_link s'
     = ("blob:" +:+ pretty (nextUrlId (browser s)),
        download_filename (clock (browser s)),
        Some {| blob_data := data; blob_type := "video/mp4" |})
  /\ console (browser s') = console (browser s)
  /\ tasks (browser s') = tasks (browser s).


(** Exact sum of the chunk sizes. *)
Definition sum_sizes (chunks : list Blob) : Z :=
  foldr (fun chunk acc => blob_size chunk + acc) 0 chunks.

(** What [updateFileSize] shows for a buffer: the total as [reduce] adds it
    up, in megabytes with two decimals. *)
Definition shown_size (chunks : list Blob) : string :=
  Js.toFixed2_mb (fold_left (fun size chunk => Js.add size (blob_size chunk)) chunks 0)
    +:+ " MB".

(** While the buffer holds a chunk, the display shows the buffer's size. *)
Definition size_shown (s : State E) : Prop :=
  recordedChunksRef (refs s) <> [] ->
  fileSize (ui s) = shown_size (recordedChunksRef (refs s)).

(** Event [ev] delivers a non-empty chunk in state [s]. *)
Definition delivers_chunk (ev : Event) (s : State E) : Prop :=
  ev = RunTask
  /\ exists data rest,
       tasks (browser s) = TaskDataAvailable data :: rest /\ 0 < blob_size data.

(** The Stop button and the Disconnect button in a recording state. *)
Definition stops_recording (ev : Event) (s : State E) : Prop :=
  isRecording (ui s) = true
  /\ (ev = ClickStop
      \/ (ev = ClickConnect /\ isConnected (ui s) = true /\ ffmpegLoaded (ui s) = true)).

(** Timer and clock events. *)
Definition is_time_event (ev : Event) : bool :=
  match ev with
  | IntervalFired _ | Elapse _ => true
  | _ => false
  end.

(** The only active timer is the one [recordingIntervalRef] holds, and
    there is none while not recording. *)
Definition timers_ok (s : State E) : Prop :=
  match recordingIntervalRef (refs s) with
  | Some id => intervals (browser s) ⊆ {[ id ]}
  | None => intervals (browser s) = ∅
  end
  /\ (isRecording (ui s) = false -> recordingIntervalRef (refs s) = None).

(** The canvas of the component: mounted, with a 2D context, square. *)
Definition canvas_ready (s : State E) (c : Canvas) : Prop :=
  canvasRef (refs s) = Some c /\ context2d c = true
  /\ canvas_width c = canvas_height c /\ 0 < canvas_width c.

End Observations.

(** *** The specification's wording, for comparison *)

(** "No two jobs write or read the same virtual filenames." *)
Definition spec_fresh_names (first second : list string) : Prop :=
  forall path, In path first -> ~ In path second.

(** "Elapsed wall-clock time rounded to the nearest second, as MM:SS." *)
Definition spec_recordingTime (elapsed : Z) : string :=
  let seconds := (elapsed + 500) / 1000 in
  Js.digits_fixed 2 (seconds / 60) +:+ ":" +:+ Js.digits_fixed 2 (seconds mod 60).

(** "The sum of the byte sizes of all chunks buffered so far, in megabytes
    with exactly two decimal places." *)
Definition spec_fileSize (chunks : list Blob) : string :=
  Js.toFixed2_mb (foldr (fun chunk acc => blob_size chunk + acc) 0 chunks) +:+ " MB".


(** *** A platform for concrete runs

    An in-memory core: the virtual filesystem is a finite map, [exec] copies
    the file named after [-i] to the file named last (exit code 0) or does
    nothing (exit code 1), reading a missing file rejects.  The image
    decoder and codec support are given. *)

Definition mem_writeFile (path : string) (data : list Byte.byte)
    (fs : gmap string (list Byte.byte)) : Outcome unit * gmap string (list Byte.byte) :=
  (Returned tt, <[ path := data ]> fs).

Definition mem_exec (args : list string) (fs : gmap string (list Byte.byte))
    : Outcome Z * gmap string (list Byte.byte) :=
  match args with
  | "-i" :: input :: rest =>
      match fs !! input, last rest with
      | Some data, Some output => (Returned 0, <[ output := data ]> fs)
      | _, _ => (Returned 1, fs)
      end
  | _ => (Returned 1, fs)
  end.

Definition mem_readFile (path : string) (fs : gmap string (list Byte.byte))
    : Outcome (list Byte.byte) * gmap string (list Byte.byte) :=
  match fs !! path with
  | Some data => (Returned data, fs)
  | None => (Thrown (Error "ErrnoError: FS error"), fs)
  end.

Definition mem_platform (decoder : string -> option (Z * Z)) (vp9 : bool)
    : Platform (gmap string (list Byte.byte)) :=
  {| decodeImage := decoder;
     isTypeSupported := fun _ => vp9;
     core_writeFile := mem_writeFile;
     core_exec := mem_exec;
     core_readFile := mem_readFile |}.

(** A core whose [exec] always rejects. *)
Definition broken_platform : Platform (gmap string (list Byte.byte)) :=
  {| decodeImage := fun _ => None;
     isTypeSupported := fun _ => true;
     core_writeFile := mem_writeFile;
     core_exec := fun _ fs => (Thrown (Error "exec failed"), fs);
     core_readFile := mem_readFile |}.

(** Decoders: one that reads nothing, one that reads JPEG data URLs only. *)
Definition decode_nothing (src : string) : option (Z * Z) := None.
Definition decode_jpeg (src : string) : option (Z * Z) :=
  if String.prefix "data:image/jpeg;base64," src then Some (640, 480) else None.

(** *** Concrete runs *)

Definition example_platform : Platform (gmap string (list Byte.byte)) :=
  mem_platform decode_jpeg true.
Definition blind_platform : Platform (gmap string (list Byte.byte)) :=
  mem_platform decode_nothing true.

Definition example_url : string := "ws://qnxpi-andrew.local:8080/".

(** Mounted at 2026-11-02T12:00:00Z. *)
Definition example_initial : State (gmap string (list Byte.byte)) :=
  initial ∅ 1793620800000.

(** Engine loaded, socket open, recording just started. *)
Definition example_recording : State (gmap string (list Byte.byte)) :=
  run (P:=example_platform) example_url
      [FFmpegLoaded; ClickConnect; WsOpen; ClickStart] example_initial.

(** 1.6 seconds later, the recording timer about to fire. *)
Definition example_late_tick : State (gmap string (list Byte.byte)) :=
  run (P:=example_platform) example_url [Elapse 1600] example_recording.

(** The timer fired on time after one second; 0.6 seconds have passed since. *)
Definition example_between_ticks : State (gmap string (list Byte.byte)) :=
  run (P:=example_platform) example_url
      [Elapse 1000; IntervalFired 1; Elapse 600] example_recording.

Definition example_bytes : list Byte.byte := repeat Byte.x2a (Z.to_nat 5243).

Definition example_chunk : Blob :=
  {| blob_data := example_bytes; blob_type := "video/webm;codecs=vp9" |}.

(** One chunk of 5243 bytes has been delivered and buffered. *)
Definition example_buffered : State (gmap string (list Byte.byte)) :=
  run (P:=example_platform) example_url
      [Encoded example_bytes; TimesliceElapsed; RunTask] example_recording.

(** The recording is stopped and transcoded, then a second one is started. *)
Definition example_second_session : State (gmap string (list Byte.byte)) :=
  run (P:=example_platform) example_url
      [ClickStop; RunTask; RunTask; ClickStart] example_buffered.

(** The same recording stopped on a core whose [exec] rejects. *)
Definition example_broken_job : State (gmap string (list Byte.byte)) :=
  run (P:=broken_platform) example_url [ClickStop; RunTask] example_buffered.

(** The virtual filesystem after the write, and after the command. *)
Definition example_fs_written : gmap string (list Byte.byte) :=
  <[ "input.webm" := example_bytes ]> ∅.
Definition example_fs_transcoded : gmap string (list Byte.byte) :=
  <[ "output.mp4" := example_bytes ]> example_fs_written.

Definition render_recording : Render :=
  {| r_isConnected := true; r_isRecording := true; r_ffmpegLoaded := true |}.
Definition render_idle : Render :=
  {| r_isConnected := true; r_isRecording := false; r_ffmpegLoaded := true |}.
Definition render_unloaded : Render :=
  {| r_isConnected := true; r_isRecording := false; r_ffmpegLoaded := false |}.

End Recorder.

(** ** [frontend/lib/api.ts]: polling a task *)

Module Api.

Record StatusResponse := { status : string; error : option string }.

Inductive JsError :=
| Error (message : string)
| AxiosError (response_status : option Z)   (* [error.response?.status] *)
| OtherError (tag : string).

Inductive Outcome (A : Type) :=
| Returned (a : A)
| Thrown (e : JsError).
Arguments Returned {A} a.
Arguments Thrown {A} e.

(** What [pollTaskStatus] does to the outside, in order. *)
Inductive Effect :=
| GetStatus (taskId : string)               (* [GET /status/<taskId>] *)
| Notified (st : StatusResponse)            (* [onStatusUpdate(status)] *)
| GetResult (taskId : string)               (* [GET /result/<taskId>] *)
| Slept (ms : Z).                           (* [setTimeout(resolve, ms)] *)

(** The backend as seen through axios.  Its answers may change over time:
    the second argument is the number of status requests made before.
    Every request settles (axios is created with a timeout). *)
Class Backend (R : Type) := {
  checkStatus : string -> nat -> Outcome StatusResponse;
  getResult : string -> nat -> Outcome R }.

Section Poll.

Context {R : Type} {B : Backend R}.

(** The [catch] clause: a 404 from axios becomes 'Task not found',
    anything else is thrown again. *)
Definition rethrow (e : JsError) : JsError :=
  match e with
  | AxiosError (Some 404) => Error "Task not found"
  | _ => e
  end.

Definition catch {A} (o : Outcome A) : Outcome A :=
  match o with
  | Returned a => Returned a
  | Thrown e => Thrown (rethrow e)
  end.

(** [status.error || 'Task failed'] *)
Definition failure_message (st : StatusResponse) : string :=
  match error st with
  | Some m => if String.eqb m "" then "Task failed" else m
  | None => "Task failed"
  end.

Inductive Iteration :=
| Finished (o : Outcome R)       (* the function returned or threw *)
| Continue.                      (* [attempts++], back to the loop test *)

(** A callback returns or throws. *)
Definition Callback : Type := StatusResponse -> option JsError.

(** The body of the [while] loop at the [n]-th status request. *)
Definition poll_attempt (taskId : string) (onStatusUpdate : option Callback)
    (interval : Z) (n : nat) : Iteration * list Effect :=
  match checkStatus taskId n with
  | Thrown e => (Finished (catch (Thrown e)), [GetStatus taskId])
  | Returned st =>
      let notified := match onStatusUpdate with
                      | Some _ => [Notified st]
                      | None => []
                      end in
      match from_option (fun f => f st) None onStatusUpdate with
      | Some e => (Finished (catch (Thrown e)), GetStatus taskId :: notified)
      | None =>
          if String.eqb (status st) "completed" then
            (Finished (catch (getResult taskId n)),
             GetStatus taskId :: notified ++ [GetResult taskId])
          else if String.eqb (status st) "failed" then
            (Finished (catch (Thrown (Error (failure_message st)))),
             GetStatus taskId :: notified)
          else
            (Continue, GetStatus taskId :: notified ++ [Slept interval])
      end
  end.

(** The [while (attempts < maxAttempts)] loop and the [throw] after it.
    [attempts] counts from 0 in steps of one. *)
Equations? poll_loop (taskId : string) (onStatusUpdate : option Callback)
    (maxAttempts interval : Z) (attempts : nat) (trace : list Effect)
    : Outcome R * list Effect
    by wf (Z.to_nat (maxAttempts - Z.of_nat attempts)) lt :=
poll_loop taskId onStatusUpdate maxAttempts interval attempts trace
  with decide (Z.of_nat attempts < maxAttempts) := {
  | right _ := (Thrown (Error "Task polling timed out"), trace)
  | left _ with poll_attempt taskId onStatusUpdate interval attempts := {
    | (Finished o, effects) := (o, trace ++ effects)
    | (Continue, effects) :=
        poll_loop taskId onStatusUpdate maxAttempts interval (S attempts)
                  (trace ++ effects) } }.
Proof. lia. Qed.

Definition pollTaskStatus (taskId : string) (onStatusUpdate : option Callback)
    (maxAttempts interval : option Z) : Outcome R * list Effect :=
  poll_loop taskId onStatusUpdate
            (default 100 maxAttempts) (default 3000 interval) 0 [].

Definition is_GetStatus (e : Effect) : bool :=
  match e with GetStatus _ => true | _ => false end.
Definition is_Slept (e : Effect) : bool :=
  match e with Slept _ => true | _ => false end.

(** How many status requests a trace holds. *)
Definition status_checks (trace : list Effect) : nat :=
  length (filter (fun e => is_GetStatus e = true) trace).

(** The status requests and the sleeps of a trace, in the order they
    happened. *)
Definition pacing (trace : list Effect) : list Effect :=
  List.filter (fun e => is_GetStatus e || is_Slept e) trace.

(** [n] rounds of one status request followed by one sleep of [ms]. *)
Definition paced_rounds (taskId : string) (ms : Z) (n : nat) : list Effect :=
  concat (repeat [GetStatus taskId; Slept ms] n).

End Poll.

(** *** Concrete backends *)

Definition pending : StatusResponse := {| status := "pending"; error := None |}.
Definition completed : StatusResponse := {| status := "completed"; error := None |}.
Definition failed (msg : string) : StatusResponse :=
  {| status := "failed"; error := Some msg |}.

(** Pending twice, then completed; the result is a string. *)
Definition third_time_backend : Backend string :=
  {| checkStatus := fun _ n => Returned (if (n <? 2)%nat then pending else completed);
     getResult := fun taskId _ => Returned ("result of " +:+ taskId) |}.

(** Pending for ever. *)
Definition stuck_backend : Backend string :=
  {| checkStatus := fun _ _ => Returned pending;
     getResult := fun _ _ => Thrown (AxiosError (Some 404)) |}.

(** The task is unknown: every status request is answered 404. *)
Definition unknown_task_backend : Backend string :=
  {| checkStatus := fun _ _ => Thrown (AxiosError (Some 404));
     getResult := fun _ _ => Thrown (AxiosError (Some 404)) |}.

End Api.

(** ** More of JavaScript's strings

    Strings are sequences of code units below 256. *)

Module JsStr.

(** [s.startsWith(p)] and [s.endsWith(p)]. *)
Definition startsWith (s p : string) : bool := String.prefix p s.

Definition endsWith (s p : string) : bool :=
  let n := String.length s in
  let m := String.length p in
  if (m <=? n)%nat then String.eqb (substring (n - m) m s) p else false.

(** [s.toLowerCase()]: A to Z and the capital letters of Latin-1. *)
Definition lower_char (c : ascii) : ascii :=
  let n := nat_of_ascii c in
  if ((65 <=? n) && (n <=? 90))%nat
     || ((192 <=? n) && (n <=? 222) && negb (n =? 215))%nat
  then ascii_of_nat (n + 32) else c.

Fixpoint toLowerCase (s : string) : string :=
  match s with
  | EmptyString => EmptyString
  | String c s' => String (lower_char c) (toLowerCase s')
  end.

(** [s.slice(1)]. *)
Definition slice1 (s : string) : string :=
  match s with
  | EmptyString => EmptyString
  | String _ s' => s'
  end.

(** [s.split(sep)] for a one-character separator: never empty. *)
Fixpoint split (sep : ascii) (s : string) : list string :=
  match s with
  | EmptyString => [EmptyString]
  | String c s' =>
      if Ascii.eqb c sep then EmptyString :: split sep s'
      else match split sep s' with
           | h :: t => String c h :: t
           | [] => [String c EmptyString]
           end
  end.

(** [parts.join(sep)] *)
Fixpoint join (sep : ascii) (parts : list string) : string :=
  match parts with
  | [] => EmptyString
  | [x] => x
  | x :: rest => x +:+ String sep (join sep rest)
  end.

(** How often a character occurs. *)
Fixpoint count_char (c : ascii) (s : string) : nat :=
  match s with
  | EmptyString => 0
  | String x s' => (if Ascii.eqb x c then 1 else 0) + count_char c s'
  end.

(** [parts.pop() || ''] on the result of a split. *)
Definition pop_or_empty (parts : list string) : string := List.last parts "".

(** A number that may be [NaN]. *)
Definition Num : Type := option Z.
Definition NaN : Num := None.

Definition num_mul (a b : Num) : Num :=
  match a, b with
  | Some x, Some y => Some (Js.round_double (x * y))
  | _, _ => NaN
  end.

Definition num_add (a b : Num) : Num :=
  match a, b with
  | Some x, Some y => Some (Js.add x y)
  | _, _ => NaN
  end.

(** White space that [parseInt] skips: tab, line feed, vertical tab, form
    feed, carriage return, space, no-break space. *)
Definition is_space (c : ascii) : bool :=
  let n := nat_of_ascii c in
  (((9 <=? n) && (n <=? 13)) || (n =? 32) || (n =? 160))%nat.

Fixpoint trim_start (s : string) : string :=
  match s with
  | EmptyString => EmptyString
  | String c s' => if is_space c then trim_start s' else s
  end.

Definition digit_value (c : ascii) : option Z :=
  let n := nat_of_ascii c in
  if ((48 <=? n) && (n <=? 57))%nat then Some (Z.of_nat n - 48) else None.

(** The value of the longest prefix of decimal digits, if there is a digit. *)
Fixpoint digits_prefix (s : string) (acc : option Z) : option Z :=
  match s with
  | EmptyString => acc
  | String c s' =>
      match digit_value c with
      | Some d => digits_prefix s' (Some (10 * default 0 acc + d))
      | None => acc
      end
  end.

(** [parseInt(s, 10)]: skip white space, take a sign, read digits up to the
    first character that is none; [NaN] without a digit.  (Minus zero is
    zero here.) *)
Definition parseInt10 (s : string) : Num :=
  let t := trim_start s in
  let '(sign, body) :=
    match t with
    | String "-" r => (-1, r)
    | String "+" r => (1, r)
    | _ => (1, t)
    end in
  match digits_prefix body None with
  | Some v => Some (sign * Js.round_double v)
  | None => NaN
  end.

End JsStr.

(** ** [lib/utils.ts] *)

Module Utils.

(** [process.env.NEXT_PUBLIC_API_URL || 'http://localhost:8000'] *)
Definition API_BASE_URL (env : option string) : string :=
  match env with
  | Some v => if String.eqb v "" then "http://localhost:8000" else v
  | None => "http://localhost:8000"
  end.

Section WithBase.

Variable base : string.      (* [API_BASE_URL] *)

Definition getImageUrl (imagePath : string) : string :=
  if String.eqb imagePath "" then ""
  else if JsStr.startsWith imagePath "http://" || JsStr.startsWith imagePath "https://"
  then imagePath
  else
    let cleanPath :=
      if JsStr.startsWith imagePath "/" then JsStr.slice1 imagePath else imagePath in
    base +:+ "/" +:+ cleanPath.

Definition getVideoUrl (videoPath : string) : string :=
  if String.eqb videoPath "" then ""
  else if JsStr.startsWith videoPath "http://" || JsStr.startsWith videoPath "https://"
  then videoPath
  else
    let cleanPath :=
      if JsStr.startsWith videoPath "/" then JsStr.slice1 videoPath else videoPath in
    base +:+ "/" +:+ cleanPath.

End WithBase.

Definition getFilenameFromPath (path : string) : string :=
  if String.eqb path "" then ""
  else JsStr.pop_or_empty (JsStr.split "/" path).

Definition timestampToSeconds (timestamp : string) : JsStr.Num :=
  if String.eqb timestamp "" then Some 0
  else
    match JsStr.split ":" timestamp with
    | [p0; p1] =>
        let minutes := JsStr.parseInt10 p0 in
        let seconds := JsStr.parseInt10 p1 in
        JsStr.num_add (JsStr.num_mul minutes (Some 60)) seconds
    | _ => Some 0
    end.

End Utils.

(** ** The upload page: [VideoUpload] and [HomePage] *)

Module Upload.

Record File := { file_name : string; file_type : string; file_size : Z }.

(** [validateFile]: an error message, or nothing. *)
Definition validateFile (file : File) : option string :=
  if negb (JsStr.startsWith (file_type file) "video/") then
    Some "Please select a video file"
  else if negb (JsStr.endsWith (JsStr.toLowerCase (file_name file)) ".mp4")
          && negb (JsStr.endsWith (JsStr.toLowerCase (file_name file)) ".mov") then
    Some "Only MP4 and MOV files are supported"
  else if file_size file >? 500 * 1024 * 1024 then
    Some "File size must be less than 500MB"
  else None.

(** The state of [VideoUpload]; [inputValue] is the value of the hidden file
    input behind [fileInputRef], which the browser sets when files are
    picked. *)
Record Picker := {
  dragActive : bool;
  selectedFile : option File;
  error : option string;
  inputValue : string }.

Definition handleFileSelect (file : File) (p : Picker) : Picker :=
  match validateFile file with
  | Some validationError =>
      {| dragActive := dragActive p; selectedFile := selectedFile p;
         error := Some validationError; inputValue := inputValue p |}
  | None =>
      {| dragActive := dragActive p; selectedFile := Some file;
         error := None; inputValue := inputValue p |}
  end.

(** [handleDrag], by the type of the drag event. *)
Definition handleDrag (type : string) (p : Picker) : Picker :=
  if String.eqb type "dragenter" || String.eqb type "dragover" then
    {| dragActive := true; selectedFile := selectedFile p;
       error := error p; inputValue := inputValue p |}
  else if String.eqb type "dragleave" then
    {| dragActive := false; selectedFile := selectedFile p;
       error := error p; inputValue := inputValue p |}
  else p.

Definition handleDrop (files : list File) (p : Picker) : Picker :=
  let p := {| dragActive := false; selectedFile := selectedFile p;
              error := error p; inputValue := inputValue p |} in
  match files with
  | file :: _ => handleFileSelect file p
  | [] => p
  end.

Definition handleFileInput (files : list File) (p : Picker) : Picker :=
  match files with
  | file :: _ => handleFileSelect file p
  | [] => p
  end.

Definition removeFile (p : Picker) : Picker :=
  {| dragActive := dragActive p; selectedFile := None; error := None; inputValue := "" |}.

(** [handleUpload]: the file handed to [onUpload], if any. *)
Definition handleUpload (p : Picker) : option File := selectedFile p.

Inductive PickerEvent :=
| Drag (type : string)
| Drop (files : list File)
| Input (value : string) (files : list File)   (* [change] on the file input *)
| Remove.

Definition picker_step (ev : PickerEvent) (p : Picker) : Picker :=
  match ev with
  | Drag type => handleDrag type p
  | Drop files => handleDrop files p
  | Input value files =>
      handleFileInput files
        {| dragActive := dragActive p; selectedFile := selectedFile p;
           error := error p; inputValue := value |}
  | Remove => removeFile p
  end.

Definition picker_run (evs : list PickerEvent) (p : Picker) : Picker :=
  fold_left (fun p ev => picker_step ev p) evs p.

Definition picker_initial : Picker :=
  {| dragActive := false; selectedFile := None; error := None; inputValue := "" |}.

(** *** [HomePage.handleVideoUpload] *)

Record UploadResponse := { task_id : string; video_id : string; message : string }.

(** The page: its three state variables, every value [setProcessingStatus]
    was called with (oldest first), and what it did outside. *)
Record Page := mkPage {
  isUploading : bool;
  uploadProgress : Z;
  processingStatus : string;
  statusHistory : list string;
  pushed : list string;         (* [router.push] *)
  alerts : list string;         (* [alert] *)
  errors : list string }.       (* [console.error] *)

Definition setIsUploading (v : bool) (p : Page) : Page :=
  let 'mkPage _ b c d e f g := p in mkPage v b c d e f g.
Definition setUploadProgress (v : Z) (p : Page) : Page :=
  let 'mkPage a _ c d e f g := p in mkPage a v c d e f g.
Definition setProcessingStatus (v : string) (p : Page) : Page :=
  let 'mkPage a b _ d e f g := p in mkPage a b v (d ++ [v]) e f g.
Definition router_push (url : string) (p : Page) : Page :=
  let 'mkPage a b c d e f g := p in mkPage a b c d (e ++ [url]) f g.
Definition alert (msg : string) (p : Page) : Page :=
  let 'mkPage a b c d e f g := p in mkPage a b c d e (f ++ [msg]) g.
Definition console_error (msg : string) (p : Page) : Page :=
  let 'mkPage a b c d e f g := p in mkPage a b c d e f (g ++ [msg]).

Section HomePage.

Context {R : Type} {B : Api.Backend R}.

(** [uploadVideo] as seen through axios, and the message axios gives an
    error with a given response status. *)
Variable uploadVideo : File -> Api.Outcome UploadResponse.
Variable axios_message : option Z -> string.

(** [error instanceof Error ? error.message : "Upload failed"];
    [OtherError] is a thrown value that is not an [Error]. *)
Definition alert_text (e : Api.JsError) : string :=
  match e with
  | Api.Error m => m
  | Api.AxiosError st => axios_message st
  | Api.OtherError _ => "Upload failed"
  end.

(** The callback given to [pollTaskStatus]. *)
Definition onStatusUpdate (st : Api.StatusResponse) (p : Page) : Page :=
  if String.eqb (Api.status st) "pending" then
    setUploadProgress 50 (setProcessingStatus "Analyzing video content..." p)
  else p.

(** What the callbacks of a finished poll did to the page. *)
Definition apply_notifications (trace : list Api.Effect) (p : Page) : Page :=
  fold_left (fun p e => match e with
                        | Api.Notified st => onStatusUpdate st p
                        | _ => p
                        end) trace p.

Definition handleVideoUpload (file : File) (p : Page) : Page :=
  let p := setIsUploading true p in
  let p := setUploadProgress 0 p in
  let p := setProcessingStatus "" p in
  let p := setProcessingStatus "Uploading video..." p in
  let p := setUploadProgress 10 p in
  let p :=
    match uploadVideo file with
    | Api.Thrown e => alert (alert_text e) (console_error "Upload error:" p)
    | Api.Returned uploadResponse =>
        let p := setUploadProgress 30 p in
        let p := setProcessingStatus "Processing video with AI..." p in
        let '(result, trace) :=
          Api.pollTaskStatus (task_id uploadResponse) (Some (fun _ => None)) None None in
        let p := apply_notifications trace p in
        match result with
        | Api.Returned _ =>
            let p := setUploadProgress 100 p in
            let p := setProcessingStatus "Processing complete!" p in
            router_push ("/result/" +:+ task_id uploadResponse) p
        | Api.Thrown e => alert (alert_text e) (console_error "Upload error:" p)
        end
    end in
  let p := setIsUploading false p in
  let p := setUploadProgress 0 p in
  setProcessingStatus "" p.

End HomePage.

(** Files for concrete runs: a clip of exactly 500 MiB, and a text file. *)
Definition clip : File :=
  {| file_name := "Holiday.MP4"; file_type := "video/mp4";
     file_size := 500 * 1024 * 1024 |}.
Definition notes : File :=
  {| file_name := "notes.txt"; file_type := "text/plain"; file_size := 10 |}.

Definition page_initial : Page :=
  {| isUploading := false; uploadProgress := 0; processingStatus := "";
     statusHistory := []; pushed := []; alerts := []; errors := [] |}.

End Upload.

(** ** Further observations *)

Module RecorderMore.
Import Recorder.

Section Observations.

Context {E : Type}.

(** Every URL in the blob store was made by [createObjectURL] from a
    counter value already used. *)
Definition urls_ok (s : State E) : Prop :=
  forall url, is_Some (objectUrls (browser s) !! url) ->
    exists k, url = "blob:" +:+ pretty k /\ (k < nextUrlId (browser s))%positive.

(** How many socket messages a list of events holds. *)
Definition messages (evs : list Event) : Z :=
  Z.of_nat (length (List.filter (fun ev => match ev with
                                           | WsMessage _ => true
                                           | _ => false
                                           end) evs)).

(** The tasks that deliver the given blobs, in order. *)
Definition deliveries (blobs : list Blob) : list Task :=
  map TaskDataAvailable blobs.

(** [n] turns of the event loop that each run the oldest task. *)
Definition run_tasks (n : nat) : list Event := repeat RunTask n.

(** The state of the recorder the component holds, if it holds one. *)
Definition recorder_state (s : State E) : option RecordingState :=
  option_map mr_state (mediaRecorderRef (refs s)).

(** The flag, the timer and the recorder agree on whether a recording is
    running. *)
Definition in_step (s : State E) : Prop :=
  match isRecording (ui s), recordingIntervalRef (refs s) with
  | true, Some id => intervals (browser s) = {[ id ]} /\ recorder_state s = Some recording
  | false, None =>
      intervals (browser s) = ∅
      /\ (recorder_state s = None \/ recorder_state s = Some inactive)
  | _, _ => False
  end.

(** [downloadVideo]: the [href] and [download] of the link it clicks, if it
    clicks one. *)
Definition downloadVideo (s : State E) : option (string * string) :=
  if String.eqb (downloadUrl (ui s)) "" then None
  else Some (downloadUrl (ui s), downloadFilename (ui s)).

(** [new Blob([data], { type: 'video/mp4' })] *)
Definition mp4 (data : list Byte.byte) : Blob :=
  {| blob_data := data; blob_type := "video/mp4" |}.

(** What [downloadVideo] would fetch is a stored MP4 blob, under a name made
    by [createVideoBlob]. *)
Definition link_ok (s : State E) : Prop :=
  match downloadVideo s with
  | None => True
  | Some (url, name) =>
      exists data now,
        objectUrls (browser s) !! url = Some (mp4 data)
        /\ name = download_filename now
  end.

Definition store_ok (s : State E) : Prop := urls_ok s /\ link_ok s.

(** [event.data.size > 0] *)
Definition is_nonempty (b : Blob) : bool := blob_size b >? 0.

(** A [stop] task whose handler saw the engine loaded. *)
Definition task_loaded (t : Task) : Prop :=
  match t with
  | TaskStop r => r_ffmpegLoaded r = true
  | TaskDataAvailable _ => True
  end.

(** The engine object exists, and every recorder was made by a render that
    had the engine loaded. *)
Definition engine_ready (s : State E) : Prop :=
  is_Some (ffmpegRef (refs s))
  /\ (forall m, mediaRecorderRef (refs s) = Some m -> r_ffmpegLoaded (mr_closure m) = true)
  /\ Forall task_loaded (tasks (browser s)).

(** Nothing has happened yet: no socket, no recorder, nothing shown. *)
Definition idle (s : State E) : Prop :=
  isConnected (ui s) = false /\ isRecording (ui s) = false
  /\ ffmpegLoaded (ui s) = false /\ frameCount (ui s) = 0
  /\ showDownload (ui s) = false /\ downloadUrl (ui s) = ""
  /\ wsRef (refs s) = None /\ mediaRecorderRef (refs s) = None
  /\ recordedChunksRef (refs s) = []
  /\ intervals (browser s) = ∅ /\ tasks (browser s) = []
  /\ ffmpegLog (browser s) = [] /\ imageLoads (browser s) = [].

End Observations.

(** *** More concrete runs *)

(** One whole session: load, connect, record, stop, deliver, transcode. *)
Definition example_session : list Event :=
  [FFmpegLoaded; ClickConnect; WsOpen; ClickStart; ClickStop; RunTask; RunTask].

(** One chunk gathered by the encoder, then Stop is clicked. *)
Definition example_stopping : State (gmap string (list Byte.byte)) :=
  run (P:=example_platform) example_url [Encoded example_bytes; ClickStop] example_recording.

End RecorderMore.

Module ApiMore.
Import Api.

(** Milliseconds slept in a trace. *)
Definition total_sleep (trace : list Effect) : Z :=
  fold_right (fun e acc => match e with Slept ms => ms + acc | _ => acc end) 0 trace.

(** The statuses the callback was called with, in order. *)
Definition notifications (trace : list Effect) : list StatusResponse :=
  flat_map (fun e => match e with Notified st => [st] | _ => [] end) trace.

(** How many of the callback's statuses were 'pending'. *)
Definition pending_seen (trace : list Effect) : nat :=
  length (List.filter (fun st => String.eqb (status st) "pending") (notifications trace)).

(** How many result requests a trace holds. *)
Definition result_requests (trace : list Effect) : nat :=
  length (List.filter (fun e => match e with GetResult _ => true | _ => false end) trace).

End ApiMore.

(** * Properties *)

Module JsFacts.

Example iso_epoch : Js.toISOString 0 = "1970-01-01T00:00:00.000Z".
Proof. reflexivity. Qed.

Example iso_leap_day : Js.toISOString 1709251199999 = "2024-02-29T23:59:59.999Z".
Proof. vm_compute. reflexivity. Qed.

Example iso_before_epoch : Js.toISOString (-1) = "1969-12-31T23:59:59.999Z".
Proof. vm_compute. reflexivity. Qed.

Example iso_expanded_year :
  Js.toISOString 253402300800000 = "+010000-01-01T00:00:00.000Z".
Proof. vm_compute. reflexivity. Qed.

Example toFixed2_mb_values :
  Js.toFixed2_mb 1572864 = "1.50" /\ Js.toFixed2_mb 5243 = "0.01"
  /\ Js.toFixed2_mb 5242 = "0.00" /\ Js.toFixed2_mb 0 = "0.00".
Proof. vm_compute. auto. Qed.

Example round_double_values :
  Js.round_double (2 ^ 53 + 1) = 2 ^ 53
  /\ Js.round_double (2 ^ 53 + 3) = 2 ^ 53 + 4
  /\ Js.round_double (- (2 ^ 54 + 2)) = - 2 ^ 54.
Proof. vm_compute. auto. Qed.

(** Integers up to [2^53] in magnitude are doubles. *)
Lemma round_double_exact (z : Z) : Z.abs z <= 2 ^ 53 -> Js.round_double z = z.
Proof.
  intros Hz. unfold Js.round_double.
  destruct (Z.ltb_spec (Z.abs z) (2 ^ 53)) as [|Hge]; [reflexivity|].
  assert (z = 2 ^ 53 \/ z = - 2 ^ 53) as [-> | ->] by lia;
    vm_compute; reflexivity.
Qed.

Lemma add_exact (a b : Z) : Z.abs (a + b) <= 2 ^ 53 -> Js.add a b = a + b.
Proof. apply round_double_exact. Qed.

Lemma sub_exact (a b : Z) : Z.abs (a - b) <= 2 ^ 53 -> Js.sub a b = a - b.
Proof. apply round_double_exact. Qed.

(** Below one hundred, [toString] padded to two characters is the two-digit
    field. *)
Lemma padStart2_two_digits (n : Z) :
  0 <= n < 100 ->
  Js.padStart 2 "0" (Js.toString n) = Js.digits_fixed 2 n.
Proof.
  intros Hn.
  assert (Hall : forallb (fun k =>
            String.eqb (Js.padStart 2 "0" (Js.toString (Z.of_nat k)))
                       (Js.digits_fixed 2 (Z.of_nat k))) (seq 0 100) = true)
    by (vm_compute; reflexivity).
  rewrite forallb_forall in Hall.
  specialize (Hall (Z.to_nat n)).
  rewrite Z2Nat.id in Hall by lia.
  apply String.eqb_eq, Hall, in_seq. lia.
Qed.



Lemma minutes_field (e : Z) : e / 60000 = e / 1000 / 60.
Proof. rewrite Z.div_div by lia. reflexivity. Qed.

Lemma seconds_field (e : Z) : (e mod 60000) / 1000 = (e / 1000) mod 60.
Proof.
  change 60000 with (1000 * 60). rewrite Z.rem_mul_r by lia.
  rewrite Z.mul_comm, Z.div_add by lia.
  rewrite Z.mod_div by lia. lia.
Qed.


End JsFacts.

(** Rational arithmetic behind the scaling in [img.onload]. *)
Module DoubleFacts.
Import Double.

(** *** Powers of two *)

Lemma pow2_pos (e : Z) : (0 < pow2 e)%Q.
Proof. apply Qpower_0_lt. reflexivity. Qed.

Lemma pow2_add (a b : Z) : (pow2 (a + b) == pow2 a * pow2 b)%Q.
Proof. apply Qpower_plus. discriminate. Qed.

Lemma pow2_le (a b : Z) : a <= b -> (pow2 a <= pow2 b)%Q.
Proof. intros H. apply Qpower_le_compat_l; [exact H | discriminate]. Qed.

Lemma pow2_lt (a b : Z) : a < b -> (pow2 a < pow2 b)%Q.
Proof. intros H. apply Qpower_lt_compat_l; [exact H | reflexivity]. Qed.

Lemma pow2_lt_inv (a b : Z) : (pow2 a < pow2 b)%Q -> a < b.
Proof. intros H. apply (Qpower_lt_compat_l_inv 2); [exact H | reflexivity]. Qed.

Lemma pow2_Z (a : Z) : 0 <= a -> (pow2 a == inject_Z (2 ^ a))%Q.
Proof. intros H. symmetry. apply (Zpower_Qpower 2 a H). Qed.

Lemma pow2_succ (a : Z) : (pow2 (a + 1) == 2 * pow2 a)%Q.
Proof. rewrite pow2_add. change (pow2 1) with 2%Q. ring. Qed.

(** *** The binary logarithm *)

Lemma Qdiv_lt_cross (p q r t : Q) :
  (0 < q -> 0 < t -> p * t < r * q -> p / q < r / t)%Q.
Proof.
  intros Hq Ht H. apply Qlt_shift_div_l; [exact Ht|].
  assert (Heq : (p / q * t == p * t / q)%Q) by (field; lra).
  rewrite Heq. apply Qlt_shift_div_r; assumption.
Qed.

Lemma ilog2_spec (x : Q) :
  (0 < x)%Q -> (pow2 (ilog2 x) <= x /\ x < pow2 (ilog2 x + 1))%Q.
Proof.
  intros Hx. unfold ilog2.
  destruct x as [n d]. assert (Hn : 0 < n) by (unfold Qlt in Hx; simpl in Hx; lia).
  simpl Qnum. simpl Qden.
  set (a := Z.log2 n). set (b := Z.log2 (Zpos d)).
  assert (Ha : 2 ^ a <= n < 2 ^ (a + 1)).
  { pose proof (Z.log2_spec n Hn). fold a in H. rewrite Z.add_1_r. exact H. }
  assert (Hb : 2 ^ b <= Zpos d < 2 ^ (b + 1)).
  { pose proof (Z.log2_spec (Zpos d) ltac:(lia)). fold b in H. rewrite Z.add_1_r. exact H. }
  assert (Ha0 : 0 <= a) by apply Z.log2_nonneg.
  assert (Hb0 : 0 <= b) by apply Z.log2_nonneg.
  assert (Hup : (n # d < pow2 (a - b + 1))%Q).
  { replace (a - b + 1) with ((a + 1) - b) by lia.
    unfold pow2. rewrite Qpower_minus by discriminate.
    fold (pow2 (a + 1)). fold (pow2 b).
    rewrite (pow2_Z (a + 1)), (pow2_Z b) by lia.
    rewrite (Qmake_Qdiv n d).
    apply Qdiv_lt_cross.
    - change 0%Q with (inject_Z 0). rewrite <- Zlt_Qlt. lia.
    - change 0%Q with (inject_Z 0). rewrite <- Zlt_Qlt. lia.
    - rewrite <- !inject_Z_mult, <- Zlt_Qlt. nia. }
  assert (Hlow : (pow2 (a - b - 1) < n # d)%Q).
  { replace (a - b - 1) with (a - (b + 1)) by lia.
    unfold pow2. rewrite Qpower_minus by discriminate.
    fold (pow2 a). fold (pow2 (b + 1)).
    rewrite (pow2_Z a), (pow2_Z (b + 1)) by lia.
    rewrite (Qmake_Qdiv n d).
    apply Qdiv_lt_cross.
    - change 0%Q with (inject_Z 0). rewrite <- Zlt_Qlt. lia.
    - change 0%Q with (inject_Z 0). rewrite <- Zlt_Qlt. lia.
    - rewrite <- !inject_Z_mult, <- Zlt_Qlt. nia. }
  destruct (Qle_bool (pow2 (a - b)) (n # d)) eqn:Hle.
  - apply Qle_bool_iff in Hle. split; assumption.
  - split.
    + apply Qlt_le_weak. exact Hlow.
    + replace (a - b - 1 + 1) with (a - b) by lia.
      apply Qnot_le_lt. intros H. apply Qle_bool_iff in H. congruence.
Qed.

Lemma ilog2_unique (x : Q) (k : Z) :
  (pow2 k <= x)%Q -> (x < pow2 (k + 1))%Q -> ilog2 x = k.
Proof.
  intros Hlo Hhi.
  assert (Hx : (0 < x)%Q) by (pose proof (pow2_pos k); lra).
  destruct (ilog2_spec x Hx) as [Hlo' Hhi'].
  assert (k < ilog2 x + 1) by (apply pow2_lt_inv; lra).
  assert (ilog2 x < k + 1) by (apply pow2_lt_inv; lra).
  lia.
Qed.

Lemma ilog2_lower (x : Q) (j : Z) : (pow2 j <= x)%Q -> j <= ilog2 x.
Proof.
  intros H. assert (Hx : (0 < x)%Q) by (pose proof (pow2_pos j); lra).
  destruct (ilog2_spec x Hx) as [_ Hhi].
  assert (j < ilog2 x + 1) by (apply pow2_lt_inv; lra). lia.
Qed.

Lemma ilog2_upper (x : Q) (j : Z) : (0 < x)%Q -> (x < pow2 j)%Q -> ilog2 x < j.
Proof.
  intros Hx H. destruct (ilog2_spec x Hx) as [Hlo _].
  apply pow2_lt_inv. lra.
Qed.

Lemma ilog2_mono (x y : Q) : (0 < x)%Q -> (x <= y)%Q -> ilog2 x <= ilog2 y.
Proof.
  intros Hx Hxy. apply ilog2_lower. destruct (ilog2_spec x Hx). lra.
Qed.

(** *** Rounding to the nearest integer, ties to even *)

Lemma round_half_even_floor (x : Q) :
  round_half_even x = Qfloor x \/ round_half_even x = Qfloor x + 1.
Proof. unfold round_half_even. repeat case_match; auto. Qed.

Lemma round_half_even_error (x : Q) :
  (Qabs (inject_Z (round_half_even x) - x) <= 1 # 2)%Q.
Proof.
  pose proof (Qfloor_le x) as Hlo. pose proof (Qlt_floor x) as Hhi.
  rewrite inject_Z_plus in Hhi. change (inject_Z 1) with 1%Q in Hhi.
  unfold round_half_even.
  destruct (x - inject_Z (Qfloor x) ?= 1 # 2)%Q eqn:Hc.
  - apply Qeq_alt in Hc. apply Qabs_Qle_condition.
    destruct (Z.even (Qfloor x)); rewrite ?inject_Z_plus;
      change (inject_Z 1) with 1%Q; split; lra.
  - apply Qlt_alt in Hc. apply Qabs_Qle_condition. split; lra.
  - apply Qgt_alt in Hc. apply Qabs_Qle_condition.
    rewrite inject_Z_plus. change (inject_Z 1) with 1%Q. split; lra.
Qed.

Lemma round_half_even_Z (x : Q) (z : Z) :
  (x == inject_Z z)%Q -> round_half_even x = z.
Proof.
  intros Hx. unfold round_half_even.
  assert (Hf : Qfloor x = z) by (rewrite Hx; apply Qfloor_Z).
  rewrite Hf.
  assert (Hc : (x - inject_Z z ?= 1 # 2)%Q = Lt).
  { apply Qlt_alt. rewrite Hx. unfold Qminus. rewrite Qplus_opp_r. reflexivity. }
  rewrite Hc. reflexivity.
Qed.

Lemma round_half_even_mono (x y : Q) :
  (x <= y)%Q -> round_half_even x <= round_half_even y.
Proof.
  intros Hxy. pose proof (Qfloor_resp_le x y Hxy) as Hf.
  destruct (Z.eq_dec (Qfloor x) (Qfloor y)) as [Heq | Hne].
  - unfold round_half_even. rewrite <- Heq.
    destruct (Qcompare_spec (x - inject_Z (Qfloor x)) (1 # 2)) as [Hcx|Hcx|Hcx];
      destruct (Qcompare_spec (y - inject_Z (Qfloor x)) (1 # 2)) as [Hcy|Hcy|Hcy];
      try (exfalso; lra); destruct (Z.even (Qfloor x)); lia.
  - destruct (round_half_even_floor x) as [-> | ->],
      (round_half_even_floor y) as [-> | ->]; lia.
Qed.

(** *** Rounding a positive rational to a double *)

Lemma scaled_value (x : Q) (e : Z) : (x / pow2 e * pow2 e == x)%Q.
Proof. pose proof (pow2_pos e). field. lra. Qed.

Lemma scaled_pos (x : Q) (e : Z) : (0 < x -> 0 < x / pow2 e)%Q.
Proof.
  intros Hx. pose proof (pow2_pos e) as He.
  apply Qlt_shift_div_l; [exact He | lra].
Qed.

Lemma round_half_even_nonneg (x : Q) : (0 <= x)%Q -> 0 <= round_half_even x.
Proof.
  intros Hx. rewrite <- (round_half_even_Z 0 0) by reflexivity.
  apply round_half_even_mono, Hx.
Qed.

Lemma round_pos_grid (x : Q) :
  (0 < x)%Q ->
  exists m, 0 <= m /\ (round_pos x == inject_Z m * pow2 (exponent x))%Q.
Proof.
  intros Hx. exists (round_half_even (x / pow2 (exponent x))). split; [|reflexivity].
  apply round_half_even_nonneg, Qlt_le_weak, scaled_pos, Hx.
Qed.

Lemma round_pos_error (x : Q) :
  (Qabs (round_pos x - x) <= pow2 (exponent x) * (1 # 2))%Q.
Proof.
  set (e := exponent x). pose proof (pow2_pos e) as He.
  assert (Heq : (round_pos x - x
                 == (inject_Z (round_half_even (x / pow2 e)) - x / pow2 e) * pow2 e)%Q).
  { unfold round_pos. fold e. rewrite <- (scaled_value x e) at 2. ring. }
  rewrite Heq, Qabs_Qmult, (Qabs_pos (pow2 e)) by lra.
  rewrite (Qmult_comm (pow2 e)).
  apply Qmult_le_compat_r; [apply round_half_even_error | lra].
Qed.

Lemma exponent_normal (x : Q) : (pow2 (-1022) <= x)%Q -> exponent x = ilog2 x - 52.
Proof. intros H. apply ilog2_lower in H. unfold exponent. lia. Qed.

Lemma round_pos_rel_error (x : Q) :
  (pow2 (-1022) <= x)%Q -> (Qabs (round_pos x - x) <= x * pow2 (-53))%Q.
Proof.
  intros Hn. assert (Hx : (0 < x)%Q) by (pose proof (pow2_pos (-1022)); lra).
  eapply Qle_trans; [apply round_pos_error|].
  rewrite (exponent_normal x Hn).
  destruct (ilog2_spec x Hx) as [Hlo _].
  replace (ilog2 x - 52) with (ilog2 x + (-53) + 1) by lia.
  rewrite pow2_succ, pow2_add.
  pose proof (pow2_pos (-53)).
  assert (Heq : (2 * (pow2 (ilog2 x) * pow2 (-53)) * (1 # 2)
                 == pow2 (ilog2 x) * pow2 (-53))%Q) by ring.
  rewrite Heq.
  apply Qmult_le_compat_r; lra.
Qed.

Lemma round_pos_exact (x : Q) (n : Z) :
  (x == inject_Z n * pow2 (exponent x))%Q -> (round_pos x == x)%Q.
Proof.
  intros Hn. unfold round_pos.
  assert (Hs : (x / pow2 (exponent x) == inject_Z n)%Q).
  { pose proof (pow2_pos (exponent x)). rewrite Hn at 1. field. lra. }
  rewrite (round_half_even_Z _ n Hs). symmetry. exact Hn.
Qed.

Lemma exponent_mono (x y : Q) : (0 < x)%Q -> (x <= y)%Q -> exponent x <= exponent y.
Proof. intros Hx Hxy. pose proof (ilog2_mono x y Hx Hxy). unfold exponent. lia. Qed.

Lemma round_pos_upper (x : Q) : (0 < x)%Q -> (round_pos x <= pow2 (exponent x + 53))%Q.
Proof.
  intros Hx. set (e := exponent x). pose proof (pow2_pos e) as He.
  destruct (ilog2_spec x Hx) as [_ Hhi].
  assert (Hs : (x / pow2 e <= inject_Z (2 ^ 53))%Q).
  { rewrite <- pow2_Z by lia. apply Qle_shift_div_r; [exact He|].
    rewrite <- pow2_add. apply Qlt_le_weak. eapply Qlt_le_trans; [exact Hhi|].
    apply pow2_le. unfold e, exponent. lia. }
  apply round_half_even_mono in Hs. rewrite (round_half_even_Z (inject_Z (2 ^ 53)) (2 ^ 53) (Qeq_refl _)) in Hs.
  unfold round_pos. fold e. rewrite (Z.add_comm e), pow2_add, (pow2_Z 53) by lia.
  apply Qmult_le_compat_r; [|lra]. rewrite <- Zle_Qle. exact Hs.
Qed.

Lemma round_pos_lower (x : Q) :
  (0 < x)%Q -> exponent x = ilog2 x - 52 -> (pow2 (ilog2 x) <= round_pos x)%Q.
Proof.
  intros Hx He. pose proof (pow2_pos (exponent x)) as Hp.
  destruct (ilog2_spec x Hx) as [Hlo _].
  assert (Hs : (inject_Z (2 ^ 52) <= x / pow2 (exponent x))%Q).
  { rewrite <- pow2_Z by lia. apply Qle_shift_div_l; [exact Hp|].
    rewrite <- pow2_add. eapply Qle_trans; [|exact Hlo].
    apply pow2_le. lia. }
  apply round_half_even_mono in Hs. rewrite (round_half_even_Z (inject_Z (2 ^ 52)) (2 ^ 52) (Qeq_refl _)) in Hs.
  unfold round_pos. replace (ilog2 x) with (52 + exponent x) at 1 by lia.
  rewrite pow2_add, (pow2_Z 52) by lia.
  apply Qmult_le_compat_r; [|lra]. rewrite <- Zle_Qle. exact Hs.
Qed.

Lemma round_pos_mono (x y : Q) :
  (0 < x)%Q -> (x <= y)%Q -> (round_pos x <= round_pos y)%Q.
Proof.
  intros Hx Hxy. assert (Hy : (0 < y)%Q) by lra.
  pose proof (exponent_mono x y Hx Hxy) as He.
  destruct (Z.eq_dec (exponent x) (exponent y)) as [Heq | Hne].
  - unfold round_pos. rewrite Heq. pose proof (pow2_pos (exponent y)) as Hp.
    apply Qmult_le_compat_r; [|lra]. rewrite <- Zle_Qle.
    apply round_half_even_mono. apply Qmult_le_compat_r; [exact Hxy|].
    apply Qlt_le_weak, Qinv_lt_0_compat, Hp.
  - assert (Hey : exponent y = ilog2 y - 52) by (unfold exponent in *; lia).
    eapply Qle_trans; [apply round_pos_upper, Hx|].
    eapply Qle_trans; [|apply round_pos_lower; assumption].
    apply pow2_le. lia.
Qed.

Lemma round_pos_pos (x : Q) : (pow2 (-1022) <= x)%Q -> (0 < round_pos x)%Q.
Proof.
  intros Hn. assert (Hx : (0 < x)%Q) by (pose proof (pow2_pos (-1022)); lra).
  eapply Qlt_le_trans; [apply (pow2_pos (ilog2 x))|].
  apply round_pos_lower; [exact Hx | apply exponent_normal, Hn].
Qed.

(** *** Numbers *)

Lemma to_number_zero (x : Q) : (x == 0)%Q -> to_number x = Finite 0.
Proof. intros Hx. unfold to_number. apply Qeq_alt in Hx. rewrite Hx. reflexivity. Qed.

Lemma to_number_pos (x : Q) :
  (0 < x)%Q -> (round_pos x < pow2 1024)%Q ->
  to_number x = Finite (Qred (round_pos x)).
Proof.
  intros Hx Hr. unfold to_number.
  assert (Hc : (x ?= 0)%Q = Gt) by (apply Qgt_alt; exact Hx). rewrite Hc.
  destruct (Qle_bool (pow2 1024) (round_pos x)) eqn:Hle; [|reflexivity].
  apply Qle_bool_iff in Hle. lra.
Qed.

Lemma pow2_53 : pow2 (-53) = (1 # 9007199254740992)%Q.
Proof. reflexivity. Qed.

(** A rational in the normal range rounds to a positive double within
    [2^-53] of it, relatively. *)
Lemma to_number_normal (x : Q) :
  (pow2 (-1022) <= x)%Q -> (x <= pow2 1023)%Q ->
  exists r, to_number x = Finite r /\ (r == round_pos x)%Q /\ (0 < r)%Q
            /\ (Qabs (r - x) <= x * pow2 (-53))%Q.
Proof.
  intros Hlo Hhi. assert (Hx : (0 < x)%Q) by (pose proof (pow2_pos (-1022)); lra).
  pose proof (round_pos_rel_error x Hlo) as Herr.
  pose proof (round_pos_pos x Hlo) as Hpos.
  exists (Qred (round_pos x)). pose proof (Qred_correct (round_pos x)) as Hq.
  split; [|split; [exact Hq | split; rewrite Hq; assumption]].
  apply to_number_pos; [exact Hx|].
  apply Qabs_Qle_condition in Herr. rewrite pow2_53 in Herr.
  assert (H1024 : (pow2 1024 == 2 * pow2 1023)%Q) by (apply (pow2_succ 1023)).
  rewrite H1024. lra.
Qed.

Lemma Qred_Z (z : Z) : Qred (inject_Z z) = inject_Z z.
Proof.
  unfold Qred, inject_Z.
  pose proof (Z.ggcd_gcd z 1) as Hg. pose proof (Z.ggcd_correct_divisors z 1) as Hd.
  destruct (Z.ggcd z 1) as [g [a b]]. simpl in *.
  rewrite Z.gcd_1_r in Hg. subst g. destruct Hd as [Ha Hb].
  rewrite Z.mul_1_l in Ha, Hb. subst a b. reflexivity.
Qed.

Lemma ilog2_Z (z : Z) : 0 < z -> ilog2 (inject_Z z) = Z.log2 z.
Proof.
  intros Hz. pose proof (Z.log2_spec z Hz) as [Hlo Hhi].
  pose proof (Z.log2_nonneg z).
  apply ilog2_unique.
  - rewrite pow2_Z by lia. rewrite <- Zle_Qle. exact Hlo.
  - rewrite pow2_Z by lia. rewrite <- Zlt_Qlt. rewrite Z.add_1_r. exact Hhi.
Qed.

(** Integers up to [2^53] are doubles. *)
Lemma round_pos_Z (z : Z) :
  0 < z <= 2 ^ 53 -> (round_pos (inject_Z z) == inject_Z z)%Q.
Proof.
  intros Hz. set (k := Z.log2 z).
  assert (Hk : ilog2 (inject_Z z) = k) by (apply ilog2_Z; lia).
  pose proof (Z.log2_spec z ltac:(lia)) as [Hlo Hhi]. fold k in Hlo, Hhi.
  pose proof (Z.log2_nonneg z) as Hk0. fold k in Hk0.
  assert (Hk53 : k <= 53).
  { destruct (Z.le_gt_cases k 53) as [|Hgt]; [assumption|].
    assert (2 ^ 54 <= 2 ^ k) by (apply Z.pow_le_mono_r; lia). lia. }
  assert (He : exponent (inject_Z z) = k - 52) by (unfold exponent; rewrite Hk; lia).
  destruct (Z.eq_dec k 53) as [-> | Hne].
  - assert (z = 2 ^ 53) by lia. subst z.
    apply (round_pos_exact _ (2 ^ 52)). rewrite He. reflexivity.
  - apply (round_pos_exact _ (z * 2 ^ (52 - k))). rewrite He.
    rewrite inject_Z_mult, <- pow2_Z by lia.
    rewrite <- Qmult_assoc, <- pow2_add.
    replace (52 - k + (k - 52)) with 0 by lia. change (pow2 0) with 1%Q. ring.
Qed.

Lemma of_Z_exact (z : Z) : 0 < z <= 2 ^ 53 -> of_Z z = Finite (inject_Z z).
Proof.
  intros Hz. unfold of_Z. pose proof (round_pos_Z z Hz) as Hr.
  rewrite to_number_pos.
  - rewrite (Qred_complete _ _ Hr). rewrite Qred_Z. reflexivity.
  - change 0%Q with (inject_Z 0). rewrite <- Zlt_Qlt. lia.
  - rewrite Hr. rewrite pow2_Z by lia. rewrite <- Zlt_Qlt.
    assert (2 ^ 53 < 2 ^ 1024) by (apply Z.pow_lt_mono_r; lia). lia.
Qed.

(** Rounding is monotone below an integer that is a double. *)
Lemma round_pos_le_Z (x : Q) (z : Z) :
  (0 < x)%Q -> (x <= inject_Z z)%Q -> z <= 2 ^ 53 -> (round_pos x <= inject_Z z)%Q.
Proof.
  intros Hx Hxz Hz.
  assert (Hz0 : 0 < z). { rewrite Zlt_Qlt. change (inject_Z 0) with 0%Q. lra. }
  rewrite <- (round_pos_Z z) by lia. apply round_pos_mono; assumption.
Qed.

Lemma div_finite (x y : Q) :
  ~ (y == 0)%Q -> div (Finite x) (Finite y) = to_number (x / y).
Proof.
  intros Hy. unfold div. destruct (Qeq_bool y 0) eqn:He; [|reflexivity].
  apply Qeq_bool_iff in He. contradiction.
Qed.

Lemma halve (x : Q) : div (Finite x) (of_Z 2) = to_number (x * (1 # 2)).
Proof. reflexivity. Qed.

(** *** Fitting a length into the canvas *)

(** A rational between [2^j], in the normal range, and an integer [c] that
    is a double rounds to a double in that range, close to it and on a grid
    no finer than [2^(j-52)]. *)
Lemma to_number_within (q : Q) (c j : Z) :
  c <= 2 ^ 53 -> -1022 <= j -> (pow2 j <= q)%Q -> (q <= inject_Z c)%Q ->
  exists v, to_number q = Finite v
            /\ (0 < v)%Q /\ (v <= inject_Z c)%Q
            /\ (Qabs (v - q) <= q * pow2 (-53))%Q
            /\ exists m g, (v == inject_Z m * pow2 g)%Q /\ j - 52 <= g.
Proof.
  intros Hc Hj Hlo Hhi.
  assert (Hq : (0 < q)%Q) by (pose proof (pow2_pos j); lra).
  assert (Hn : (pow2 (-1022) <= q)%Q).
  { eapply Qle_trans; [|exact Hlo]. apply pow2_le. lia. }
  assert (Hb : (q <= pow2 1023)%Q).
  { eapply Qle_trans; [exact Hhi|]. rewrite pow2_Z by lia. rewrite <- Zle_Qle.
    assert (2 ^ 53 <= 2 ^ 1023) by (apply Z.pow_le_mono_r; lia). lia. }
  destruct (to_number_normal q Hn Hb) as (v & Hv & Hval & Hpos & Herr).
  exists v. split; [exact Hv|]. split; [exact Hpos|]. split; [|split; [exact Herr|]].
  - rewrite Hval. apply round_pos_le_Z; assumption.
  - destruct (round_pos_grid q Hq) as (m & _ & Hm).
    exists m, (exponent q). split; [rewrite Hval; exact Hm|].
    apply ilog2_lower in Hlo. unfold exponent. lia.
Qed.

(** A positive multiple of [2^g] is at least [2^g]; so is the distance of
    such a multiple from an integer above it, when [g] is not positive. *)
Lemma gap_on_grid (c m g : Z) (v : Q) :
  (v == inject_Z m * pow2 g)%Q -> (v < inject_Z c)%Q ->
  (pow2 (Z.min g 0) <= inject_Z c - v)%Q.
Proof.
  intros Hv Hlt. set (g' := Z.min g 0).
  pose proof (pow2_pos g') as Hp. pose proof (pow2_pos (- g')) as Hp'.
  assert (Hone : (pow2 g' * pow2 (- g') == 1)%Q).
  { rewrite <- pow2_add. replace (g' + - g') with 0 by lia. reflexivity. }
  assert (Hint : ((inject_Z c - v) * pow2 (- g')
                  == inject_Z (c * 2 ^ (- g') - m * 2 ^ (g - g')))%Q).
  { unfold Z.sub. rewrite Hv, inject_Z_plus, inject_Z_opp, !inject_Z_mult.
    rewrite <- !pow2_Z by (unfold g'; lia).
    replace (g - g') with (g + - g') by lia. rewrite pow2_add. ring. }
  assert (Hn : 1 <= c * 2 ^ (- g') - m * 2 ^ (g - g')).
  { assert (H0 : (0 < (inject_Z c - v) * pow2 (- g'))%Q).
    { apply Qmult_lt_0_compat; lra. }
    rewrite Hint in H0. change 0%Q with (inject_Z 0) in H0.
    rewrite <- Zlt_Qlt in H0. lia. }
  rewrite Zle_Qle in Hn. rewrite <- Hint in Hn. change (inject_Z 1) with 1%Q in Hn.
  assert (Hm : (pow2 g' * 1 <= pow2 g' * ((inject_Z c - v) * pow2 (- g')))%Q).
  { apply Qmult_le_l; assumption. }
  assert (Heq : (pow2 g' * ((inject_Z c - v) * pow2 (- g'))
                 == (inject_Z c - v) * (pow2 g' * pow2 (- g')))%Q) by ring.
  rewrite Heq, Hone in Hm. lra.
Qed.

Lemma sub_finite (x y : Q) : sub (Finite x) (Finite y) = to_number (x - y).
Proof. reflexivity. Qed.

(** [(C - v) / 2] as the code computes it: the offset that centres a length
    [v] in [C], up to rounding, and keeps it inside. *)
Lemma centre_offset (c : Z) (v : Q) (m g : Z) :
  0 < c <= 2 ^ 53 -> (0 < v)%Q -> (v <= inject_Z c)%Q ->
  (v == inject_Z m * pow2 g)%Q -> -106 <= g ->
  exists o, div (sub (Finite (inject_Z c)) (Finite v)) (of_Z 2) = Finite o
            /\ (0 <= o)%Q /\ (o + v <= inject_Z c)%Q
            /\ (Qabs (o + v * (1 # 2) - inject_Z c * (1 # 2))
                <= inject_Z c * pow2 (-52))%Q
            /\ ((v == inject_Z c)%Q -> o = 0%Q).
Proof.
  intros Hc Hv Hle Hgrid Hg. rewrite sub_finite.
  assert (HC : (1 <= inject_Z c)%Q).
  { change 1%Q with (inject_Z 1). rewrite <- Zle_Qle. lia. }
  destruct (Qlt_le_dec v (inject_Z c)) as [Hlt | Hge].
  - (* a gap *)
    pose proof (gap_on_grid c m g v Hgrid Hlt) as Hgap.
    assert (Hmin : (pow2 (-106) <= inject_Z c - v)%Q).
    { eapply Qle_trans; [|exact Hgap]. apply pow2_le. lia. }
    destruct (to_number_within (inject_Z c - v) c (-106)) as (d & Hd & Hd0 & _ & Hderr & _);
      [lia | lia | exact Hmin | lra |].
    rewrite Hd, halve.
    apply Qabs_Qle_condition in Hderr. rewrite pow2_53 in Hderr.
    assert (H106 : (pow2 (-106) == 4 * pow2 (-108))%Q).
    { replace (-106) with (-108 + 1 + 1) by lia. rewrite !pow2_succ. ring. }
    pose proof (pow2_pos (-108)) as H108.
    destruct (to_number_within (d * (1 # 2)) c (-108)) as (o & Ho & Ho0 & _ & Hoerr & _);
      [lia | lia | lra | lra |].
    apply Qabs_Qle_condition in Hoerr. rewrite pow2_53 in Hoerr.
    exists o. split; [exact Ho|]. split; [lra|]. split; [lra|]. split.
    + apply Qabs_Qle_condition. change (pow2 (-52)) with (1 # 4503599627370496)%Q.
      split; lra.
    + intros Heq. exfalso. lra.
  - (* no gap *)
    assert (Hz : (inject_Z c - v == 0)%Q) by lra.
    rewrite (to_number_zero _ Hz), halve, to_number_zero by reflexivity.
    exists 0%Q. split; [reflexivity|]. split; [lra|]. split; [lra|]. split; [|reflexivity].
    apply Qabs_Qle_condition. pose proof (pow2_pos (-52)).
    assert (0 <= inject_Z c * pow2 (-52))%Q by (apply Qmult_le_0_compat; lra).
    split; lra.
Qed.

Lemma Qabs_scale (a b e k : Q) :
  (0 < k)%Q -> (Qabs (a - b) <= e)%Q -> (Qabs (a * k - b * k) <= e * k)%Q.
Proof.
  intros Hk H.
  assert (Heq : (a * k - b * k == (a - b) * k)%Q) by ring.
  rewrite Heq, Qabs_Qmult, (Qabs_pos k) by lra.
  apply Qmult_le_compat_r; lra.
Qed.

Lemma Z_bounds (z : Z) :
  0 < z <= 2 ^ 53 -> (1 <= inject_Z z)%Q /\ (inject_Z z <= 9007199254740992)%Q.
Proof.
  intros Hz. split.
  - change 1%Q with (inject_Z 1). rewrite <- Zle_Qle. lia.
  - change 9007199254740992%Q with (inject_Z 9007199254740992). rewrite <- Zle_Qle. lia.
Qed.

Lemma pow2_consts :
  pow2 (-54) = (1 # 18014398509481984)%Q /\ pow2 (-52) = (1 # 4503599627370496)%Q
  /\ pow2 (-51) = (1 # 2251799813685248)%Q.
Proof. repeat split. Qed.

(** The box [drawFrame] computes for an image of [W] by [H] on a square
    canvas of side [c]: one side spans the canvas from 0, nothing sticks out,
    and up to rounding the box is centred and has the image's proportions. *)
Lemma fit_geometry (c W H : Z) :
  0 < c <= 2 ^ 53 -> 0 < W <= 2 ^ 53 -> 0 < H <= 2 ^ 53 ->
  let C := inject_Z c in
  let cw := of_Z c in
  let aspectRatio := div (of_Z W) (of_Z H) in
  let drawWidth := if gt aspectRatio (of_Z 1) then cw else mul cw aspectRatio in
  let drawHeight := if gt aspectRatio (of_Z 1) then div cw aspectRatio else cw in
  exists x y w h : Q,
    div (sub cw drawWidth) (of_Z 2) = Finite x
    /\ div (sub cw drawHeight) (of_Z 2) = Finite y
    /\ drawWidth = Finite w /\ drawHeight = Finite h
    /\ ((w = C /\ x = 0%Q) \/ (h = C /\ y = 0%Q))
    /\ (0 <= x /\ 0 <= y /\ 0 < w /\ 0 < h /\ x + w <= C /\ y + h <= C)%Q
    /\ (Qabs (x + w * (1 # 2) - C * (1 # 2)) <= C * pow2 (-52))%Q
    /\ (Qabs (y + h * (1 # 2) - C * (1 # 2)) <= C * pow2 (-52))%Q
    /\ (Qabs (w * inject_Z H - h * inject_Z W) <= w * inject_Z H * pow2 (-51))%Q.
Proof.
  intros Hc HW HH C cw aspectRatio drawWidth drawHeight.
  subst drawWidth drawHeight aspectRatio cw.
  rewrite (of_Z_exact c Hc), (of_Z_exact W HW), (of_Z_exact H HH),
    (of_Z_exact 1 ltac:(lia)). fold C.
  destruct (Z_bounds c Hc) as [Hc1 Hc2]. fold C in Hc1, Hc2.
  destruct (Z_bounds W HW) as [HW1 HW2]. destruct (Z_bounds H HH) as [HH1 HH2].
  destruct pow2_consts as (E54 & E52 & E51).
  rewrite div_finite by lra.
  set (q0 := (inject_Z W / inject_Z H)%Q).
  assert (Hq0 : (q0 * inject_Z H == inject_Z W)%Q) by (subst q0; field; lra).
  assert (Hq0lo : (pow2 (-53) <= q0)%Q).
  { apply Qle_shift_div_l; [lra|]. rewrite pow2_53. lra. }
  assert (Hq0hi : (q0 <= inject_Z (2 ^ 53))%Q).
  { apply Qle_shift_div_r; [lra|]. change (inject_Z (2 ^ 53)) with 9007199254740992%Q.
    nra. }
  destruct (to_number_within q0 (2 ^ 53) (-53) ltac:(lia) ltac:(lia) Hq0lo Hq0hi)
    as (r & Hr & Hr0 & Hrhi & Hrerr & _).
  change (inject_Z (2 ^ 53)) with 9007199254740992%Q in Hrhi.
  rewrite Hr.
  pose proof (Qabs_scale _ _ _ (inject_Z H) ltac:(lra) Hrerr) as Hu.
  rewrite Hq0 in Hu.
  assert (Heq1 : (q0 * pow2 (-53) * inject_Z H == inject_Z W * pow2 (-53))%Q)
    by (rewrite <- Hq0; ring).
  rewrite Heq1 in Hu. clear Heq1.
  apply Qabs_Qle_condition in Hu. rewrite pow2_53 in Hu, Hrerr, Hq0lo.
  apply Qabs_Qle_condition in Hrerr.
  unfold gt. change (inject_Z 1) with 1%Q.
  destruct (Qle_bool r 1) eqn:Hwide; cbn [negb]; cbv iota.
  - (* the image is no wider than high *)
    apply Qle_bool_iff in Hwide.
    change (mul (Finite C) (Finite r)) with (to_number (C * r)).
    assert (Hq2lo : (pow2 (-54) <= C * r)%Q) by (rewrite E54; nra).
    assert (Hq2hi : (C * r <= C)%Q) by nra.
    destruct (to_number_within (C * r) c (-54) ltac:(lia) ltac:(lia) Hq2lo Hq2hi)
      as (w & Hw & Hw0 & Hwhi & Hwerr & m & g & Hgrid & Hg).
    rewrite Hw.
    destruct (centre_offset c w m g Hc Hw0 Hwhi Hgrid ltac:(lia))
      as (x & Hx & Hx0 & Hxin & Hxc & _). fold C in Hx, Hxin, Hxc.
    exists x, 0%Q, w, C.
    rewrite Hx, sub_finite, (to_number_zero (C - C)) by ring.
    rewrite halve, to_number_zero by reflexivity.
    split; [reflexivity|]. split; [reflexivity|]. split; [reflexivity|].
    split; [reflexivity|]. split; [right; split; reflexivity|].
    split; [repeat split; lra|]. split; [exact Hxc|]. split.
    { apply Qabs_Qle_condition. rewrite E52. split; lra. }
    pose proof (Qabs_scale _ _ _ (inject_Z H) ltac:(lra) Hwerr) as Hz.
    apply Qabs_Qle_condition in Hz. rewrite pow2_53 in Hz.
    apply Qabs_Qle_condition. rewrite E51.
    assert (HP : (0 < C * inject_Z W)%Q) by nra.
    assert (HuC : (- (C * inject_Z W * (1 # 9007199254740992))
                   <= C * r * inject_Z H - C * inject_Z W
                   <= C * inject_Z W * (1 # 9007199254740992))%Q) by (split; nra).
    split; lra.
  - (* the image is wider than high *)
    assert (Hr1 : (1 < r)%Q).
    { apply Qnot_le_lt. intros Hle. apply Qle_bool_iff in Hle. congruence. }
    rewrite div_finite by lra.
    set (q1 := (C / r)%Q).
    assert (Hq1 : (q1 * r == C)%Q) by (subst q1; field; lra).
    assert (Hq1lo : (pow2 (-54) <= q1)%Q).
    { apply Qle_shift_div_l; [lra|]. rewrite E54. lra. }
    assert (Hq1hi : (q1 <= C)%Q).
    { apply Qle_shift_div_r; [lra|]. nra. }
    destruct (to_number_within q1 c (-54) ltac:(lia) ltac:(lia) Hq1lo Hq1hi)
      as (h & Hh & Hh0 & Hhhi & Hherr & m & g & Hgrid & Hg).
    rewrite Hh.
    destruct (centre_offset c h m g Hc Hh0 Hhhi Hgrid ltac:(lia))
      as (y & Hy & Hy0 & Hyin & Hyc & _). fold C in Hy, Hyin, Hyc.
    exists 0%Q, y, C, h.
    rewrite Hy, sub_finite, (to_number_zero (C - C)) by ring.
    rewrite halve, to_number_zero by reflexivity.
    split; [reflexivity|]. split; [reflexivity|]. split; [reflexivity|].
    split; [reflexivity|]. split; [left; split; reflexivity|].
    split; [repeat split; lra|]. split.
    { apply Qabs_Qle_condition. rewrite E52. split; lra. }
    split; [exact Hyc|].
    pose proof (Qabs_scale _ _ _ r ltac:(lra) Hherr) as Ha.
    rewrite Hq1 in Ha.
    assert (Heq2 : (q1 * pow2 (-53) * r == C * pow2 (-53))%Q) by (rewrite <- Hq1; ring).
    rewrite Heq2 in Ha. clear Heq2.
    apply Qabs_Qle_condition in Ha. rewrite pow2_53 in Ha.
    apply Qabs_Qle_condition. rewrite E51.
    assert (HZ : (0 < C * inject_Z H)%Q) by nra.
    assert (HX : (0 < h * inject_Z W)%Q) by nra.
    assert (HY1 : (- (C * inject_Z H * (1 # 9007199254740992))
                   <= h * r * inject_Z H - C * inject_Z H
                   <= C * inject_Z H * (1 # 9007199254740992))%Q) by (split; nra).
    assert (HY2 : (- (h * inject_Z W * (1 # 9007199254740992))
                   <= h * r * inject_Z H - h * inject_Z W
                   <= h * inject_Z W * (1 # 9007199254740992))%Q) by (split; nra).
    split; lra.
Qed.

End DoubleFacts.

Module RecorderFacts.
Import Recorder.

Section Facts.

Context {E : Type} {P : Platform E}.
Variable wsUrl : string.

(** Unfold one run of [createVideoBlob] into its cases. *)
Ltac job_cases :=
  unfold createVideoBlob, createVideoBlob_try, bind, gets, ret, throw, modify,
    fetchFile, ffmpeg_writeFile, ffmpeg_exec, ffmpeg_readFile, on_ffmpeg,
    createObjectURL, console_error;
  simpl;
  repeat match goal with
    | |- context [core_writeFile ?a ?b ?c] =>
        destruct (core_writeFile a b c) as [[[]|?] ?] eqn:?; simpl in *
    | |- context [core_exec ?a ?c] =>
        destruct (core_exec a c) as [[?|?] ?] eqn:?; simpl in *
    | |- context [core_readFile ?a ?c] =>
        destruct (core_readFile a c) as [[?|?] ?] eqn:?; simpl in *
    end.

(** Case analysis on the core calls a hypothesis still mentions. *)
Ltac core_cases H :=
  repeat match type of H with
    | context [core_writeFile ?a ?b ?c] =>
        destruct (core_writeFile a b c) as [[[]|?] ?]; simpl in H
    | context [core_exec ?a ?c] =>
        destruct (core_exec a c) as [[?|?] ?]; simpl in H
    | context [core_readFile ?a ?c] =>
        destruct (core_readFile a c) as [[?|?] ?]; simpl in H
    end.

(** Open a state into its fields and follow every branch. *)
Ltac frame s :=
  destruct s as [[] [] []]; simpl in *;
  repeat (case_match; simpl in *; try congruence);
  try reflexivity.

(** Split a state, a render and the core reference into their parts. *)
Ltac open_job s r :=
  destruct s as [[] [? ? ? ? ? ? [?|]] []], r as [? ? []]; simpl in *.

(** *** Frames *)

Lemma img_set_src_ui (fmts : list string) (i : nat) (src : string)
    (c : Canvas) (s : State E) :
  ui (img_set_src fmts i src c s) = ui s.
Proof.
  funelim (img_set_src fmts i src c s); done.
Qed.

Lemma img_set_src_wsRef (fmts : list string) (i : nat) (src : string)
    (c : Canvas) (s : State E) :
  wsRef (refs (img_set_src fmts i src c s)) = wsRef (refs s).
Proof.
  funelim (img_set_src fmts i src c s); try done.
  destruct s as [? [] ?]; reflexivity.
Qed.

Lemma drawFrame_ui (data : string) (s : State E) :
  ui (drawFrame data s) = ui s.
Proof.
  unfold drawFrame. repeat case_match; try done. apply img_set_src_ui.
Qed.

(** C9.  Every message delivered by the socket adds exactly one to the
    frame counter, whatever the decoder makes of the payload (the platform,
    and with it the decoder, is arbitrary here) and whether or not a canvas
    is mounted.  The counter is a double: the statement is for counts below
    [2^53]. *)
Theorem handleFrame_counts_every_message (data : string) (s : State E) :
  0 <= frameCount (ui s) < 2 ^ 53 ->
  frameCount (ui (handleFrame data s)) = frameCount (ui s) + 1
  /\ (ws_is OPEN s = true ->
      frameCount (ui (step wsUrl (WsMessage data) s)) = frameCount (ui s) + 1).
Proof.
  intros Hfc.
  assert (Hh : frameCount (ui (handleFrame data s)) = frameCount (ui s) + 1).
  { unfold handleFrame. rewrite drawFrame_ui. destruct s as [[] ? ?]; simpl in *.
    apply JsFacts.add_exact. lia. }
  split; [exact Hh|]. intros Hopen. simpl. rewrite Hopen. exact Hh.
Qed.

(** *** Stopping *)

Lemma stopRecording_idle (r : Render) (s : State E) :
  r_isRecording r = false -> stopRecording r s = s.
Proof. intros Hr. unfold stopRecording. rewrite Hr. reflexivity. Qed.

Lemma stopRecording_isRecording (r : Render) (s : State E) :
  r_isRecording r = true -> isRecording (ui (stopRecording r s)) = false.
Proof.
  intros Hr. unfold stopRecording. rewrite Hr. simpl.
  destruct s as [[] [] []]; simpl. repeat case_match; reflexivity.
Qed.

(** *** What a transcode job leaves alone *)

Lemma createVideoBlob_showDownload (r : Render) (s : State E) :
  showDownload (ui (createVideoBlob r s)) = true.
Proof.
  open_job s r; job_cases; reflexivity.
Qed.

Lemma createVideoBlob_chunks (r : Render) (s : State E) :
  recordedChunksRef (refs (createVideoBlob r s)) = recordedChunksRef (refs s).
Proof.
  open_job s r; job_cases; reflexivity.
Qed.

Lemma createVideoBlob_tasks (r : Render) (s : State E) :
  tasks (browser (createVideoBlob r s)) = tasks (browser s).
Proof.
  open_job s r; job_cases; reflexivity.
Qed.

Lemma ondataavailable_tasks (data : Blob) (s : State E) :
  tasks (browser (ondataavailable data s)) = tasks (browser s).
Proof. unfold ondataavailable. case_match; reflexivity. Qed.

Lemma ondataavailable_chunks (data : Blob) (s : State E) :
  recordedChunksRef (refs (ondataavailable data s))
  = recordedChunksRef (refs s) ++ (if blob_size data >? 0 then [data] else []).
Proof.
  unfold ondataavailable. destruct (blob_size data >? 0); simpl.
  - destruct s as [? [] ?]; reflexivity.
  - symmetry. apply app_nil_r.
Qed.

(** [stopRecording] reads [isRecording] as the render that made the handler
    saw it.  Seen from a render that is not recording it returns the state as
    it is.  Seen from a recording render it leaves a state in which stopping
    again changes nothing; and if the recorder is recording, the recorder
    becomes inactive and has queued two tasks: the last data, then [stop].
    Running them appends the last chunk (when it is not empty) and then
    enters [createVideoBlob] with the chunks complete. *)
Lemma stopRecording_by_render (r : Render) (s : State E) :
  (r_isRecording r = false -> stopRecording r s = s)
  /\ (r_isRecording r = true ->
      let s1 := stopRecording r s in
      isRecording (ui s1) = false
      /\ stopRecording (render_of s1) s1 = s1
      /\ forall m, mediaRecorderRef (refs s) = Some m -> mr_state m = recording ->
         let last := {| blob_data := mr_gathered m; blob_type := mr_mimeType m |} in
         (exists m', mediaRecorderRef (refs s1) = Some m' /\ mr_state m' = inactive)
         /\ tasks (browser s1)
            = tasks (browser s) ++ [TaskDataAvailable last; TaskStop (mr_closure m)]
         /\ (tasks (browser s) = [] ->
             let s2 := step wsUrl RunTask s1 in
             let s3 := step wsUrl RunTask s2 in
             recordedChunksRef (refs s2)
             = recordedChunksRef (refs s) ++ (if blob_size last >? 0 then [last] else [])
             /\ tasks (browser s2) = [TaskStop (mr_closure m)]
             /\ s3 = createVideoBlob (mr_closure m) (with_browser (set_tasks []) s2)
             /\ showDownload (ui s3) = true
             /\ recordedChunksRef (refs s3) = recordedChunksRef (refs s2))).
Proof.
  split; [apply stopRecording_idle|].
  intros Hr s1.
  assert (Hoff : isRecording (ui s1) = false) by (apply stopRecording_isRecording, Hr).
  split; [exact Hoff|]. split.
  { apply stopRecording_idle. unfold render_of. simpl. exact Hoff. }
  intros m Hm Hrec last.
  assert (Htasks : tasks (browser s1)
            = tasks (browser s) ++ [TaskDataAvailable last; TaskStop (mr_closure m)]).
  { subst s1. unfold stopRecording. rewrite Hr. simpl. rewrite Hm, Hrec. simpl.
    destruct s as [[] [] []]; simpl in *. case_match; reflexivity. }
  split.
  { subst s1. unfold stopRecording. rewrite Hr. simpl. rewrite Hm, Hrec. simpl.
    destruct s as [[] [] []]; simpl in *. case_match; eexists; split; reflexivity. }
  split; [exact Htasks|].
  intros Hempty s2 s3. rewrite Hempty in Htasks. simpl in Htasks.
  assert (Hchunks1 : recordedChunksRef (refs s1) = recordedChunksRef (refs s)).
  { subst s1. unfold stopRecording. rewrite Hr. simpl. rewrite Hm, Hrec. simpl.
    destruct s as [[] [] []]; simpl in *. case_match; reflexivity. }
  assert (Hs2 : s2 = ondataavailable last
                       (with_browser (set_tasks [TaskStop (mr_closure m)]) s1)).
  { subst s2. simpl. rewrite Htasks. reflexivity. }
  assert (Ht2 : tasks (browser s2) = [TaskStop (mr_closure m)]).
  { rewrite Hs2, ondataavailable_tasks. destruct s1 as [? ? []]. reflexivity. }
  assert (Hs3 : s3 = createVideoBlob (mr_closure m) (with_browser (set_tasks []) s2)).
  { subst s3. simpl. rewrite Ht2. reflexivity. }
  split.
  { rewrite Hs2, ondataavailable_chunks. simpl. rewrite Hchunks1. reflexivity. }
  split; [exact Ht2|]. split; [exact Hs3|]. split.
  - rewrite Hs3. apply createVideoBlob_showDownload.
  - rewrite Hs3, createVideoBlob_chunks. reflexivity.
Qed.

(** *** One transcode job, case by case *)

Lemma drop_log (l k : list FFmpegCall) : drop (length l) (l ++ k) = k.
Proof. apply drop_app_length. Qed.

Lemma job_by_outcome (r : Render) (s : State E) :
  let s' := createVideoBlob r s in
  match job_outcome r s with
  | JobNotLoaded => job_calls r s = [] /\ job_failed s s'
  | JobWriteRejected _ => job_calls r s = take 1 (full_job s) /\ job_failed s s'
  | JobExecRejected _ => job_calls r s = take 2 (full_job s) /\ job_failed s s'
  | JobReadRejected _ => job_calls r s = full_job s /\ job_failed s s'
  | JobReady data => job_calls r s = full_job s /\ job_ready data s s'
  end.
Proof.
  unfold job_outcome, job_calls, job_failed, job_ready, download_link, full_job.
  open_job s r; job_cases;
    rewrite <- ?app_assoc, ?drop_log, ?drop_all, ?app_nil_r, ?lookup_insert_eq;
    unfold new_Blob; simpl; rewrite ?app_nil_r; auto 10.
Qed.

Lemma job_calls_prefix (r : Render) (s : State E) :
  job_calls r s `prefix_of` full_job s.
Proof.
  pose proof (job_by_outcome r s) as H. simpl in H.
  destruct (job_outcome r s); destruct H as [-> _];
    unfold full_job; simpl; eexists; simpl; reflexivity.
Qed.

Lemma job_failed_unless_ready (r : Render) (s : State E) :
  (forall data, job_outcome r s <> JobReady data) ->
  job_failed s (createVideoBlob r s).
Proof.
  intros Hno. pose proof (job_by_outcome r s) as H. simpl in H.
  destruct (job_outcome r s); try (destruct H as [_ H]; exact H).
  destruct (Hno data eq_refl).
Qed.

(** C1, as the code has it.  A job touches the core through a prefix of
    the same three calls, so the only virtual files it names are
    [input.webm] and [output.mp4], the same for every job; a job that reaches
    the core writes [input.webm], and one that runs to the end names exactly
    that pair. *)
Theorem jobs_share_fixed_filenames (r : Render) (s : State E) :
  job_calls r s `prefix_of` full_job s
  /\ (forall path, In path (job_files r s) ->
        path = "input.webm" \/ path = "output.mp4")
  /\ (is_Some (ffmpegRef (refs s)) -> r_ffmpegLoaded r = true ->
        In "input.webm" (job_files r s))
  /\ (forall data, job_outcome r s = JobReady data ->
        job_files r s = ["input.webm"; "output.mp4"]).
Proof.
  pose proof (job_by_outcome r s) as H. simpl in H.
  split; [apply job_calls_prefix|]. unfold job_files.
  split; [|split].
  - intros path. destruct (job_outcome r s); destruct H as [-> _]; simpl;
      intuition congruence.
  - intros [c0 Hc0] Hl. unfold job_outcome in H. rewrite Hc0, Hl in H. simpl in H.
    core_cases H; destruct H as [-> _]; simpl; auto.
  - intros data Hd. rewrite Hd in H. destruct H as [-> _]. reflexivity.
Qed.

(** C3.  The command line is the fixed one: H.264 video with preset
    [fast] and CRF 23, AAC audio at 128k, from [input.webm] to [output.mp4].
    A job never runs any other command, and never more than one; it runs
    that command once the input has been written; and when the three core
    calls resolve, the bytes read from [output.mp4] are the blob behind the
    download link, typed [video/mp4]. *)
Theorem transcode_runs_fixed_pipeline (r : Render) (s : State E) :
  (arg_value "-i" exec_args = Some "input.webm"
   /\ arg_value "-c:v" exec_args = Some "libx264"
   /\ arg_value "-preset" exec_args = Some "fast"
   /\ arg_value "-crf" exec_args = Some "23"
   /\ arg_value "-c:a" exec_args = Some "aac"
   /\ arg_value "-b:a" exec_args = Some "128k"
   /\ last exec_args = Some "output.mp4")
  /\ (forall args, In (CallExec args) (job_calls r s) -> args = exec_args)
  /\ (length (List.filter is_exec (job_calls r s)) <= 1)%nat
  /\ (forall c0 c1,
        ffmpegRef (refs s) = Some c0 -> r_ffmpegLoaded r = true ->
        core_writeFile "input.webm"
          (concat (map blob_data (recordedChunksRef (refs s)))) c0 = (Returned tt, c1) ->
        List.filter is_exec (job_calls r s) = [CallExec exec_args]
        /\ forall code c2 data c3,
             core_exec exec_args c1 = (Returned code, c2) ->
             core_readFile "output.mp4" c2 = (Returned data, c3) ->
             job_calls r s = full_job s
             /\ objectUrls (browser (createVideoBlob r s))
                  !! downloadUrl (ui (createVideoBlob r s))
                = Some {| blob_data := data; blob_type := "video/mp4" |}).
Proof.
  pose proof (job_by_outcome r s) as H. simpl in H.
  split; [repeat split|]. split; [|split].
  - intros args. destruct (job_outcome r s); destruct H as [-> _]; simpl;
      intuition congruence.
  - destruct (job_outcome r s); destruct H as [-> _]; simpl; lia.
  - intros c0 c1 Hc0 Hl Hw. unfold job_outcome in H. rewrite Hc0, Hl, Hw in H.
    simpl in H. split.
    + clear Hw. core_cases H; destruct H as [-> _]; reflexivity.
    + intros code c2 data c3 Hx Hr. rewrite Hx, Hr in H.
      destruct H as [-> (_ & _ & _ & _ & Hlink & _)]. split; [reflexivity|].
      unfold download_link in Hlink. congruence.
Qed.

(** C7.  A job started without a loaded engine makes no call on the core and
    ends in the error state; so does a job whose command rejects; and so does
    every job that does not reach the end.  The error state: the error
    message is shown, the link is what it was, one error line is logged, no
    task is queued, and no core call has been made twice. *)
Theorem transcode_failure_is_terminal (r : Render) (s : State E) :
  let s' := createVideoBlob r s in
  ((ffmpegRef (refs s) = None \/ r_ffmpegLoaded r = false) ->
     job_calls r s = [] /\ job_failed s s')
  /\ (forall c0 c1 c2 e,
        ffmpegRef (refs s) = Some c0 -> r_ffmpegLoaded r = true ->
        core_writeFile "input.webm"
          (concat (map blob_data (recordedChunksRef (refs s)))) c0 = (Returned tt, c1) ->
        core_exec exec_args c1 = (Thrown e, c2) ->
        job_calls r s = take 2 (full_job s) /\ job_failed s s')
  /\ ((forall data, job_outcome r s <> JobReady data) ->
        job_failed s s' /\ job_calls r s `prefix_of` full_job s
        /\ (length (List.filter is_exec (job_calls r s)) <= 1)%nat).
Proof.
  intros s'. pose proof (job_by_outcome r s) as H. fold s' in H.
  split; [|split].
  - intros Hnot. unfold job_outcome in H.
    destruct Hnot as [Hnone | Hoff].
    + rewrite Hnone in H. exact H.
    + rewrite Hoff in H. destruct (ffmpegRef (refs s)); exact H.
  - intros c0 c1 c2 e Hc0 Hl Hw Hx. unfold job_outcome in H.
    rewrite Hc0, Hl, Hw, Hx in H. exact H.
  - intros Hno. split; [apply job_failed_unless_ready, Hno|].
    split; [apply job_calls_prefix|].
    destruct (job_outcome r s); destruct H as [-> _]; simpl; lia.
Qed.

(** *** The download link *)


Lemma stopRecording_link (r : Render) (s : State E) :
  download_link (stopRecording r s) = download_link s.
Proof.
  unfold stopRecording, download_link. destruct s as [[] [] []]. simpl.
  repeat case_match; reflexivity.
Qed.




(** *** The recording-time display *)

Lemma time_events_keep_display (evs : list Event) (s : State E) :
  intervals (browser s) = ∅ ->
  Forall (fun ev => is_time_event ev = true) evs ->
  recordingTime (ui (run wsUrl evs s)) = recordingTime (ui s).
Proof.
  revert s. induction evs as [|ev evs IH]; intros s Hempty Hall; [reflexivity|].
  change (run wsUrl (ev :: evs) s) with (run wsUrl evs (step wsUrl ev s)).
  inversion Hall as [|? ? Hev Hrest]; subst.
  destruct ev; try discriminate; simpl.
  - rewrite Hempty. rewrite bool_decide_eq_false_2 by apply not_elem_of_empty.
    apply IH; assumption.
  - rewrite IH; [destruct s as [[] ? []]; reflexivity| |assumption].
    destruct s as [? ? []]; simpl in *. assumption.
Qed.

Lemma only_timer_cleared (X : gset positive) (id : positive) :
  X ⊆ {[ id ]} -> X ∖ {[ id ]} = ∅.
Proof.
  intros HX. apply set_eq. intros x.
  rewrite elem_of_difference, elem_of_singleton. split.
  - intros [Hx Hne]. apply HX, elem_of_singleton in Hx. contradiction.
  - intros Hx. apply not_elem_of_empty in Hx. destruct Hx.
Qed.


(** *** Timers *)

Lemma img_set_src_timers (fmts : list string) (i : nat) (src : string)
    (c : Canvas) (s : State E) :
  timers_ok s -> timers_ok (img_set_src fmts i src c s).
Proof.
  funelim (img_set_src fmts i src c s); intros Hok.
  - destruct s as [[] [] []]. exact Hok.
  - apply H. destruct s as [[] [] []]. exact Hok.
  - destruct s as [[] [] []]. exact Hok.
Qed.

Lemma createVideoBlob_timers (r : Render) (s : State E) :
  timers_ok s -> timers_ok (createVideoBlob r s).
Proof.
  unfold timers_ok. open_job s r; job_cases; auto.
Qed.

Lemma first_timer (id : positive) : {[ id ]} ∪ (∅ : gset positive) ⊆ {[ id ]}.
Proof. intros x Hx. apply elem_of_union in Hx as [Hx | Hx]; [exact Hx|].
  apply not_elem_of_empty in Hx. destruct Hx. Qed.

Lemma timers_ok_same (s s' : State E) :
  recordingIntervalRef (refs s') = recordingIntervalRef (refs s) ->
  intervals (browser s') = intervals (browser s) ->
  isRecording (ui s') = isRecording (ui s) ->
  timers_ok s -> timers_ok s'.
Proof. unfold timers_ok. intros -> -> ->. auto. Qed.

Lemma stopRecording_timers (r : Render) (s : State E) :
  timers_ok s -> timers_ok (stopRecording r s).
Proof.
  unfold timers_ok, stopRecording, clearInterval. intros [Hset Hidle].
  destruct (r_isRecording r); simpl; [|auto].
  destruct s as [[] [] []]; simpl in *.
  destruct recordingIntervalRef0 as [id|];
    repeat (case_match; simpl in *; try congruence);
    (split; [|reflexivity]);
    first [ assumption
          | match goal with H : Some _ = Some _ |- _ => injection H as <- end;
            apply only_timer_cleared; assumption ].
Qed.

(** Stopping from a recording render leaves no timer, and the display as
    it was. *)
Lemma stopRecording_clears_interval (r : Render) (s : State E) :
  r_isRecording r = true -> timers_ok s ->
  intervals (browser (stopRecording r s)) = ∅
  /\ recordingIntervalRef (refs (stopRecording r s)) = None
  /\ recordingTime (ui (stopRecording r s)) = recordingTime (ui s).
Proof.
  unfold timers_ok, stopRecording, clearInterval. intros Hr [Hset _]. rewrite Hr.
  destruct s as [[] [] []]; simpl in *.
  destruct recordingIntervalRef0 as [id|];
    repeat (case_match; simpl in *; try congruence);
    repeat split;
    first [ assumption
          | match goal with H : Some _ = Some _ |- _ => injection H as <- end;
            apply only_timer_cleared; assumption ].
Qed.

Lemma startRecording_timers (r : Render) (s : State E) :
  isRecording (ui s) = false -> timers_ok s -> timers_ok (startRecording r s).
Proof.
  unfold timers_ok, startRecording, new_MediaRecorder, setInterval.
  intros Hidle [Hset Hnone]. specialize (Hnone Hidle).
  destruct s as [[] [] []]; simpl in *. subst.
  repeat (case_match; simpl in *; try congruence);
    first [ split; [assumption | reflexivity]
          | match goal with H : Some _ = Some _ |- _ => injection H as <- end;
            split; [rewrite Hset; apply first_timer | discriminate] ].
Qed.

(** Every event keeps the timers in order. *)
Lemma step_timers (ev : Event) (s : State E) :
  timers_ok s -> timers_ok (step wsUrl ev s).
Proof.
  intros Hok.
  destruct ev; simpl;
    try (apply (timers_ok_same s); [..|exact Hok];
         unfold ws_onopen, ws_onerror, ws_set_readyState, ws_is,
           updateRecordingTime, recorder_gather, recorder_timeslice;
         clear; frame s; fail).
  - (* ClickConnect *)
    destruct (negb (ffmpegLoaded (ui s))); [exact Hok|].
    unfold connect, disconnect. destruct (r_isConnected (render_of s)).
    + apply stopRecording_timers. revert Hok. apply timers_ok_same;
        unfold ws_set_readyState; clear; frame s.
    + revert Hok. apply timers_ok_same; clear; frame s.
  - (* ClickStart *)
    destruct (isConnected (ui s)), (isRecording (ui s)) eqn:Hrec,
      (ffmpegLoaded (ui s)); simpl; try exact Hok.
    apply startRecording_timers; assumption.
  - (* ClickStop *)
    destruct (negb (isRecording (ui s))); [exact Hok|].
    apply stopRecording_timers, Hok.
  - (* WsClose *)
    destruct (ws_is CLOSED s); [exact Hok|].
    destruct (wsRef (refs s)) eqn:Hws; [|exact Hok].
    unfold ws_onclose. apply stopRecording_timers. revert Hok.
    apply timers_ok_same; unfold ws_set_readyState; clear; frame s.
  - (* WsMessage *)
    destruct (ws_is OPEN s); [|exact Hok]. unfold handleFrame, drawFrame.
    assert (H1 : timers_ok (with_ui (setFrameCount (fun prev => Js.add prev 1)) s))
      by (destruct s as [[] [] []]; exact Hok).
    simpl. repeat case_match; try exact H1. apply img_set_src_timers, H1.
  - (* RunTask *)
    destruct (tasks (browser s)) as [|[data|r] rest]; [exact Hok| |]; simpl.
    + unfold ondataavailable. destruct s as [[] [] []]; simpl in *.
      case_match; exact Hok.
    + apply createVideoBlob_timers. destruct s as [[] [] []]. exact Hok.
Qed.

(** In every state reached from mount the timers are in order. *)
Lemma run_timers (evs : list Event) (core : E) (now : Z) :
  timers_ok (run wsUrl evs (initial core now)).
Proof.
  assert (Hgen : forall s, timers_ok s -> timers_ok (run wsUrl evs s)).
  { induction evs as [|ev evs IH]; intros s Hs; [exact Hs|].
    change (run wsUrl (ev :: evs) s) with (run wsUrl evs (step wsUrl ev s)).
    apply IH, step_timers, Hs. }
  apply Hgen. split; [reflexivity | intros _; reflexivity].
Qed.

(** Only a firing of an active timer changes the recording-time display. *)
Lemma step_recordingTime (ev : Event) (s : State E) :
  (forall id, ev = IntervalFired id -> id ∉ intervals (browser s)) ->
  recordingTime (ui (step wsUrl ev s)) = recordingTime (ui s).
Proof.
  intros Hev.
  destruct ev; simpl;
    try (unfold connect, disconnect, ws_onopen, ws_onerror, ws_onclose,
           startRecording, stopRecording, new_MediaRecorder, setInterval,
           clearInterval, ws_set_readyState, ws_captured, ws_is,
           recorder_gather, recorder_timeslice;
         clear Hev; frame s; fail).
  - (* WsMessage *)
    case_match; [|reflexivity]. unfold handleFrame. rewrite drawFrame_ui.
    destruct s as [[] [] []]. reflexivity.
  - (* IntervalFired *)
    rewrite bool_decide_eq_false_2 by (apply Hev; reflexivity). reflexivity.
  - (* RunTask *)
    destruct (tasks (browser s)) as [|[data|r] rest]; [reflexivity| |]; simpl.
    + unfold ondataavailable. destruct s as [[] [] []]; simpl. case_match; reflexivity.
    + open_job s r; job_cases; reflexivity.
Qed.

Lemma no_timer_cleared (id : positive) : (∅ : gset positive) ∖ {[ id ]} = ∅.
Proof.
  apply set_eq. intros x. rewrite elem_of_difference. split; [intros [Hx _]; exact Hx|].
  intros Hx. apply not_elem_of_empty in Hx. destruct Hx.
Qed.

(** Only [startRecording] sets a timer. *)
Lemma step_no_timer (ev : Event) (s : State E) :
  ev <> ClickStart -> intervals (browser s) = ∅ ->
  intervals (browser (step wsUrl ev s)) = ∅.
Proof.
  intros Hev Hnone.
  destruct ev; try congruence; simpl;
    try (unfold connect, disconnect, ws_onopen, ws_onerror, ws_onclose,
           stopRecording, clearInterval,
           ws_set_readyState, ws_captured, ws_is,
           updateRecordingTime, recorder_gather, recorder_timeslice;
         clear Hev; destruct s as [[] [] []]; simpl in *; subst;
         repeat (case_match; simpl in *; try congruence);
         first [reflexivity | apply no_timer_cleared]; fail).
  - (* WsMessage *)
    case_match; [|exact Hnone]. unfold handleFrame, drawFrame.
    repeat case_match; try (destruct s as [[] [] []]; exact Hnone).
    assert (Hinv : forall fmts i src c (s0 : State E),
              intervals (browser (img_set_src fmts i src c s0)) = intervals (browser s0)).
    { clear. intros fmts i src c s0. funelim (img_set_src fmts i src c s0);
        try (match goal with IH : intervals _ = _ |- _ => rewrite IH end);
        destruct s as [[] [] []]; reflexivity. }
    rewrite Hinv. destruct s as [[] [] []]. exact Hnone.
  - (* RunTask *)
    destruct (tasks (browser s)) as [|[data|r] rest]; [exact Hnone| |]; simpl.
    + unfold ondataavailable. destruct s as [[] [] []]; simpl in *.
      case_match; exact Hnone.
    + revert Hnone. open_job s r; job_cases; auto.
Qed.

(** With no timer active the display stays until a recording is started. *)
Lemma run_frozen (evs : list Event) (s : State E) :
  Forall (fun ev => ev <> ClickStart) evs -> intervals (browser s) = ∅ ->
  recordingTime (ui (run wsUrl evs s)) = recordingTime (ui s).
Proof.
  revert s. induction evs as [|ev evs IH]; intros s Hall Hnone; [reflexivity|].
  change (run wsUrl (ev :: evs) s) with (run wsUrl evs (step wsUrl ev s)).
  inversion Hall as [|? ? Hev Hrest]; subst.
  rewrite IH; [| exact Hrest | apply step_no_timer; assumption].
  apply step_recordingTime. intros id _. rewrite Hnone. apply not_elem_of_empty.
Qed.

Lemma button_stops (ev : Event) (s : State E) :
  stops_recording ev s -> timers_ok s ->
  isRecording (ui (step wsUrl ev s)) = false
  /\ intervals (browser (step wsUrl ev s)) = ∅
  /\ recordingTime (ui (step wsUrl ev s)) = recordingTime (ui s).
Proof.
  intros [Hrec [-> | (-> & Hcon & Hl)]] Hok; simpl.
  - rewrite Hrec. simpl.
    destruct (stopRecording_clears_interval (render_of s) s Hrec Hok) as (H1 & _ & H2).
    split; [apply stopRecording_isRecording, Hrec | split; assumption].
  - rewrite Hl. simpl. unfold connect. simpl. rewrite Hcon. unfold disconnect.
    set (s1 := with_ui (setStatus "Disconnected") _).
    assert (Hok1 : timers_ok s1).
    { revert Hok. apply timers_ok_same; subst s1; unfold ws_set_readyState;
        clear; frame s. }
    destruct (stopRecording_clears_interval (render_of s) s1 Hrec Hok1) as (H1 & _ & H2).
    split; [apply stopRecording_isRecording, Hrec|]. split; [exact H1|].
    rewrite H2. subst s1. unfold ws_set_readyState. clear. frame s.
Qed.

(** C4, as the code has it.  When the recording timer fires (the start
    time being set and less than 100 minutes having passed), the display
    becomes the elapsed time cut down to whole seconds, as two two-digit
    fields; no other event touches the display.  In a state reached from
    mount in which a recording is running, the Stop button and the Disconnect
    button end the recording and clear the timer: whatever happens then, the
    display stays as it is until a recording is started again. *)
Theorem recording_time_floors_and_freezes (s : State E) :
  (forall id, id ∈ intervals (browser s) -> startTimeRef (refs s) <> 0 ->
     let elapsed := clock (browser s) - startTimeRef (refs s) in
     0 <= elapsed < 6000000 ->
     let seconds := elapsed / 1000 in
     recordingTime (ui (step wsUrl (IntervalFired id) s))
     = Js.digits_fixed 2 (seconds / 60) +:+ ":" +:+ Js.digits_fixed 2 (seconds mod 60))
  /\ (forall ev, (forall id, ev = IntervalFired id -> id ∉ intervals (browser s)) ->
        recordingTime (ui (step wsUrl ev s)) = recordingTime (ui s))
  /\ (forall evs0 core now ev evs,
        let t := run wsUrl evs0 (initial core now) in
        stops_recording ev t ->
        Forall (fun later => later <> ClickStart) evs ->
        isRecording (ui (step wsUrl ev t)) = false
        /\ intervals (browser (step wsUrl ev t)) = ∅
        /\ recordingTime (ui (run wsUrl evs (step wsUrl ev t))) = recordingTime (ui t)).
Proof.
  split; [|split].
  - intros id Hid Hstart elapsed Hel seconds. simpl.
    rewrite bool_decide_eq_true_2 by exact Hid.
    unfold updateRecordingTime.
    destruct (Z.eqb_spec (startTimeRef (refs s)) 0) as [|_]; [contradiction|].
    rewrite JsFacts.sub_exact by (fold elapsed; lia). fold elapsed.
    unfold Js.floor_div, Js.rem. rewrite Z.rem_mod_nonneg by lia.
    rewrite JsFacts.minutes_field, JsFacts.seconds_field. fold seconds.
    assert (Hs : 0 <= seconds < 6000)
      by (subst seconds; Z.to_euclidean_division_equations; lia).
    rewrite (JsFacts.padStart2_two_digits (seconds / 60))
      by (Z.to_euclidean_division_equations; lia).
    rewrite (JsFacts.padStart2_two_digits (seconds mod 60))
      by (Z.to_euclidean_division_equations; lia).
    destruct s as [[] ? ?]; reflexivity.
  - intros ev Hev. apply step_recordingTime, Hev.
  - intros evs0 core now ev evs t Hstop Hall.
    destruct (button_stops ev t Hstop (run_timers evs0 core now)) as (H1 & H2 & H3).
    split; [exact H1|]. split; [exact H2|].
    rewrite run_frozen by assumption. exact H3.
Qed.

(** *** The file-size display *)

Lemma blob_size_nonneg (b : Blob) : 0 <= blob_size b.
Proof. unfold blob_size. lia. Qed.

Lemma sum_sizes_nonneg (chunks : list Blob) : 0 <= sum_sizes chunks.
Proof.
  induction chunks as [|b chunks IH]; simpl; [lia|].
  pose proof (blob_size_nonneg b). lia.
Qed.

Lemma sum_sizes_app (xs ys : list Blob) :
  sum_sizes (xs ++ ys) = sum_sizes xs + sum_sizes ys.
Proof. induction xs as [|b xs IH]; simpl; [reflexivity|]. rewrite IH. lia. Qed.

(** Below [2^53] the running total kept by [reduce] is the exact sum. *)
Lemma reduce_sizes_exact (chunks : list Blob) (acc : Z) :
  0 <= acc -> acc + sum_sizes chunks < 2 ^ 53 ->
  fold_left (fun size chunk => Js.add size (blob_size chunk)) chunks acc
  = acc + sum_sizes chunks.
Proof.
  revert acc. induction chunks as [|b chunks IH]; intros acc Hacc Hsum; simpl in *.
  - lia.
  - pose proof (blob_size_nonneg b). pose proof (sum_sizes_nonneg chunks).
    rewrite JsFacts.add_exact by lia. rewrite IH by lia. lia.
Qed.

Lemma updateFileSize_exact (s : State E) :
  sum_sizes (recordedChunksRef (refs s)) < 2 ^ 53 ->
  fileSize (ui (updateFileSize s))
  = Js.toFixed2_mb (sum_sizes (recordedChunksRef (refs s))) +:+ " MB".
Proof.
  intros Hsum. unfold updateFileSize.
  rewrite reduce_sizes_exact by lia. destruct s as [[] ? ?]. reflexivity.
Qed.

(** *** The display follows the buffer on every run *)

Lemma img_set_src_size (fmts : list string) (i : nat) (src : string)
    (c : Canvas) (s : State E) :
  fileSize (ui (img_set_src fmts i src c s)) = fileSize (ui s)
  /\ recordedChunksRef (refs (img_set_src fmts i src c s)) = recordedChunksRef (refs s).
Proof.
  funelim (img_set_src fmts i src c s).
  - destruct s as [[] [] []]. split; reflexivity.
  - destruct H as [-> ->]. destruct s as [[] [] []]. split; reflexivity.
  - destruct s as [[] [] []]. split; reflexivity.
Qed.

Lemma createVideoBlob_fileSize (r : Render) (s : State E) :
  fileSize (ui (createVideoBlob r s)) = fileSize (ui s).
Proof.
  open_job s r; job_cases; reflexivity.
Qed.

(** Only the delivery of a non-empty chunk changes the display. *)
Lemma step_fileSize (ev : Event) (s : State E) :
  fileSize (ui (step wsUrl ev s)) = fileSize (ui s) \/ delivers_chunk ev s.
Proof.
  destruct ev; simpl;
    try (left;
         unfold connect, disconnect, ws_onopen, ws_onerror, ws_onclose,
           startRecording, stopRecording, new_MediaRecorder, setInterval,
           clearInterval, ws_set_readyState, ws_captured, ws_is,
           updateRecordingTime, recorder_gather, recorder_timeslice;
         frame s; fail).
  - (* WsMessage *)
    left. case_match; [|reflexivity]. unfold handleFrame, drawFrame.
    repeat case_match; try (destruct s as [[] [] []]; reflexivity).
    rewrite (proj1 (img_set_src_size _ _ _ _ _)). destruct s as [[] [] []]. reflexivity.
  - (* RunTask *)
    destruct (tasks (browser s)) as [|[data|r] rest] eqn:Ht; [left; reflexivity| |].
    + simpl. unfold ondataavailable.
      destruct (Z.gtb_spec (blob_size data) 0) as [Hpos|_].
      * right. split; [reflexivity|]. exists data, rest. split; [exact Ht | lia].
      * left. destruct s as [[] [] []]. reflexivity.
    + left. simpl. rewrite createVideoBlob_fileSize. destruct s as [[] [] []]. reflexivity.
Qed.

Lemma size_shown_same (s s' : State E) :
  fileSize (ui s') = fileSize (ui s) ->
  recordedChunksRef (refs s') = recordedChunksRef (refs s) ->
  size_shown s -> size_shown s'.
Proof. unfold size_shown. intros -> ->. auto. Qed.

(** Every event keeps the display in line with a non-empty buffer. *)
Lemma step_size_shown (ev : Event) (s : State E) :
  size_shown s -> size_shown (step wsUrl ev s).
Proof.
  intros Hok.
  destruct ev; simpl;
    try (apply (size_shown_same s); [..|exact Hok];
         unfold connect, disconnect, ws_onopen, ws_onerror, ws_onclose,
           stopRecording, clearInterval, ws_set_readyState, ws_captured, ws_is,
           updateRecordingTime, recorder_gather, recorder_timeslice;
         clear; frame s; fail).
  - (* ClickStart *)
    destruct (negb (isConnected (ui s)) || isRecording (ui s) || negb (ffmpegLoaded (ui s)));
      [exact Hok|].
    unfold startRecording, new_MediaRecorder, setInterval, size_shown.
    destruct (negb (r_isConnected (render_of s))
              || negb (bool_decide (is_Some (canvasRef (refs s))))); [exact Hok|].
    destruct s as [[] [] []]; simpl.
    destruct (isTypeSupported "video/webm;codecs=vp9"); simpl; intros Hne; destruct (Hne eq_refl).
  - (* WsMessage *)
    destruct (ws_is OPEN s); [|exact Hok]. unfold handleFrame, drawFrame.
    assert (H1 : size_shown (with_ui (setFrameCount (fun prev => Js.add prev 1)) s))
      by (destruct s as [[] [] []]; exact Hok).
    simpl. repeat case_match; try exact H1.
    revert H1. apply size_shown_same; apply img_set_src_size.
  - (* RunTask *)
    destruct (tasks (browser s)) as [|[data|r] rest]; [exact Hok| |]; simpl.
    + unfold ondataavailable. destruct (blob_size data >? 0).
      * intros _. destruct s as [[] [] []]. reflexivity.
      * destruct s as [[] [] []]. exact Hok.
    + revert Hok. apply size_shown_same.
      * rewrite createVideoBlob_fileSize. destruct s as [[] [] []]. reflexivity.
      * rewrite createVideoBlob_chunks. destruct s as [[] [] []]. reflexivity.
Qed.

Lemma run_size_shown (evs : list Event) (core : E) (now : Z) :
  size_shown (run wsUrl evs (initial core now)).
Proof.
  assert (Hgen : forall s, size_shown s -> size_shown (run wsUrl evs s)).
  { induction evs as [|ev evs IH]; intros s Hs; [exact Hs|].
    change (run wsUrl (ev :: evs) s) with (run wsUrl evs (step wsUrl ev s)).
    apply IH, step_size_shown, Hs. }
  apply Hgen. intros Hne. destruct (Hne eq_refl).
Qed.

Lemma shown_size_exact (chunks : list Blob) :
  sum_sizes chunks < 2 ^ 53 -> shown_size chunks = spec_fileSize chunks.
Proof.
  intros Hsum. unfold shown_size, spec_fileSize.
  rewrite reduce_sizes_exact by lia. reflexivity.
Qed.

(** C5, as the code has it.  In every state reached from mount in which the
    buffer is not empty, the display is the byte total of the buffer (below
    [2^53]) divided by [2^20], rounded to the nearest hundredth, printed with
    two decimals and [ MB].  It is recomputed from the whole buffer when a
    non-empty chunk arrives, which is appended, and by no other event; an
    empty chunk changes nothing. *)
Theorem file_size_follows_nonempty_chunks (data : Blob) (s : State E) :
  let s' := ondataavailable data s in
  (blob_size data = 0 -> s' = s)
  /\ (0 < blob_size data ->
      sum_sizes (recordedChunksRef (refs s) ++ [data]) < 2 ^ 53 ->
      recordedChunksRef (refs s') = recordedChunksRef (refs s) ++ [data]
      /\ fileSize (ui s') = spec_fileSize (recordedChunksRef (refs s'))
      /\ let total := sum_sizes (recordedChunksRef (refs s')) in
         let n := Js.toFixed2_scaled total in
         fileSize (ui s')
         = (Js.toString (n / 100) +:+ "." +:+ Js.digits_fixed 2 n) +:+ " MB"
         /\ 2 ^ 21 * n <= 200 * total + 2 ^ 20 < 2 ^ 21 * (n + 1))
  /\ (forall evs core now,
        let t := run wsUrl evs (initial core now) in
        recordedChunksRef (refs t) <> [] ->
        sum_sizes (recordedChunksRef (refs t)) < 2 ^ 53 ->
        fileSize (ui t) = spec_fileSize (recordedChunksRef (refs t)))
  /\ (forall ev, ~ delivers_chunk ev s ->
        fileSize (ui (step wsUrl ev s)) = fileSize (ui s)).
Proof.
  intros s'. subst s'. unfold ondataavailable. split; [|split; [|split]].
  - intros ->. reflexivity.
  - intros Hpos Hsum. destruct (Z.gtb_spec (blob_size data) 0) as [_|]; [|lia].
    set (s1 := with_refs _ s).
    assert (Hchunks : recordedChunksRef (refs s1) = recordedChunksRef (refs s) ++ [data])
      by (subst s1; destruct s as [? [] ?]; reflexivity).
    assert (Hkeep : recordedChunksRef (refs (updateFileSize s1)) = recordedChunksRef (refs s1))
      by reflexivity.
    rewrite Hkeep, Hchunks.
    assert (Hsize : fileSize (ui (updateFileSize s1))
                    = Js.toFixed2_mb (sum_sizes (recordedChunksRef (refs s) ++ [data])) +:+ " MB").
    { rewrite updateFileSize_exact; rewrite Hchunks; [reflexivity | exact Hsum]. }
    split; [reflexivity|]. split; [exact Hsize|]. split; [exact Hsize|].
    unfold Js.toFixed2_scaled.
    pose proof (Z.div_mod (200 * sum_sizes (recordedChunksRef (refs s) ++ [data]) + 2 ^ 20)
                  (2 ^ 21) ltac:(lia)) as Hdm.
    pose proof (Z.mod_pos_bound (200 * sum_sizes (recordedChunksRef (refs s) ++ [data]) + 2 ^ 20)
                  (2 ^ 21) ltac:(lia)) as Hmb.
    lia.
  - intros evs core now Hne Hsum.
    rewrite (run_size_shown evs core now Hne). apply shown_size_exact, Hsum.
  - intros ev Hno. destruct (step_fileSize ev s) as [Hsame | Hd]; [exact Hsame|].
    destruct (Hno Hd).
Qed.

(** *** Decoding and painting a frame *)

Lemma img_set_src_decoded (fmts : list string) (i : nat) (src : string)
    (c : Canvas) (s : State E) (w h : Z) :
  decodeImage src = Some (w, h) ->
  img_set_src fmts i src c s
  = with_refs (set_canvasRef (Some (img_onload
        {| img_src := src; img_width := w; img_height := h |} c))) (loaded src s).
Proof. intros Hd. simp img_set_src. rewrite Hd. reflexivity. Qed.

Lemma img_set_src_next (fmts : list string) (i : nat) (src : string)
    (c : Canvas) (s : State E) :
  decodeImage src = None -> (S i < length fmts)%nat ->
  img_set_src fmts i src c s
  = img_set_src fmts (S i) (nth (S i) fmts "") c (loaded src s).
Proof.
  intros Hd Hlt. rewrite img_set_src_equation_1, Hd. simpl.
  destruct (decide (S i < length fmts)%nat); [reflexivity | contradiction].
Qed.

Lemma img_set_src_last (fmts : list string) (i : nat) (src : string)
    (c : Canvas) (s : State E) :
  decodeImage src = None -> ~ (S i < length fmts)%nat ->
  img_set_src fmts i src c s
  = console_error "Failed to load image in any format" (loaded src s).
Proof.
  intros Hd Hlt. rewrite img_set_src_equation_1, Hd. simpl.
  destruct (decide (S i < length fmts)%nat); [contradiction | reflexivity].
Qed.

(** On a square canvas the image goes into a box that spans the canvas in
    one direction, starting at 0, and lies inside the canvas; up to the
    rounding of the three or four operations that compute it, the box is
    centred and has the proportions of the image.  Sizes are integers a
    double holds. *)
Lemma img_onload_geometry (img : Image) (c : Canvas) :
  0 < img_width img <= 2 ^ 53 -> 0 < img_height img <= 2 ^ 53 ->
  canvas_width c = canvas_height c -> 0 < canvas_width c <= 2 ^ 53 ->
  let C := inject_Z (canvas_width c) in
  let W := inject_Z (img_width img) in
  let H := inject_Z (img_height img) in
  exists x y w h : Q,
    canvas_ops (img_onload img c)
    = canvas_ops c
        ++ [clearRect (Double.Finite 0) (Double.Finite 0) (Double.Finite C) (Double.Finite C);
            drawImage img (Double.Finite x) (Double.Finite y)
              (Double.Finite w) (Double.Finite h)]
    /\ ((w = C /\ x = 0%Q) \/ (h = C /\ y = 0%Q))
    /\ (0 <= x /\ 0 <= y /\ 0 < w /\ 0 < h /\ x + w <= C /\ y + h <= C)%Q
    /\ (Qabs (x + w * (1 # 2) - C * (1 # 2)) <= C * Double.pow2 (-52))%Q
    /\ (Qabs (y + h * (1 # 2) - C * (1 # 2)) <= C * Double.pow2 (-52))%Q
    /\ (Qabs (w * H - h * W) <= w * H * Double.pow2 (-51))%Q.
Proof.
  intros Hw Hh Hsq Hc C W H.
  destruct (DoubleFacts.fit_geometry (canvas_width c) (img_width img) (img_height img)
              Hc Hw Hh) as (x & y & w & h & Hx & Hy & Hdw & Hdh & Hrest).
  exists x, y, w, h. split; [|exact Hrest].
  unfold img_onload. cbv zeta. rewrite <- Hsq.
  cbn [canvas_ops]. rewrite Hx, Hy, Hdw, Hdh.
  rewrite (DoubleFacts.of_Z_exact (canvas_width c) Hc). reflexivity.
Qed.

(** *** The canvas keeps its shape *)

Lemma img_set_src_canvas (fmts : list string) (i : nat) (src : string)
    (c : Canvas) (s : State E) :
  exists c',
    (canvasRef (refs (img_set_src fmts i src c s)) = Some c'
     \/ canvasRef (refs (img_set_src fmts i src c s)) = canvasRef (refs s))
    /\ canvas_width c' = canvas_width c
    /\ canvas_height c' = canvas_height c
    /\ context2d c' = context2d c.
Proof.
  funelim (img_set_src fmts i src c s).
  - eexists. split; [left; destruct s as [? [] ?]; reflexivity|]. auto.
  - destruct H as (c' & [Hc | Hc] & Hshape); exists c'; (split; [|exact Hshape]).
    + left. exact Hc.
    + right. rewrite Hc. destruct s as [? [] ?]. reflexivity.
  - exists canvas. split; [right; destruct s as [? [] ?]; reflexivity|]. auto.
Qed.

Lemma createVideoBlob_canvas (r : Render) (s : State E) :
  canvasRef (refs (createVideoBlob r s)) = canvasRef (refs s).
Proof.
  open_job s r; job_cases; reflexivity.
Qed.

(** No event unmounts the canvas, takes its context away or resizes it. *)
Lemma step_keeps_canvas (ev : Event) (s : State E) (c : Canvas) :
  canvas_ready s c ->
  exists c', canvas_ready (step wsUrl ev s) c' /\ canvas_width c' = canvas_width c.
Proof.
  intros (Hc & Hctx & Hsq & Hpos).
  assert (Hsame : canvasRef (refs (step wsUrl ev s)) = canvasRef (refs s) ->
                  exists c', canvas_ready (step wsUrl ev s) c'
                             /\ canvas_width c' = canvas_width c).
  { intros Heq. exists c. unfold canvas_ready. rewrite Heq. auto. }
  destruct ev; simpl in *;
    try (apply Hsame;
         unfold connect, disconnect, ws_onopen, ws_onerror, ws_onclose,
           startRecording, stopRecording, new_MediaRecorder, setInterval,
           clearInterval, ws_set_readyState, ws_captured, ws_is,
           updateRecordingTime, recorder_gather, recorder_timeslice;
         clear; frame s; fail).
  - (* WsMessage *)
    destruct (ws_is OPEN s); [|apply Hsame; reflexivity].
    unfold handleFrame, drawFrame. simpl. rewrite Hc, Hctx. simpl.
    destruct (img_set_src_canvas (formats data) 0
                (String.append "data:image/bmp;base64," data) c
                (with_ui (setFrameCount (fun prev => Js.add prev 1)) s))
      as (c' & [Hc' | Hc'] & Hw & Hh & Hx).
    + exists c'. unfold canvas_ready. rewrite Hc'. repeat split; congruence.
    + exists c. unfold canvas_ready. rewrite Hc'. simpl. auto.
  - (* RunTask *)
    apply Hsame. destruct (tasks (browser s)) as [|[data|r] rest]; [reflexivity| |].
    + simpl. unfold ondataavailable. destruct s as [? [] ?]. simpl.
      case_match; reflexivity.
    + simpl. rewrite createVideoBlob_canvas. reflexivity.
Qed.

(** From mount on, the canvas is there, 300 by 300, with its context. *)
Lemma run_keeps_canvas (evs : list Event) (core : E) (now : Z) :
  exists c, canvas_ready (run wsUrl evs (initial core now)) c /\ canvas_width c = 300.
Proof.
  assert (Hgen : forall s c, canvas_ready s c ->
            exists c', canvas_ready (run wsUrl evs s) c'
                       /\ canvas_width c' = canvas_width c).
  { induction evs as [|ev evs IH]; intros s c Hs; [exists c; auto|].
    change (run wsUrl (ev :: evs) s) with (run wsUrl evs (step wsUrl ev s)).
    destruct (step_keeps_canvas ev s c Hs) as (c1 & H1 & Hw1).
    destruct (IH _ _ H1) as (c2 & H2 & Hw2). exists c2. split; [exact H2 | congruence]. }
  destruct (Hgen (initial core now) _ ltac:(repeat split)) as (c' & H1 & H2).
  exists c'. split; [exact H1 | exact H2].
Qed.

(** C2.  With the canvas mounted and a 2D context at hand, a message is
    decoded as bitmap, then JPEG, then PNG, stopping at the first format the
    browser decodes; the image is painted by [img.onload] and nothing is
    logged.  If none decodes, one line is logged, the canvas is as before, no
    state variable other than the frame counter has changed, and the socket
    is as before.  On a square canvas (the component's is 300 by 300 and
    stays so, [run_keeps_canvas]) the painted image spans the canvas in one
    direction, lies inside it, and is centred and in proportion up to the
    rounding of the doubles the code computes with: the centre is off by at
    most [2^-52] of the side, the proportions by at most [2^-51]. *)
Theorem drawFrame_tries_formats_in_order (data : string) (s : State E) (c : Canvas) :
  canvasRef (refs s) = Some c -> context2d c = true ->
  let bmp := "data:image/bmp;base64," +:+ data in
  let jpeg := "data:image/jpeg;base64," +:+ data in
  let png := "data:image/png;base64," +:+ data in
  let s' := handleFrame data s in
  let tried srcs := imageLoads (browser s') = imageLoads (browser s) ++ srcs in
  let painted src (d : Z * Z) :=
    canvasRef (refs s')
    = Some (img_onload {| img_src := src; img_width := fst d; img_height := snd d |} c)
    /\ console (browser s') = console (browser s) in
  ui s' = setFrameCount (fun prev => Js.add prev 1) (ui s)
  /\ wsRef (refs s') = wsRef (refs s)
  /\ match decodeImage bmp, decodeImage jpeg, decodeImage png with
     | Some d, _, _ => tried [bmp] /\ painted bmp d
     | None, Some d, _ => tried [bmp; jpeg] /\ painted jpeg d
     | None, None, Some d => tried [bmp; jpeg; png] /\ painted png d
     | None, None, None =>
         tried [bmp; jpeg; png]
         /\ canvasRef (refs s') = canvasRef (refs s)
         /\ console (browser s')
            = console (browser s) ++ ["Failed to load image in any format"]
     end
  /\ (forall img,
        0 < img_width img <= 2 ^ 53 -> 0 < img_height img <= 2 ^ 53 ->
        canvas_width c = canvas_height c -> 0 < canvas_width c <= 2 ^ 53 ->
        let C := inject_Z (canvas_width c) in
        let W := inject_Z (img_width img) in
        let H := inject_Z (img_height img) in
        exists x y w h : Q,
          canvas_ops (img_onload img c)
          = canvas_ops c
              ++ [clearRect (Double.Finite 0) (Double.Finite 0)
                    (Double.Finite C) (Double.Finite C);
                  drawImage img (Double.Finite x) (Double.Finite y)
                    (Double.Finite w) (Double.Finite h)]
          /\ ((w = C /\ x = 0%Q) \/ (h = C /\ y = 0%Q))
          /\ (0 <= x /\ 0 <= y /\ 0 < w /\ 0 < h /\ x + w <= C /\ y + h <= C)%Q
          /\ (Qabs (x + w * (1 # 2) - C * (1 # 2)) <= C * Double.pow2 (-52))%Q
          /\ (Qabs (y + h * (1 # 2) - C * (1 # 2)) <= C * Double.pow2 (-52))%Q
          /\ (Qabs (w * H - h * W) <= w * H * Double.pow2 (-51))%Q).
Proof.
  intros Hc Hctx bmp jpeg png s' tried painted.
  assert (Hs' : s' = img_set_src (formats data) 0 bmp c
                       (with_ui (setFrameCount (fun prev => Js.add prev 1)) s)).
  { subst s'. unfold handleFrame, drawFrame. simpl. rewrite Hc, Hctx. reflexivity. }
  split; [rewrite Hs', img_set_src_ui; reflexivity|].
  split; [|split; [|intros img; apply img_onload_geometry]].
  - rewrite Hs', img_set_src_wsRef. reflexivity.
  - subst tried painted. cbv beta. rewrite Hs'.
    destruct (decodeImage bmp) as [[w1 h1]|] eqn:H1.
    { rewrite (img_set_src_decoded _ _ _ _ _ _ _ H1).
      destruct s as [[] [] []]; simpl. auto. }
    rewrite (img_set_src_next _ _ _ _ _ H1) by (simpl; lia).
    change (nth 1 (formats data) "") with jpeg.
    destruct (decodeImage jpeg) as [[w2 h2]|] eqn:H2.
    { rewrite (img_set_src_decoded _ _ _ _ _ _ _ H2).
      destruct s as [[] [] []]; simpl. rewrite <- app_assoc. auto. }
    rewrite (img_set_src_next _ _ _ _ _ H2) by (simpl; lia).
    change (nth 2 (formats data) "") with png.
    destruct (decodeImage png) as [[w3 h3]|] eqn:H3.
    { rewrite (img_set_src_decoded _ _ _ _ _ _ _ H3).
      destruct s as [[] [] []]; simpl. rewrite <- !app_assoc. auto. }
    rewrite (img_set_src_last _ _ _ _ _ H3) by (simpl; lia).
    destruct s as [[] [] []]; simpl in *. rewrite <- !app_assoc. auto.
Qed.

End Facts.

End RecorderFacts.

Module RecorderRuns.
Import Recorder RecorderFacts.

(** *** C9 on a run *)

(** A payload that no format decodes is still counted. *)
Lemma handleFrame_counts_witness :
  0 <= frameCount (ui example_initial) < 2 ^ 53
  /\ frameCount (ui (handleFrame (P:=blind_platform) "AAAA" example_initial)) = 1
  /\ console (browser (handleFrame (P:=blind_platform) "AAAA" example_initial))
     = ["Failed to load image in any format"].
Proof.
  assert (H : 0 <= frameCount (ui example_initial) < 2 ^ 53) by (simpl; lia).
  split; [exact H|]. split.
  - apply (handleFrame_counts_every_message (P:=blind_platform) example_url
             "AAAA" example_initial H).
  - vm_compute. reflexivity.
Defined.

(** *** C2 on a run *)

(** A JPEG payload is tried as a bitmap first, then painted. *)
Lemma drawFrame_witness :
  let img := {| img_src := "data:image/jpeg;base64,AAAA";
                img_width := 7; img_height := 3 |} in
  let canvas := {| canvas_width := 300; canvas_height := 300;
                   context2d := true; canvas_ops := [] |} in
  imageLoads (browser (handleFrame (P:=example_platform) "AAAA" example_initial))
  = ["data:image/bmp;base64,AAAA"; "data:image/jpeg;base64,AAAA"]
  /\ console (browser (handleFrame (P:=example_platform) "AAAA" example_initial)) = []
  /\ exists x y w h : Q,
       canvas_ops (img_onload img canvas)
       = [clearRect (Double.Finite 0) (Double.Finite 0)
            (Double.Finite 300) (Double.Finite 300);
          drawImage img (Double.Finite x) (Double.Finite y)
            (Double.Finite w) (Double.Finite h)]
       /\ ((w = 300%Q /\ x = 0%Q) \/ (h = 300%Q /\ y = 0%Q))
       /\ (0 <= x /\ 0 <= y /\ 0 < w /\ 0 < h /\ x + w <= 300 /\ y + h <= 300)%Q
       /\ (Qabs (x + w * (1 # 2) - 300 * (1 # 2)) <= 300 * Double.pow2 (-52))%Q
       /\ (Qabs (y + h * (1 # 2) - 300 * (1 # 2)) <= 300 * Double.pow2 (-52))%Q
       /\ (Qabs (w * 3 - h * 7) <= w * 3 * Double.pow2 (-51))%Q.
Proof.
  intros img canvas.
  pose proof (drawFrame_tries_formats_in_order (P:=example_platform) "AAAA"
                example_initial canvas eq_refl eq_refl) as (_ & _ & H & Hfit).
  vm_compute in H. destruct H as (H1 & _ & H2).
  split; [exact H1 | split; [exact H2|]].
  exact (Hfit img ltac:(simpl; lia) ltac:(simpl; lia) eq_refl ltac:(simpl; lia)).
Defined.

(** The doubles [img.onload] computes on the 300 by 300 canvas.  A 640 by 480
    frame goes to (0, 37.5) with size 300 by 225, all exact.  A 7 by 3 image
    gets the height 128.57142857142856, the double nearest to 300 divided by
    the double nearest to 7/3, and not 900/7, and the top 85.71428571428572.  An image of height 0 has an
    infinite ratio and is given height 0; an image 0 by 0 has the ratio NaN,
    which is not greater than 1, so its width and left edge are NaN. *)
Example img_onload_doubles :
  let canvas := {| canvas_width := 300; canvas_height := 300;
                   context2d := true; canvas_ops := [] |} in
  let img w h := {| img_src := "data:image/jpeg;base64,AAAA";
                    img_width := w; img_height := h |} in
  let drawn i := nth 1 (canvas_ops (img_onload i canvas))
                   (clearRect Double.NaN Double.NaN Double.NaN Double.NaN) in
  drawn (img 640 480)
  = drawImage (img 640 480) (Double.Finite 0) (Double.Finite (75 # 2))
      (Double.Finite 300) (Double.Finite 225)
  /\ drawn (img 7 3)
     = drawImage (img 7 3) (Double.Finite 0)
         (Double.Finite (1507901660949943 # 17592186044416))
         (Double.Finite 300)
         (Double.Finite (1130926245712457 # 8796093022208))
  /\ ~ ((1130926245712457 # 8796093022208) == 900 # 7)%Q
  /\ drawn (img 7 0)
     = drawImage (img 7 0) (Double.Finite 0) (Double.Finite 150)
         (Double.Finite 300) (Double.Finite 0)
  /\ drawn (img 0 0)
     = drawImage (img 0 0) Double.NaN (Double.Finite 0)
         Double.NaN (Double.Finite 300).
Proof.
  intros canvas img drawn.
  split; [vm_compute; reflexivity|].
  split; [vm_compute; reflexivity|].
  split; [intros H; vm_compute in H; discriminate|].
  split; vm_compute; reflexivity.
Qed.

(** *** C6 on a run *)

(** Stopping as seen from an idle render and from a recording one. *)
Example stopRecording_by_render_example :
  stopRecording render_idle example_buffered = example_buffered
  /\ isRecording (ui (stopRecording render_recording
                        example_buffered)) = false
  /\ tasks (browser (stopRecording render_recording
                       example_buffered))
     = [TaskDataAvailable {| blob_data := []; blob_type := "video/webm;codecs=vp9" |};
        TaskStop render_idle].
Proof.
  pose proof (stopRecording_by_render (P:=example_platform) example_url
                render_idle example_buffered) as [Hidle _].
  pose proof (stopRecording_by_render (P:=example_platform) example_url
                render_recording example_buffered) as [_ Hrec].
  split; [exact (Hidle eq_refl)|].
  destruct (Hrec eq_refl) as (Hoff & _ & Hfin).
  split; [exact Hoff|].
  destruct (Hfin _ ltac:(vm_compute; reflexivity) eq_refl) as (_ & Htasks & _).
  rewrite Htasks. vm_compute. reflexivity.
Qed.

(** C6.  The socket closes while a recording is running (engine loaded,
    Connect, socket open, Start, one chunk delivered, then [close]).  The
    [stopRecording] that [ws.onclose] calls is the one of the render in which
    [connect] ran; it sees [isRecording] false and returns at once.  The
    session is still recording afterwards: the flag is set, the recorder
    records, the timer is active and goes on moving the display, nothing is
    queued and no blob is made.  The Stop button in the same state does
    finalize: it queues the last data and the [stop] event. *)
Lemma stop_on_socket_close_is_lost :
  let closed := step (P:=example_platform) example_url WsClose example_buffered in
  let later := run (P:=example_platform) example_url
                 [RunTask; RunTask; Elapse 5000; IntervalFired 1] closed in
  isRecording (ui example_buffered) = true
  /\ r_isRecording (ws_captured example_buffered) = false
  /\ stopRecording (ws_captured example_buffered) example_buffered = example_buffered
  /\ isRecording (ui closed) = true
  /\ isConnected (ui closed) = false
  /\ status (ui closed) = "Disconnected"
  /\ mediaRecorderRef (refs closed) = mediaRecorderRef (refs example_buffered)
  /\ option_map mr_state (mediaRecorderRef (refs closed)) = Some recording
  /\ recordingIntervalRef (refs closed) = Some 1%positive
  /\ tasks (browser closed) = []
  /\ showDownload (ui later) = false
  /\ ffmpegLog (browser later) = []
  /\ recordingTime (ui closed) = "00:00"
  /\ recordingTime (ui later) = "00:05"
  /\ tasks (browser (step (P:=example_platform) example_url ClickStop example_buffered))
     = [TaskDataAvailable {| blob_data := []; blob_type := "video/webm;codecs=vp9" |};
        TaskStop render_idle].
Proof.
  intros closed later. repeat split; vm_compute; reflexivity.
Qed.

(** *** C1 on runs *)

(** Two jobs in a row name the same two files, against the wording "no two
    jobs write or read the same virtual filenames". *)
Lemma jobs_reuse_filenames :
  ~ spec_fresh_names
      (job_files (P:=example_platform) render_idle example_buffered)
      (job_files (P:=example_platform) render_idle
         (createVideoBlob (P:=example_platform) render_idle example_buffered)).
Proof.
  intros Hfresh. apply (Hfresh "input.webm"); vm_compute; auto.
Qed.

(** A job that reaches the core writes [input.webm]. *)
Lemma jobs_share_fixed_filenames_witness :
  is_Some (ffmpegRef (refs example_buffered))
  /\ r_ffmpegLoaded render_idle = true
  /\ In "input.webm" (job_files (P:=example_platform) render_idle example_buffered).
Proof.
  assert (H1 : is_Some (ffmpegRef (refs example_buffered)))
    by (vm_compute; eexists; reflexivity).
  split; [exact H1|]. split; [reflexivity|].
  exact (proj1 (proj2 (proj2 (jobs_share_fixed_filenames (P:=example_platform)
                                render_idle example_buffered))) H1 eq_refl).
Defined.

(** *** C3 on a run *)

(** One command, and the bytes read back are the download. *)
Lemma transcode_witness :
  List.filter is_exec (job_calls (P:=example_platform) render_idle example_buffered)
  = [CallExec exec_args]
  /\ objectUrls (browser (createVideoBlob (P:=example_platform) render_idle
                            example_buffered))
       !! downloadUrl (ui (createVideoBlob (P:=example_platform) render_idle
                             example_buffered))
     = Some {| blob_data := example_bytes; blob_type := "video/mp4" |}.
Proof.
  destruct (transcode_runs_fixed_pipeline (P:=example_platform) render_idle
              example_buffered) as (_ & _ & _ & H).
  destruct (H ∅ example_fs_written
              ltac:(vm_compute; reflexivity) eq_refl ltac:(vm_compute; reflexivity))
    as [Hexec Hread].
  split; [exact Hexec|].
  destruct (Hread 0 example_fs_transcoded example_bytes example_fs_transcoded
              ltac:(vm_compute; reflexivity) ltac:(vm_compute; reflexivity))
    as [_ Hblob].
  exact Hblob.
Defined.

(** *** C7 on runs *)

(** A job without a loaded engine, and a job whose command rejects. *)
Lemma transcode_failure_witness :
  conversionStatus (ui (createVideoBlob (P:=example_platform) render_unloaded
                          example_buffered)) = error_message
  /\ job_calls (P:=example_platform) render_unloaded example_buffered = []
  /\ conversionStatus (ui (createVideoBlob (P:=broken_platform) render_idle
                             example_buffered)) = error_message
  /\ downloadUrl (ui (createVideoBlob (P:=broken_platform) render_idle
                        example_buffered)) = "".
Proof.
  destruct (transcode_failure_is_terminal (P:=example_platform) render_unloaded
              example_buffered) as (Hoff & _ & _).
  destruct (Hoff (or_intror eq_refl)) as (Hcalls & Hmsg & _).
  destruct (transcode_failure_is_terminal (P:=broken_platform) render_idle
              example_buffered) as (_ & Hexec & _).
  destruct (Hexec ∅ example_fs_written example_fs_written (Error "exec failed")
              ltac:(vm_compute; reflexivity) eq_refl
              ltac:(vm_compute; reflexivity) ltac:(vm_compute; reflexivity))
    as (_ & Hmsg' & _ & _ & Hlink & _).
  split; [exact Hmsg|]. split; [exact Hcalls|]. split; [exact Hmsg'|].
  exact (f_equal (fun link => fst (fst link)) Hlink).
Defined.

(** *** C8 on a run *)


(** *** C4 on runs *)

(** The display against the wording "rounded to the nearest second", 1.6
    seconds into a recording: between two firings of the timer, and right
    after a firing that came late. *)
Lemma recording_time_is_not_nearest_second :
  isRecording (ui example_between_ticks) = true
  /\ clock (browser example_between_ticks) - startTimeRef (refs example_between_ticks)
     = 1600
  /\ recordingTime (ui example_between_ticks) = "00:01"
  /\ recordingTime (ui (step (P:=example_platform) example_url (IntervalFired 1)
                          example_late_tick)) = "00:01"
  /\ spec_recordingTime 1600 = "00:02"
  /\ recordingTime (ui example_between_ticks)
     <> spec_recordingTime
          (clock (browser example_between_ticks)
           - startTimeRef (refs example_between_ticks)).
Proof.
  repeat split; try (vm_compute; reflexivity). vm_compute. discriminate.
Qed.

(** The timer fires 1.6 seconds after the start; once Stop is clicked no
    later event, timer events included, moves the display. *)
Lemma recording_time_witness :
  1%positive ∈ intervals (browser example_late_tick)
  /\ startTimeRef (refs example_late_tick) <> 0
  /\ 0 <= clock (browser example_late_tick) - startTimeRef (refs example_late_tick)
     < 6000000
  /\ recordingTime (ui (step (P:=example_platform) example_url (IntervalFired 1)
                          example_late_tick))
     = Js.digits_fixed 2 (1600 / 1000 / 60) +:+ ":"
         +:+ Js.digits_fixed 2 ((1600 / 1000) mod 60)
  /\ stops_recording ClickStop example_late_tick
  /\ recordingTime
       (ui (run (P:=example_platform) example_url
              [Elapse 5000; IntervalFired 1; RunTask; WsMessage "AAAA"; IntervalFired 1]
              (step (P:=example_platform) example_url ClickStop example_late_tick)))
     = recordingTime (ui example_late_tick).
Proof.
  assert (H1 : 1%positive ∈ intervals (browser example_late_tick))
    by (apply (bool_decide_unpack _); vm_compute; exact I).
  assert (H2 : startTimeRef (refs example_late_tick) <> 0)
    by (vm_compute; discriminate).
  assert (H3 : 0 <= clock (browser example_late_tick)
                    - startTimeRef (refs example_late_tick) < 6000000)
    by (vm_compute; split; [discriminate | reflexivity]).
  assert (H4 : stops_recording ClickStop example_late_tick)
    by (split; [reflexivity | left; reflexivity]).
  assert (H5 : Forall (fun later => later <> ClickStart)
                 [Elapse 5000; IntervalFired 1; RunTask; WsMessage "AAAA"; IntervalFired 1])
    by (repeat constructor; discriminate).
  destruct (recording_time_floors_and_freezes (P:=example_platform) example_url
              example_late_tick) as (Htick & _ & Hstop).
  split; [exact H1|]. split; [exact H2|]. split; [exact H3|].
  split; [exact (Htick 1%positive H1 H2 H3)|]. split; [exact H4|].
  exact (proj2 (proj2 (Hstop [FFmpegLoaded; ClickConnect; WsOpen; ClickStart; Elapse 1600]
                         ∅ 1793620800000 ClickStop _ H4 H5))).
Defined.

(** *** C5 on runs *)

(** At the start of a second recording the buffer is empty and the display
    still shows the total of the first. *)
Lemma file_size_is_stale_after_restart :
  isRecording (ui example_second_session) = true
  /\ recordedChunksRef (refs example_second_session) = []
  /\ fileSize (ui example_second_session) = "0.01 MB"
  /\ spec_fileSize (recordedChunksRef (refs example_second_session)) = "0.00 MB"
  /\ fileSize (ui example_second_session)
     <> spec_fileSize (recordedChunksRef (refs example_second_session)).
Proof.
  repeat split; try (vm_compute; reflexivity). vm_compute. discriminate.
Qed.

(** A chunk of 5243 bytes arrives; an empty one changes nothing; and after
    the chunk has been delivered on a run, the display shows the buffer. *)
Lemma file_size_witness :
  0 < blob_size example_chunk
  /\ sum_sizes (recordedChunksRef (refs example_recording) ++ [example_chunk]) < 2 ^ 53
  /\ fileSize (ui (ondataavailable example_chunk example_recording)) = "0.01 MB"
  /\ ondataavailable {| blob_data := []; blob_type := "video/webm" |} example_recording
     = example_recording
  /\ recordedChunksRef (refs example_buffered) <> []
  /\ sum_sizes (recordedChunksRef (refs example_buffered)) < 2 ^ 53
  /\ fileSize (ui example_buffered)
     = spec_fileSize (recordedChunksRef (refs example_buffered)).
Proof.
  assert (H1 : 0 < blob_size example_chunk) by (vm_compute; reflexivity).
  assert (H2 : sum_sizes (recordedChunksRef (refs example_recording) ++ [example_chunk])
               < 2 ^ 53) by (vm_compute; reflexivity).
  assert (H3 : recordedChunksRef (refs example_buffered) <> [])
    by (vm_compute; discriminate).
  assert (H4 : sum_sizes (recordedChunksRef (refs example_buffered)) < 2 ^ 53)
    by (vm_compute; reflexivity).
  split; [exact H1|]. split; [exact H2|].
  destruct (file_size_follows_nonempty_chunks (P:=example_platform) example_url
              example_chunk example_recording) as (_ & Hfull & Hrun & _).
  destruct (Hfull H1 H2) as (_ & Hsize & _).
  split; [rewrite Hsize; vm_compute; reflexivity|].
  split.
  { exact (proj1 (file_size_follows_nonempty_chunks (P:=example_platform) example_url
                    {| blob_data := []; blob_type := "video/webm" |}
                    example_recording) eq_refl). }
  split; [exact H3|]. split; [exact H4|].
  exact (Hrun [FFmpegLoaded; ClickConnect; WsOpen; ClickStart;
               Encoded example_bytes; TimesliceElapsed; RunTask]
              ∅ 1793620800000 H3 H4).
Defined.

End RecorderRuns.

Module ApiFacts.
Import Api.

Section Facts.

Context {R : Type} {B : Backend R}.

Lemma status_checks_app (t1 t2 : list Effect) :
  status_checks (t1 ++ t2) = (status_checks t1 + status_checks t2)%nat.
Proof. unfold status_checks. rewrite filter_app. apply length_app. Qed.

(** One pass through the loop body makes one status request, and sleeps
    only for [interval]. *)
Lemma poll_attempt_checks (taskId : string) (cb : option Callback)
    (interval : Z) (n : nat) :
  status_checks (snd (poll_attempt taskId cb interval n)) = 1%nat.
Proof.
  unfold poll_attempt.
  destruct (checkStatus taskId n) as [st|e]; [|reflexivity].
  destruct cb as [f|]; simpl; repeat case_match; reflexivity.
Qed.

Lemma poll_attempt_sleeps (taskId : string) (cb : option Callback)
    (interval : Z) (n : nat) (ms : Z) :
  In (Slept ms) (snd (poll_attempt taskId cb interval n)) -> ms = interval.
Proof.
  unfold poll_attempt.
  destruct (checkStatus taskId n) as [st|e]; simpl; [|intuition congruence].
  destruct cb as [f|]; simpl; repeat case_match; simpl; intuition congruence.
Qed.

Lemma poll_loop_checks (taskId : string) (cb : option Callback)
    (maxAttempts interval : Z) (attempts : nat) (trace : list Effect) :
  (status_checks (snd (poll_loop taskId cb maxAttempts interval attempts trace))
   <= status_checks trace + Z.to_nat (maxAttempts - Z.of_nat attempts))%nat.
Proof.
  funelim (poll_loop taskId cb maxAttempts interval attempts trace); simpl.
  - lia.
  - rewrite status_checks_app.
    pose proof (poll_attempt_checks taskId onStatusUpdate interval attempts) as Hc.
    rewrite Heq in Hc. simpl in Hc. lia.
  - pose proof (poll_attempt_checks taskId onStatusUpdate interval attempts) as Hc.
    rewrite Heq in Hc. simpl in Hc.
    rewrite status_checks_app in H. lia.
Qed.

(** The three ways one turn of the loop goes. *)
Lemma poll_loop_timeout (taskId : string) (cb : option Callback)
    (maxAttempts interval : Z) (attempts : nat) (trace : list Effect) :
  ~ Z.of_nat attempts < maxAttempts ->
  poll_loop taskId cb maxAttempts interval attempts trace
  = (Thrown (Error "Task polling timed out"), trace).
Proof.
  intros Hge. rewrite poll_loop_equation_1.
  destruct (decide (Z.of_nat attempts < maxAttempts)); [contradiction | reflexivity].
Qed.

Lemma poll_loop_finished (taskId : string) (cb : option Callback)
    (maxAttempts interval : Z) (attempts : nat) (trace : list Effect)
    (o : Outcome R) (effects : list Effect) :
  Z.of_nat attempts < maxAttempts ->
  poll_attempt taskId cb interval attempts = (Finished o, effects) ->
  poll_loop taskId cb maxAttempts interval attempts trace = (o, trace ++ effects).
Proof.
  intros Hlt Ha. rewrite poll_loop_equation_1.
  destruct (decide (Z.of_nat attempts < maxAttempts)); [|contradiction].
  simpl. rewrite Ha. reflexivity.
Qed.

Lemma poll_loop_continue (taskId : string) (cb : option Callback)
    (maxAttempts interval : Z) (attempts : nat) (trace : list Effect)
    (effects : list Effect) :
  Z.of_nat attempts < maxAttempts ->
  poll_attempt taskId cb interval attempts = (Continue, effects) ->
  poll_loop taskId cb maxAttempts interval attempts trace
  = poll_loop taskId cb maxAttempts interval (S attempts) (trace ++ effects).
Proof.
  intros Hlt Ha. rewrite poll_loop_equation_1.
  destruct (decide (Z.of_nat attempts < maxAttempts)); [|contradiction].
  simpl. rewrite Ha. reflexivity.
Qed.

Lemma poll_loop_sleeps (taskId : string) (cb : option Callback)
    (maxAttempts interval : Z) (attempts : nat) (trace : list Effect) (ms : Z) :
  In (Slept ms) (snd (poll_loop taskId cb maxAttempts interval attempts trace)) ->
  In (Slept ms) trace \/ ms = interval.
Proof.
  funelim (poll_loop taskId cb maxAttempts interval attempts trace); simpl.
  - auto.
  - intros Hin. apply in_app_or in Hin as [Hin|Hin]; [auto|]. right.
    apply (poll_attempt_sleeps taskId onStatusUpdate interval attempts).
    rewrite Heq. exact Hin.
  - intros Hin. apply H in Hin as [Hin|Hin]; [|auto].
    apply in_app_or in Hin as [Hin|Hin]; [auto|]. right.
    apply (poll_attempt_sleeps taskId onStatusUpdate interval attempts).
    rewrite Heq. exact Hin.
Qed.

(** All attempts from [attempts] on keep going: the loop runs out. *)
Lemma poll_loop_all_pending (taskId : string) (cb : option Callback)
    (maxAttempts interval : Z) (attempts : nat) (trace : list Effect) :
  (forall n, (attempts <= n)%nat -> Z.of_nat n < maxAttempts ->
             fst (poll_attempt taskId cb interval n) = Continue) ->
  fst (poll_loop taskId cb maxAttempts interval attempts trace)
  = Thrown (Error "Task polling timed out")
  /\ status_checks (snd (poll_loop taskId cb maxAttempts interval attempts trace))
     = (status_checks trace + Z.to_nat (maxAttempts - Z.of_nat attempts))%nat.
Proof.
  funelim (poll_loop taskId cb maxAttempts interval attempts trace); simpl; intros Hall.
  - split; [reflexivity | lia].
  - specialize (Hall attempts (Nat.le_refl _) l). rewrite Heq in Hall. discriminate.
  - destruct H as [H1 H2]; [intros n Hn; apply Hall; lia|].
    split; [exact H1|]. rewrite H2, status_checks_app.
    pose proof (poll_attempt_checks taskId onStatusUpdate interval attempts) as Hc.
    rewrite Heq in Hc. simpl in Hc. lia.
Qed.

(** Attempt [n] is the first that does not keep going: its outcome is the
    outcome of the loop, after [n - attempts + 1] status requests. *)
Lemma poll_loop_first_finished (taskId : string) (cb : option Callback)
    (maxAttempts interval : Z) (d attempts : nat) (trace : list Effect)
    (o : Outcome R) :
  Z.of_nat (attempts + d) < maxAttempts ->
  (forall k, (attempts <= k < attempts + d)%nat ->
             fst (poll_attempt taskId cb interval k) = Continue) ->
  fst (poll_attempt taskId cb interval (attempts + d)) = Finished o ->
  fst (poll_loop taskId cb maxAttempts interval attempts trace) = o
  /\ status_checks (snd (poll_loop taskId cb maxAttempts interval attempts trace))
     = (status_checks trace + S d)%nat.
Proof.
  revert attempts trace. induction d as [|d IH]; intros attempts trace Hlt Hpend Hfin.
  - rewrite Nat.add_0_r in *.
    destruct (poll_attempt taskId cb interval attempts) as [it effects] eqn:Ha.
    simpl in Hfin. subst it.
    rewrite (poll_loop_finished _ _ _ _ _ _ _ _ Hlt Ha). simpl.
    split; [reflexivity|]. rewrite status_checks_app.
    pose proof (poll_attempt_checks taskId cb interval attempts) as Hc.
    rewrite Ha in Hc. simpl in Hc. lia.
  - destruct (poll_attempt taskId cb interval attempts) as [it effects] eqn:Ha.
    assert (it = Continue) as ->.
    { specialize (Hpend attempts ltac:(lia)). rewrite Ha in Hpend. exact Hpend. }
    assert (Hlt0 : Z.of_nat attempts < maxAttempts) by lia.
    rewrite (poll_loop_continue _ _ _ _ _ _ _ Hlt0 Ha).
    replace (attempts + S d)%nat with (S attempts + d)%nat in * by lia.
    destruct (IH (S attempts) (trace ++ effects) Hlt) as [H1 H2].
    + intros k Hk. apply Hpend. lia.
    + exact Hfin.
    + split; [exact H1|]. rewrite H2, status_checks_app.
      pose proof (poll_attempt_checks taskId cb interval attempts) as Hc.
      rewrite Ha in Hc. simpl in Hc. lia.
Qed.

(** *** Pacing: one sleep after every pending answer *)

Lemma pacing_app (t1 t2 : list Effect) : pacing (t1 ++ t2) = pacing t1 ++ pacing t2.
Proof. unfold pacing. apply List.filter_app. Qed.

Lemma paced_rounds_S (taskId : string) (ms : Z) (n : nat) :
  paced_rounds taskId ms (S n)
  = GetStatus taskId :: Slept ms :: paced_rounds taskId ms n.
Proof. reflexivity. Qed.

Lemma paced_rounds_snoc (taskId : string) (ms : Z) (n : nat) :
  paced_rounds taskId ms (S n)
  = paced_rounds taskId ms n ++ [GetStatus taskId; Slept ms].
Proof.
  induction n as [|n IH]; [reflexivity|].
  rewrite paced_rounds_S, IH at 1. rewrite paced_rounds_S. reflexivity.
Qed.

(** A pass that keeps going requests the status and then sleeps; a pass that
    decides requests the status and does not sleep. *)
Lemma poll_attempt_pacing (taskId : string) (cb : option Callback)
    (interval : Z) (n : nat) :
  pacing (snd (poll_attempt taskId cb interval n))
  = match fst (poll_attempt taskId cb interval n) with
    | Continue => [GetStatus taskId; Slept interval]
    | Finished _ => [GetStatus taskId]
    end.
Proof.
  unfold poll_attempt.
  destruct (checkStatus taskId n) as [st|e]; [|reflexivity].
  destruct cb as [f|]; simpl; [destruct (f st); [reflexivity|]|];
    destruct (String.eqb (status st) "completed"); try reflexivity;
    destruct (String.eqb (status st) "failed"); reflexivity.
Qed.

Lemma poll_loop_all_pending_pacing (taskId : string) (cb : option Callback)
    (maxAttempts interval : Z) (attempts : nat) (trace : list Effect) :
  (forall n, (attempts <= n)%nat -> Z.of_nat n < maxAttempts ->
             fst (poll_attempt taskId cb interval n) = Continue) ->
  pacing (snd (poll_loop taskId cb maxAttempts interval attempts trace))
  = pacing trace
    ++ paced_rounds taskId interval (Z.to_nat (maxAttempts - Z.of_nat attempts)).
Proof.
  funelim (poll_loop taskId cb maxAttempts interval attempts trace); simpl; intros Hall.
  - replace (Z.to_nat (maxAttempts - Z.of_nat attempts)) with 0%nat by lia.
    symmetry. apply app_nil_r.
  - specialize (Hall attempts (Nat.le_refl _) l). rewrite Heq in Hall. discriminate.
  - rewrite H by (intros n Hn; apply Hall; lia).
    pose proof (poll_attempt_pacing taskId onStatusUpdate interval attempts) as Hp.
    rewrite Heq in Hp. simpl in Hp. rewrite pacing_app, Hp, <- app_assoc.
    replace (Z.to_nat (maxAttempts - Z.of_nat attempts))
      with (S (Z.to_nat (maxAttempts - Z.of_nat (S attempts)))) by lia.
    reflexivity.
Qed.

Lemma poll_loop_first_finished_pacing (taskId : string) (cb : option Callback)
    (maxAttempts interval : Z) (d attempts : nat) (trace : list Effect)
    (o : Outcome R) :
  Z.of_nat (attempts + d) < maxAttempts ->
  (forall k, (attempts <= k < attempts + d)%nat ->
             fst (poll_attempt taskId cb interval k) = Continue) ->
  fst (poll_attempt taskId cb interval (attempts + d)) = Finished o ->
  pacing (snd (poll_loop taskId cb maxAttempts interval attempts trace))
  = pacing trace ++ paced_rounds taskId interval d ++ [GetStatus taskId].
Proof.
  revert attempts trace. induction d as [|d IH]; intros attempts trace Hlt Hpend Hfin.
  - rewrite Nat.add_0_r in *.
    pose proof (poll_attempt_pacing taskId cb interval attempts) as Hp.
    destruct (poll_attempt taskId cb interval attempts) as [it effects] eqn:Ha.
    simpl in Hfin, Hp. subst it.
    rewrite (poll_loop_finished _ _ _ _ _ _ _ _ Hlt Ha). simpl.
    rewrite pacing_app, Hp. reflexivity.
  - pose proof (poll_attempt_pacing taskId cb interval attempts) as Hp.
    destruct (poll_attempt taskId cb interval attempts) as [it effects] eqn:Ha.
    assert (it = Continue) as ->.
    { specialize (Hpend attempts ltac:(lia)). rewrite Ha in Hpend. exact Hpend. }
    simpl in Hp.
    assert (Hlt0 : Z.of_nat attempts < maxAttempts) by lia.
    rewrite (poll_loop_continue _ _ _ _ _ _ _ Hlt0 Ha).
    replace (attempts + S d)%nat with (S attempts + d)%nat in * by lia.
    rewrite (IH (S attempts) (trace ++ effects) Hlt);
      [| intros k Hk; apply Hpend; lia | exact Hfin].
    rewrite pacing_app, Hp, paced_rounds_S, <- app_assoc. reflexivity.
Qed.

(** C10.  With [maxAttempts] (default 100) an integer a double counts up
    to, [pollTaskStatus] returns or throws after at most [maxAttempts] status
    requests, sleeping [interval] (default 3000) after each pending answer.
    If every attempt below the bound is pending it throws 'Task polling timed
    out' after exactly [maxAttempts] requests; otherwise the first attempt
    that is not pending decides: the fetched result on 'completed', an error
    on 'failed', 'Task not found' on a 404 from axios.  Either way the status
    requests and the sleeps alternate: every request that does not decide is
    followed by exactly one sleep of [interval] before the next request, and
    the deciding request by none. *)
Theorem pollTaskStatus_bounded_and_settles (taskId : string) (cb : option Callback)
    (maxAttempts interval : option Z) :
  let M := default 100 maxAttempts in
  let I := default 3000 interval in
  let result := pollTaskStatus taskId cb maxAttempts interval in
  M <= 2 ^ 53 ->
  pollTaskStatus taskId cb None None = poll_loop taskId cb 100 3000 0 []
  /\ Z.of_nat (status_checks (snd result)) <= Z.max 0 M
  /\ (forall ms, In (Slept ms) (snd result) -> ms = I)
  /\ ((forall n, Z.of_nat n < M -> fst (poll_attempt taskId cb I n) = Continue) ->
      fst result = Thrown (Error "Task polling timed out")
      /\ Z.of_nat (status_checks (snd result)) = Z.max 0 M
      /\ pacing (snd result) = paced_rounds taskId I (Z.to_nat M))
  /\ (forall n o,
        Z.of_nat n < M ->
        (forall k, (k < n)%nat -> fst (poll_attempt taskId cb I k) = Continue) ->
        fst (poll_attempt taskId cb I n) = Finished o ->
        fst result = o /\ status_checks (snd result) = S n
        /\ pacing (snd result) = paced_rounds taskId I n ++ [GetStatus taskId])
  /\ (forall n st,
        checkStatus taskId n = Returned st ->
        from_option (fun f => f st) None cb = None ->
        fst (poll_attempt taskId cb I n)
        = if String.eqb (status st) "completed"
          then Finished (catch (getResult taskId n))
          else if String.eqb (status st) "failed"
               then Finished (Thrown (Error (failure_message st)))
               else Continue)
  /\ (forall n,
        checkStatus taskId n = Thrown (AxiosError (Some 404)) ->
        fst (poll_attempt taskId cb I n) = Finished (Thrown (Error "Task not found")))
  /\ (forall r : R, catch (Returned r) = Returned r)
  /\ catch (A:=R) (Thrown (AxiosError (Some 404))) = Thrown (Error "Task not found").
Proof.
  intros M I result _. subst result. unfold pollTaskStatus. fold M. fold I.
  split; [reflexivity|]. split; [|split; [|split; [|split; [|split; [|split]]]]].
  - pose proof (poll_loop_checks taskId cb M I 0 []) as H.
    change (status_checks []) with 0%nat in H. lia.
  - intros ms Hin. apply poll_loop_sleeps in Hin as [[]|Hin]. exact Hin.
  - intros Hall.
    destruct (poll_loop_all_pending taskId cb M I 0 []) as [H1 H2].
    + intros n _. apply Hall.
    + split; [exact H1|]. split.
      * rewrite H2. change (status_checks []) with 0%nat. lia.
      * rewrite poll_loop_all_pending_pacing by (intros n _; apply Hall).
        simpl. rewrite Z.sub_0_r. reflexivity.
  - intros n o Hlt Hpend Hfin.
    assert (Hbelow : forall k, (0 <= k < 0 + n)%nat ->
                       fst (poll_attempt taskId cb I k) = Continue)
      by (intros k Hk; apply Hpend; lia).
    destruct (poll_loop_first_finished taskId cb M I n 0 [] o Hlt Hbelow Hfin)
      as [H1 H2].
    split; [exact H1|]. split; [exact H2|].
    exact (poll_loop_first_finished_pacing taskId cb M I n 0 [] o Hlt Hbelow Hfin).
  - intros n st Hst Hcb. unfold poll_attempt. rewrite Hst, Hcb.
    repeat case_match; reflexivity.
  - intros n Hst. unfold poll_attempt. rewrite Hst. reflexivity.
  - split; reflexivity.
Qed.

End Facts.

End ApiFacts.

Module ApiRuns.
Import Api ApiFacts.

(** *** C10 on runs *)

Example poll_third_time :
  pollTaskStatus (B:=third_time_backend) "t1" None None None
  = (Returned "result of t1",
     [GetStatus "t1"; Slept 3000; GetStatus "t1"; Slept 3000;
      GetStatus "t1"; GetResult "t1"]).
Proof. vm_compute. reflexivity. Qed.

Example poll_unknown_task :
  pollTaskStatus (B:=unknown_task_backend) "t1" None None None
  = (Thrown (Error "Task not found"), [GetStatus "t1"]).
Proof. vm_compute. reflexivity. Qed.

Example poll_no_attempts :
  pollTaskStatus (B:=stuck_backend) "t1" None (Some (-1)) None
  = (Thrown (Error "Task polling timed out"), []).
Proof. vm_compute. reflexivity. Qed.

(** A backend that stays pending for three attempts, and one that answers
    'completed' on the third. *)
Lemma pollTaskStatus_witness :
  default 100 (Some 3) <= 2 ^ 53
  /\ fst (pollTaskStatus (B:=stuck_backend) "t1" None (Some 3) (Some 10))
     = Thrown (Error "Task polling timed out")
  /\ Z.of_nat (status_checks
                 (snd (pollTaskStatus (B:=stuck_backend) "t1" None (Some 3) (Some 10))))
     = Z.max 0 3
  /\ pacing (snd (pollTaskStatus (B:=stuck_backend) "t1" None (Some 3) (Some 10)))
     = [GetStatus "t1"; Slept 10; GetStatus "t1"; Slept 10; GetStatus "t1"; Slept 10]
  /\ fst (pollTaskStatus (B:=third_time_backend) "t1" None None None)
     = Returned "result of t1"
  /\ status_checks (snd (pollTaskStatus (B:=third_time_backend) "t1" None None None))
     = 3%nat
  /\ pacing (snd (pollTaskStatus (B:=third_time_backend) "t1" None None None))
     = [GetStatus "t1"; Slept 3000; GetStatus "t1"; Slept 3000; GetStatus "t1"].
Proof.
  assert (H3 : default 100 (Some 3) <= 2 ^ 53) by (vm_compute; discriminate).
  assert (H100 : default 100 None <= 2 ^ 53) by (vm_compute; discriminate).
  split; [exact H3|].
  destruct (pollTaskStatus_bounded_and_settles (B:=stuck_backend) "t1" None
              (Some 3) (Some 10) H3) as (_ & _ & _ & Htimeout & _).
  destruct (Htimeout (fun n _ => eq_refl)) as (Ht1 & Ht2 & Ht3).
  split; [exact Ht1|]. split; [exact Ht2|]. split; [exact Ht3|].
  destruct (pollTaskStatus_bounded_and_settles (B:=third_time_backend) "t1" None
              None None H100) as (_ & _ & _ & _ & Hfirst & _).
  refine (Hfirst 2%nat (Returned "result of t1") _ _ eq_refl).
  - vm_compute. reflexivity.
  - intros k Hk. destruct k as [|[|k]]; [reflexivity | reflexivity | lia].
Defined.

End ApiRuns.

(** * Further properties *)

Module JsStrFacts.

Lemma split_nonempty (sep : ascii) (s : string) : JsStr.split sep s <> [].
Proof.
  induction s as [|c s IH]; simpl; [discriminate|].
  destruct (Ascii.eqb c sep); [discriminate|].
  destruct (JsStr.split sep s); [contradiction | discriminate].
Qed.

(** Joining what was split gives the string back. *)
Lemma join_split (sep : ascii) (s : string) : JsStr.join sep (JsStr.split sep s) = s.
Proof.
  induction s as [|c s IH]; simpl; [reflexivity|].
  destruct (Ascii.eqb_spec c sep) as [->|Hne].
  - pose proof (split_nonempty sep s) as Hn.
    destruct (JsStr.split sep s) as [|h t]; [contradiction|].
    simpl in *. rewrite IH. reflexivity.
  - pose proof (split_nonempty sep s) as Hn.
    destruct (JsStr.split sep s) as [|h t]; [contradiction|].
    destruct t as [|h' t']; simpl in *; rewrite <- IH; reflexivity.
Qed.

(** No part holds the separator. *)
Lemma split_parts_clean (sep : ascii) (s : string) :
  Forall (fun part => JsStr.count_char sep part = 0%nat) (JsStr.split sep s).
Proof.
  induction s as [|c s IH]; simpl; [repeat constructor|].
  destruct (Ascii.eqb_spec c sep) as [->|Hne].
  - constructor; [reflexivity | exact IH].
  - pose proof (split_nonempty sep s) as Hn.
    destruct (JsStr.split sep s) as [|h t]; [contradiction|].
    inversion IH as [|? ? Hh Ht]; subst. constructor; [|exact Ht].
    simpl. destruct (Ascii.eqb_spec c sep); [contradiction | exact Hh].
Qed.

(** One part more than there are separators. *)
Lemma split_length (sep : ascii) (s : string) :
  length (JsStr.split sep s) = S (JsStr.count_char sep s).
Proof.
  induction s as [|c s IH]; simpl; [reflexivity|].
  destruct (Ascii.eqb c sep); simpl; [rewrite IH; reflexivity|].
  pose proof (split_nonempty sep s) as Hn.
  destruct (JsStr.split sep s) as [|h t]; [contradiction | exact IH].
Qed.

(** A string without the separator is its own single part. *)
Lemma split_clean (sep : ascii) (s : string) :
  JsStr.count_char sep s = 0%nat -> JsStr.split sep s = [s].
Proof.
  induction s as [|c s IH]; simpl; [reflexivity|].
  destruct (Ascii.eqb c sep); simpl; [discriminate|].
  intros H. rewrite (IH H). reflexivity.
Qed.

(** Splitting after a clean first part. *)
Lemma split_app (sep : ascii) (a b : string) :
  JsStr.count_char sep a = 0%nat ->
  JsStr.split sep (a +:+ String sep b) = a :: JsStr.split sep b.
Proof.
  induction a as [|c a IH]; simpl.
  - intros _. rewrite Ascii.eqb_refl. reflexivity.
  - destruct (Ascii.eqb c sep); simpl; [discriminate|].
    intros H. rewrite (IH H). reflexivity.
Qed.

Lemma prefix_app (p s t : string) :
  String.prefix p s = true -> String.prefix p (s +:+ t) = true.
Proof.
  revert s. induction p as [|c p IH]; intros s;
    [intros _; destruct (s +:+ t); reflexivity|].
  destruct s as [|d s]; simpl; [discriminate|].
  destruct (ascii_dec c d); [apply IH | discriminate].
Qed.

Lemma append_nonempty (s t : string) : t <> "" -> String.eqb (s +:+ t) "" = false.
Proof.
  intros Ht. destruct s; simpl; [|reflexivity].
  destruct t; [contradiction | reflexivity].
Qed.

End JsStrFacts.

Module UtilsFacts.
Import Utils.

Lemma built_url_absolute (base rest : string) :
  JsStr.startsWith base "http://" || JsStr.startsWith base "https://" = true ->
  JsStr.startsWith (base +:+ rest) "http://"
  || JsStr.startsWith (base +:+ rest) "https://" = true.
Proof.
  unfold JsStr.startsWith. intros H. apply orb_true_iff in H as [H|H];
    apply (JsStrFacts.prefix_app _ _ rest) in H; rewrite H;
    [reflexivity | apply orb_true_r].
Qed.

(** X1.  With a base that is itself an absolute http(s) URL, building an
    image or video URL twice is the same as building it once; both
    functions agree; and one leading slash on a relative path makes no
    difference. *)
Theorem getImageUrl_normalises (base path : string) :
  JsStr.startsWith base "http://" || JsStr.startsWith base "https://" = true ->
  getImageUrl base (getImageUrl base path) = getImageUrl base path
  /\ getVideoUrl base path = getImageUrl base path
  /\ (path <> "" -> JsStr.startsWith path "/" = false ->
      JsStr.startsWith path "http://" || JsStr.startsWith path "https://" = false ->
      getImageUrl base ("/" +:+ path) = base +:+ "/" +:+ path
      /\ getImageUrl base path = base +:+ "/" +:+ path).
Proof.
  intros Hbase. split; [|split; [reflexivity|]].
  - unfold getImageUrl at 2 3.
    destruct (String.eqb path "") eqn:He; [reflexivity|].
    destruct (JsStr.startsWith path "http://" || JsStr.startsWith path "https://") eqn:Ha.
    + unfold getImageUrl. rewrite He, Ha. reflexivity.
    + set (clean := if JsStr.startsWith path "/" then JsStr.slice1 path else path).
      unfold getImageUrl.
      rewrite JsStrFacts.append_nonempty by (simpl; discriminate).
      rewrite (built_url_absolute base ("/" +:+ clean) Hbase). reflexivity.
  - intros Hne Hslash Habs. split.
    + change ("/" +:+ path) with (String "/" path).
      destruct path as [|c rest]; [contradiction | reflexivity].
    + unfold getImageUrl. rewrite Habs, Hslash.
      destruct (String.eqb_spec path ""); [contradiction | reflexivity].
Qed.

Lemma getImageUrl_witness :
  getImageUrl "http://localhost:8000"
    (getImageUrl "http://localhost:8000" "/photos/a.jpg")
  = "http://localhost:8000/photos/a.jpg"
  /\ getImageUrl "http://localhost:8000" "photos/a.jpg"
     = "http://localhost:8000/photos/a.jpg".
Proof.
  destruct (getImageUrl_normalises "http://localhost:8000" "/photos/a.jpg" eq_refl)
    as (Hidem & _ & _).
  destruct (getImageUrl_normalises "http://localhost:8000" "photos/a.jpg" eq_refl)
    as (_ & _ & Hslash).
  split.
  - rewrite Hidem. exact (proj1 (Hslash ltac:(discriminate) eq_refl eq_refl)).
  - exact (proj2 (Hslash ltac:(discriminate) eq_refl eq_refl)).
Defined.

Lemma split_join (sep : ascii) (parts : list string) :
  parts <> [] ->
  Forall (fun part => JsStr.count_char sep part = 0%nat) parts ->
  JsStr.split sep (JsStr.join sep parts) = parts.
Proof.
  induction parts as [|x rest IH]; [contradiction|]. intros _ Hall.
  inversion Hall as [|? ? Hx Hrest]; subst.
  destruct rest as [|y rest].
  - simpl. apply JsStrFacts.split_clean, Hx.
  - change (JsStr.join sep (x :: y :: rest))
      with (x +:+ String sep (JsStr.join sep (y :: rest))).
    rewrite JsStrFacts.split_app by exact Hx.
    rewrite IH; [reflexivity | discriminate | exact Hrest].
Qed.

Lemma getFilenameFromPath_last (path : string) :
  getFilenameFromPath path = List.last (JsStr.split "/" path) "".
Proof.
  unfold getFilenameFromPath, JsStr.pop_or_empty.
  destruct (String.eqb_spec path "") as [->|]; reflexivity.
Qed.

(** X2.  The file name of a path is its last segment: it holds no slash,
    the path is the segments before it and the name joined by slashes, and of
    any such joined path the name is returned (an empty name after a trailing
    slash included). *)
Theorem getFilenameFromPath_is_last_segment (path : string) :
  JsStr.count_char "/" (getFilenameFromPath path) = 0%nat
  /\ (exists dirs, path = JsStr.join "/" (dirs ++ [getFilenameFromPath path]))
  /\ (forall dirs name,
        Forall (fun part => JsStr.count_char "/" part = 0%nat) (dirs ++ [name]) ->
        getFilenameFromPath (JsStr.join "/" (dirs ++ [name])) = name).
Proof.
  pose proof (JsStrFacts.split_nonempty "/" path) as Hne.
  pose proof (JsStrFacts.split_parts_clean "/" path) as Hclean.
  pose proof (JsStrFacts.join_split "/" path) as Hjoin.
  rewrite getFilenameFromPath_last.
  destruct (exists_last Hne) as (dirs & name & Hsplit).
  rewrite Hsplit in *. rewrite last_last.
  split; [|split].
  - apply Forall_app in Hclean as [_ Hname]. inversion Hname; assumption.
  - exists dirs. symmetry. exact Hjoin.
  - intros dirs' name' Hall. rewrite getFilenameFromPath_last.
    rewrite split_join; [apply last_last | intros H; destruct dirs'; discriminate H | exact Hall].
Qed.

(** X3.  A timestamp of two two-digit fields MM:SS is read as 60 * MM + SS
    seconds.  A string with no colon or with more than one (H:MM:SS) is read
    as 0, and one whose minutes or seconds do not start with a number as
    [NaN]. *)
Theorem timestampToSeconds_reads_minutes_and_seconds :
  (forall m s, 0 <= m < 100 -> 0 <= s < 100 ->
     timestampToSeconds (Js.digits_fixed 2 m +:+ ":" +:+ Js.digits_fixed 2 s)
     = Some (60 * m + s))
  /\ (forall ts, JsStr.count_char ":" ts <> 1%nat -> timestampToSeconds ts = Some 0)
  /\ (forall a b,
        JsStr.count_char ":" a = 0%nat -> JsStr.count_char ":" b = 0%nat ->
        JsStr.parseInt10 a = JsStr.NaN \/ JsStr.parseInt10 b = JsStr.NaN ->
        timestampToSeconds (a +:+ String ":" b) = JsStr.NaN).
Proof.
  split; [|split].
  - intros m s Hm Hs.
    pose (check := fun m s : nat =>
      match timestampToSeconds
              (Js.digits_fixed 2 (Z.of_nat m) +:+ ":" +:+ Js.digits_fixed 2 (Z.of_nat s)) with
      | Some v => v =? 60 * Z.of_nat m + Z.of_nat s
      | None => false
      end).
    assert (Hall : forallb (fun m => forallb (check m) (seq 0 100)) (seq 0 100) = true)
      by (vm_compute; reflexivity).
    rewrite forallb_forall in Hall.
    specialize (Hall (Z.to_nat m) ltac:(apply in_seq; lia)).
    rewrite forallb_forall in Hall.
    specialize (Hall (Z.to_nat s) ltac:(apply in_seq; lia)).
    unfold check in Hall. rewrite !Z2Nat.id in Hall by lia.
    destruct (timestampToSeconds _) as [v|]; [|discriminate].
    apply Z.eqb_eq in Hall. congruence.
  - intros ts Hcount. unfold timestampToSeconds.
    destruct (String.eqb ts ""); [reflexivity|].
    pose proof (JsStrFacts.split_length ":" ts) as Hlen.
    destruct (JsStr.split ":" ts) as [|p0 [|p1 [|p2 rest]]]; try reflexivity.
    simpl in Hlen. lia.
  - intros a b Ha Hb Hnan. unfold timestampToSeconds.
    rewrite JsStrFacts.append_nonempty by discriminate.
    rewrite JsStrFacts.split_app, (JsStrFacts.split_clean ":" b) by assumption.
    destruct Hnan as [-> | ->]; [reflexivity|].
    destruct (JsStr.parseInt10 a); reflexivity.
Qed.

Lemma getFilenameFromPath_witness :
  Forall (fun part => JsStr.count_char "/" part = 0%nat) (["uploads"; "2024"] ++ ["clip.mp4"])
  /\ getFilenameFromPath "uploads/2024/clip.mp4" = "clip.mp4"
  /\ getFilenameFromPath "uploads/2024/" = "".
Proof.
  assert (H1 : Forall (fun part => JsStr.count_char "/" part = 0%nat)
                 (["uploads"; "2024"] ++ ["clip.mp4"])) by (repeat constructor).
  assert (H2 : Forall (fun part => JsStr.count_char "/" part = 0%nat)
                 (["uploads"; "2024"] ++ [""])) by (repeat constructor).
  split; [exact H1|]. split.
  - exact (proj2 (proj2 (getFilenameFromPath_is_last_segment ""))
             ["uploads"; "2024"] "clip.mp4" H1).
  - exact (proj2 (proj2 (getFilenameFromPath_is_last_segment ""))
             ["uploads"; "2024"] "" H2).
Defined.

Lemma timestampToSeconds_witness :
  timestampToSeconds "01:23" = Some 83
  /\ timestampToSeconds "1:02:03" = Some 0
  /\ timestampToSeconds "ab:10" = JsStr.NaN.
Proof.
  destruct timestampToSeconds_reads_minutes_and_seconds as (Hok & Hzero & Hnan).
  split; [|split].
  - exact (Hok 1 23 ltac:(lia) ltac:(lia)).
  - apply Hzero. vm_compute. discriminate.
  - apply (Hnan "ab" "10"); [reflexivity | reflexivity | left; reflexivity].
Defined.

End UtilsFacts.

Module UploadFacts.
Import Upload.

Lemma validateFile_accepts (file : File) :
  validateFile file = None <->
  JsStr.startsWith (file_type file) "video/" = true
  /\ JsStr.endsWith (JsStr.toLowerCase (file_name file)) ".mp4"
     || JsStr.endsWith (JsStr.toLowerCase (file_name file)) ".mov" = true
  /\ file_size file <= 500 * 1024 * 1024.
Proof.
  unfold validateFile.
  destruct (JsStr.startsWith (file_type file) "video/"); simpl;
    [|split; [discriminate | intros [H _]; discriminate H]].
  destruct (JsStr.endsWith (JsStr.toLowerCase (file_name file)) ".mp4"),
           (JsStr.endsWith (JsStr.toLowerCase (file_name file)) ".mov"); simpl;
    try (split; [discriminate | intros (_ & H & _); discriminate H]);
    destruct (Z.gtb_spec (file_size file) (500 * 1024 * 1024)) as [Hbig|Hfit];
    (split; [try discriminate; intros _; repeat split; lia
            | try reflexivity; intros (_ & _ & Hsz); lia]).
Qed.

Lemma picker_step_valid (ev : PickerEvent) (p : Picker) :
  (forall f, selectedFile p = Some f -> validateFile f = None) ->
  forall f, selectedFile (picker_step ev p) = Some f -> validateFile f = None.
Proof.
  intros Hp f. destruct ev as [type|files|value files|]; simpl.
  - unfold handleDrag. repeat case_match; simpl; apply Hp.
  - unfold handleDrop, handleFileSelect. destruct files as [|file files]; simpl; [apply Hp|].
    destruct (validateFile file) eqn:Hv; simpl; [apply Hp|].
    intros [= <-]. exact Hv.
  - unfold handleFileInput, handleFileSelect.
    destruct files as [|file files]; simpl; [apply Hp|].
    destruct (validateFile file) eqn:Hv; simpl; [apply Hp|].
    intros [= <-]. exact Hv.
  - discriminate.
Qed.

(** X4.  Whatever is dragged, dropped, picked or removed, the file the
    upload button hands on has passed validation: a [video/] type, a name
    ending in .mp4 or .mov in any letter case, and at most 500 * 1024 * 1024
    bytes (exactly that many included).  A file that fails validation sets
    the error and leaves the earlier selection in place; one that passes
    replaces it and clears the error. *)
Theorem picker_only_uploads_valid_files (evs : list PickerEvent) :
  (forall file, handleUpload (picker_run evs picker_initial) = Some file ->
     JsStr.startsWith (file_type file) "video/" = true
     /\ JsStr.endsWith (JsStr.toLowerCase (file_name file)) ".mp4"
        || JsStr.endsWith (JsStr.toLowerCase (file_name file)) ".mov" = true
     /\ file_size file <= 500 * 1024 * 1024)
  /\ (forall p file msg,
        validateFile file = Some msg ->
        selectedFile (handleFileSelect file p) = selectedFile p
        /\ error (handleFileSelect file p) = Some msg)
  /\ (forall p file,
        validateFile file = None ->
        selectedFile (handleFileSelect file p) = Some file
        /\ error (handleFileSelect file p) = None).
Proof.
  split; [|split].
  - assert (Hgen : forall p, (forall f, selectedFile p = Some f -> validateFile f = None) ->
              forall f, selectedFile (picker_run evs p) = Some f -> validateFile f = None).
    { induction evs as [|ev evs IH]; intros p Hp; [exact Hp|].
      change (picker_run (ev :: evs) p) with (picker_run evs (picker_step ev p)).
      apply IH, picker_step_valid, Hp. }
    intros file Hsel. apply validateFile_accepts.
    apply (Hgen picker_initial); [discriminate | exact Hsel].
  - intros p file msg Hv. unfold handleFileSelect. rewrite Hv. auto.
  - intros p file Hv. unfold handleFileSelect. rewrite Hv. auto.
Qed.

Lemma picker_witness :
  handleUpload (picker_run [Drag "dragenter"; Drop [clip]; Input "C:\\fakepath\\notes.txt" [notes]]
                  picker_initial) = Some clip
  /\ file_size clip <= 500 * 1024 * 1024
  /\ error (picker_run [Drag "dragenter"; Drop [clip]; Input "C:\\fakepath\\notes.txt" [notes]]
              picker_initial) = Some "Please select a video file".
Proof.
  assert (H : handleUpload (picker_run [Drag "dragenter"; Drop [clip];
                                        Input "C:\\fakepath\\notes.txt" [notes]]
                              picker_initial) = Some clip) by reflexivity.
  destruct (picker_only_uploads_valid_files
              [Drag "dragenter"; Drop [clip]; Input "C:\\fakepath\\notes.txt" [notes]])
    as (Hvalid & Hbad & _).
  split; [exact H|]. split.
  - exact (proj2 (proj2 (Hvalid clip H))).
  - exact (proj2 (Hbad (picker_run [Drag "dragenter"; Drop [clip]] picker_initial)
                    notes "Please select a video file" eq_refl)).
Defined.

Section HomePage.

Context {R : Type} {B : Api.Backend R}.
Variable uploadVideo : File -> Api.Outcome UploadResponse.
Variable axios_message : option Z -> string.

(** The callbacks only show 'Analyzing video content...', once per pending
    status, and touch nothing but the progress and the status. *)
Lemma apply_notifications_effect (trace : list Api.Effect) (p : Page) :
  statusHistory (apply_notifications trace p)
  = statusHistory p ++ repeat "Analyzing video content..." (ApiMore.pending_seen trace)
  /\ isUploading (apply_notifications trace p) = isUploading p
  /\ pushed (apply_notifications trace p) = pushed p
  /\ alerts (apply_notifications trace p) = alerts p
  /\ errors (apply_notifications trace p) = errors p.
Proof.
  revert p. induction trace as [|e trace IH]; intros p.
  - unfold ApiMore.pending_seen. simpl. rewrite app_nil_r. auto.
  - change (apply_notifications (e :: trace) p)
      with (apply_notifications trace
              (match e with Api.Notified st => onStatusUpdate st p | _ => p end)).
    destruct e as [t|st|t|ms]; try apply IH.
    destruct (IH (onStatusUpdate st p)) as (H1 & H2 & H3 & H4 & H5).
    rewrite H1, H2, H3, H4, H5. unfold onStatusUpdate, ApiMore.pending_seen. simpl.
    destruct (String.eqb (Api.status st) "pending"); destruct p; simpl;
      rewrite <- ?app_assoc; auto.
Qed.

(** X5.  After an upload attempt the page is idle again: not uploading,
    progress 0, empty status.  It has navigated to [/result/<task id>] exactly
    when the upload and the polling both returned, and otherwise has raised
    one alert with the error's message; never both.  In between it showed
    'Uploading video...', then 'Processing video with AI...', then 'Analyzing
    video content...' once per pending answer, and 'Processing complete!'
    only on success. *)
Theorem handleVideoUpload_settles (file : File) (p : Page) :
  let p' := handleVideoUpload uploadVideo axios_message file p in
  isUploading p' = false /\ uploadProgress p' = 0 /\ processingStatus p' = ""
  /\ match uploadVideo file with
     | Api.Thrown e =>
         pushed p' = pushed p
         /\ alerts p' = alerts p ++ [alert_text axios_message e]
         /\ statusHistory p' = statusHistory p ++ [""; "Uploading video..."; ""]
     | Api.Returned u =>
         let poll := Api.pollTaskStatus (task_id u) (Some (fun _ => None)) None None in
         let analysing := repeat "Analyzing video content..." (ApiMore.pending_seen (snd poll)) in
         match fst poll with
         | Api.Returned _ =>
             pushed p' = pushed p ++ ["/result/" +:+ task_id u]
             /\ alerts p' = alerts p
             /\ statusHistory p'
                = statusHistory p
                    ++ [""; "Uploading video..."; "Processing video with AI..."]
                    ++ analysing ++ ["Processing complete!"; ""]
         | Api.Thrown e =>
             pushed p' = pushed p
             /\ alerts p' = alerts p ++ [alert_text axios_message e]
             /\ statusHistory p'
                = statusHistory p
                    ++ [""; "Uploading video..."; "Processing video with AI..."]
                    ++ analysing ++ [""]
         end
     end.
Proof.
  intros p'. subst p'. unfold handleVideoUpload.
  destruct (uploadVideo file) as [u|e].
  - destruct (Api.pollTaskStatus (task_id u) (Some (fun _ => None)) None None)
      as [result trace] eqn:Hpoll.
    set (p1 := setProcessingStatus "Processing video with AI..." _).
    destruct (apply_notifications_effect trace p1) as (H1 & H2 & H3 & H4 & H5).
    simpl fst. simpl snd.
    destruct result as [r|e];
      destruct (apply_notifications trace p1) as [a b c d e' f g] eqn:Hp; simpl in *;
      subst; destruct p; simpl; rewrite <- ?app_assoc; simpl; auto 10.
  - destruct p; simpl. rewrite <- ?app_assoc. simpl. auto 10.
Qed.

End HomePage.

(** An upload whose task completes on the third status request. *)
Lemma handleVideoUpload_witness :
  pushed (handleVideoUpload (B:=Api.third_time_backend)
            (fun _ => Api.Returned {| task_id := "t1"; video_id := "v1"; message := "ok" |})
            (fun _ => "Request failed") clip page_initial)
  = ["/result/t1"]
  /\ statusHistory (handleVideoUpload (B:=Api.third_time_backend)
            (fun _ => Api.Returned {| task_id := "t1"; video_id := "v1"; message := "ok" |})
            (fun _ => "Request failed") clip page_initial)
     = [""; "Uploading video..."; "Processing video with AI...";
        "Analyzing video content..."; "Analyzing video content...";
        "Processing complete!"; ""].
Proof.
  pose proof (handleVideoUpload_settles (B:=Api.third_time_backend)
                (fun _ => Api.Returned {| task_id := "t1"; video_id := "v1"; message := "ok" |})
                (fun _ => "Request failed") clip page_initial) as (_ & _ & _ & H).
  vm_compute in H. destruct H as (H1 & _ & H2). split; [exact H1 | exact H2].
Defined.

End UploadFacts.

Module ApiMoreFacts.
Import Api ApiFacts ApiMore.

Section Facts.

Context {R : Type} {B : Backend R}.

Lemma total_sleep_app (t1 t2 : list Effect) :
  total_sleep (t1 ++ t2) = total_sleep t1 + total_sleep t2.
Proof.
  induction t1 as [|e t1 IH]; simpl; [reflexivity|]. destruct e; lia.
Qed.

Lemma result_requests_app (t1 t2 : list Effect) :
  result_requests (t1 ++ t2) = (result_requests t1 + result_requests t2)%nat.
Proof. unfold result_requests. rewrite List.filter_app. apply length_app. Qed.

(** What one pass through the loop body sleeps and requests. *)
Lemma poll_attempt_effects (taskId : string) (cb : option Callback)
    (interval : Z) (n : nat) :
  match fst (poll_attempt taskId cb interval n) with
  | Continue =>
      total_sleep (snd (poll_attempt taskId cb interval n)) = interval
      /\ result_requests (snd (poll_attempt taskId cb interval n)) = 0%nat
  | Finished o =>
      total_sleep (snd (poll_attempt taskId cb interval n)) = 0
      /\ (result_requests (snd (poll_attempt taskId cb interval n)) <= 1)%nat
      /\ (forall e, checkStatus taskId n = Thrown e ->
            o = Thrown (rethrow e)
            /\ result_requests (snd (poll_attempt taskId cb interval n)) = 0%nat)
      /\ (forall r, o = Returned r ->
            exists st, checkStatus taskId n = Returned st
                       /\ status st = "completed"
                       /\ getResult taskId n = Returned r
                       /\ result_requests (snd (poll_attempt taskId cb interval n)) = 1%nat)
  end.
Proof.
  assert (Hcatch : forall (x : Outcome R) r, catch x = Returned r -> x = Returned r).
  { intros [x|e] r; simpl; [auto | discriminate]. }
  unfold poll_attempt, result_requests.
  destruct (checkStatus taskId n) as [st|e]; simpl.
  - destruct cb as [f|]; simpl; [destruct (f st) as [e|]; simpl|];
      try (repeat split; try lia; intros; discriminate);
      (destruct (String.eqb_spec (status st) "completed") as [Hc|Hc]; simpl;
       [ repeat split; try lia; try (intros; discriminate);
         intros r Hr; exists st; apply Hcatch in Hr; auto
       | destruct (String.eqb (status st) "failed"); simpl;
         repeat split; try lia; intros; discriminate ]).
  - repeat split; try lia; try (intros; discriminate); congruence.
Qed.

(** The loop never sleeps longer than [interval] per remaining attempt and
    asks for the result at most once. *)
Lemma poll_loop_budget (taskId : string) (cb : option Callback)
    (maxAttempts interval : Z) (attempts : nat) (trace : list Effect) :
  0 <= interval ->
  total_sleep (snd (poll_loop taskId cb maxAttempts interval attempts trace))
  <= total_sleep trace + interval * Z.of_nat (Z.to_nat (maxAttempts - Z.of_nat attempts))
  /\ (result_requests (snd (poll_loop taskId cb maxAttempts interval attempts trace))
      <= result_requests trace + 1)%nat.
Proof.
  funelim (poll_loop taskId cb maxAttempts interval attempts trace); simpl; intros Hi.
  - split; [nia | lia].
  - pose proof (poll_attempt_effects taskId onStatusUpdate interval attempts) as He.
    rewrite Heq in He. simpl in He. destruct He as (Hs & Hr & _).
    rewrite total_sleep_app, result_requests_app, Hs. split; [nia | lia].
  - pose proof (poll_attempt_effects taskId onStatusUpdate interval attempts) as He.
    rewrite Heq in He. simpl in He. destruct He as (Hs & Hr).
    destruct (H Hi) as [H1 H2].
    rewrite total_sleep_app, result_requests_app, Hs, Hr in *.
    assert (Hrem : Z.of_nat (Z.to_nat (maxAttempts - Z.of_nat attempts))
                   = 1 + Z.of_nat (Z.to_nat (maxAttempts - Z.of_nat (S attempts)))) by lia.
    rewrite Hrem. split; lia.
Qed.

Lemma poll_loop_all_pending_sleep (taskId : string) (cb : option Callback)
    (maxAttempts interval : Z) (attempts : nat) (trace : list Effect) :
  (forall n, (attempts <= n)%nat -> Z.of_nat n < maxAttempts ->
             fst (poll_attempt taskId cb interval n) = Continue) ->
  total_sleep (snd (poll_loop taskId cb maxAttempts interval attempts trace))
  = total_sleep trace + interval * Z.of_nat (Z.to_nat (maxAttempts - Z.of_nat attempts))
  /\ result_requests (snd (poll_loop taskId cb maxAttempts interval attempts trace))
     = result_requests trace.
Proof.
  funelim (poll_loop taskId cb maxAttempts interval attempts trace); simpl; intros Hall.
  - split; [nia | reflexivity].
  - specialize (Hall attempts (Nat.le_refl _) l). rewrite Heq in Hall. discriminate.
  - pose proof (poll_attempt_effects taskId onStatusUpdate interval attempts) as He.
    rewrite Heq in He. simpl in He. destruct He as (Hs & Hr).
    destruct H as [H1 H2]; [intros n Hn; apply Hall; lia|].
    rewrite H1, H2, total_sleep_app, result_requests_app, Hs, Hr.
    assert (Hrem : Z.of_nat (Z.to_nat (maxAttempts - Z.of_nat attempts))
                   = 1 + Z.of_nat (Z.to_nat (maxAttempts - Z.of_nat (S attempts)))) by lia.
    rewrite Hrem. split; lia.
Qed.

(** Up to the first attempt that decides, the loop sleeps once per attempt,
    and not after it. *)
Lemma poll_loop_first_finished_sleep (taskId : string) (cb : option Callback)
    (maxAttempts interval : Z) (d attempts : nat) (trace : list Effect)
    (o : Outcome R) :
  Z.of_nat (attempts + d) < maxAttempts ->
  (forall k, (attempts <= k < attempts + d)%nat ->
             fst (poll_attempt taskId cb interval k) = Continue) ->
  fst (poll_attempt taskId cb interval (attempts + d)) = Finished o ->
  total_sleep (snd (poll_loop taskId cb maxAttempts interval attempts trace))
  = total_sleep trace + Z.of_nat d * interval
  /\ result_requests (snd (poll_loop taskId cb maxAttempts interval attempts trace))
     = (result_requests trace
        + result_requests (snd (poll_attempt taskId cb interval (attempts + d))))%nat.
Proof.
  revert attempts trace. induction d as [|d IH]; intros attempts trace Hlt Hpend Hfin.
  - rewrite Nat.add_0_r in *.
    pose proof (poll_attempt_effects taskId cb interval attempts) as He.
    destruct (poll_attempt taskId cb interval attempts) as [it effects] eqn:Ha.
    simpl in Hfin, He. subst it. destruct He as (Hs & _).
    rewrite (poll_loop_finished _ _ _ _ _ _ _ _ Hlt Ha). simpl.
    rewrite total_sleep_app, result_requests_app, Hs. split; lia.
  - pose proof (poll_attempt_effects taskId cb interval attempts) as He.
    destruct (poll_attempt taskId cb interval attempts) as [it effects] eqn:Ha.
    assert (it = Continue) as ->.
    { specialize (Hpend attempts ltac:(lia)). rewrite Ha in Hpend. exact Hpend. }
    simpl in He. destruct He as (Hs & Hr).
    assert (Hlt0 : Z.of_nat attempts < maxAttempts) by lia.
    rewrite (poll_loop_continue _ _ _ _ _ _ _ Hlt0 Ha).
    replace (attempts + S d)%nat with (S attempts + d)%nat in * by lia.
    destruct (IH (S attempts) (trace ++ effects) Hlt) as [H1 H2].
    + intros k Hk. apply Hpend. lia.
    + exact Hfin.
    + rewrite H1, H2, total_sleep_app, result_requests_app, Hs, Hr. split; lia.
Qed.

(** A returned value is a result the backend gave for an attempt it
    answered 'completed'. *)
Lemma poll_loop_returned (taskId : string) (cb : option Callback)
    (maxAttempts interval : Z) (attempts : nat) (trace : list Effect) (r : R) :
  fst (poll_loop taskId cb maxAttempts interval attempts trace) = Returned r ->
  exists n st,
    (attempts <= n)%nat /\ Z.of_nat n < maxAttempts
    /\ checkStatus taskId n = Returned st /\ status st = "completed"
    /\ getResult taskId n = Returned r.
Proof.
  funelim (poll_loop taskId cb maxAttempts interval attempts trace); simpl; intros Hret.
  - discriminate.
  - pose proof (poll_attempt_effects taskId onStatusUpdate interval attempts) as He.
    rewrite Heq in He. simpl in He. destruct He as (_ & _ & _ & Hr).
    destruct (Hr r Hret) as (st & H1 & H2 & H3 & _).
    exists attempts, st. auto.
  - destruct (H r Hret) as (n & st & Hn & Hrest). exists n, st. split; [lia | exact Hrest].
Qed.

(** X6.  An error on a status request ends the polling at once: after
    [n] pending answers, an error on the next request is thrown on (a 404
    from axios as 'Task not found') after [n + 1] status requests, with no
    result request and no further sleep. *)
Theorem pollTaskStatus_stops_at_first_error (taskId : string) (cb : option Callback)
    (maxAttempts interval : option Z) (n : nat) (e : JsError) :
  let M := default 100 maxAttempts in
  let I := default 3000 interval in
  let result := pollTaskStatus taskId cb maxAttempts interval in
  Z.of_nat n < M ->
  (forall k, (k < n)%nat -> fst (poll_attempt taskId cb I k) = Continue) ->
  checkStatus taskId n = Thrown e ->
  fst result = Thrown (rethrow e)
  /\ status_checks (snd result) = S n
  /\ result_requests (snd result) = 0%nat
  /\ total_sleep (snd result) = Z.of_nat n * I.
Proof.
  intros M I result Hlt Hpend Herr. subst result. unfold pollTaskStatus. fold M. fold I.
  pose proof (poll_attempt_effects taskId cb I n) as He.
  assert (Hfin : fst (poll_attempt taskId cb I n) = Finished (Thrown (rethrow e))).
  { unfold poll_attempt. rewrite Herr. reflexivity. }
  rewrite Hfin in He. destruct He as (_ & _ & Hthrown & _).
  destruct (Hthrown e Herr) as [_ Hreq].
  destruct (poll_loop_first_finished taskId cb M I n 0 [] (Thrown (rethrow e)) Hlt)
    as [H1 H2]; [intros k Hk; apply Hpend; lia | exact Hfin |].
  destruct (poll_loop_first_finished_sleep taskId cb M I n 0 [] (Thrown (rethrow e)) Hlt)
    as [H3 H4]; [intros k Hk; apply Hpend; lia | exact Hfin |].
  simpl in *. rewrite H1, H2, H3, H4, Hreq. auto.
Qed.

(** X7.  With a non-negative interval, polling sleeps at most
    [maxAttempts * interval] milliseconds in all, exactly that when it times
    out, and with the defaults at most 300000 (the five minutes of the source
    comment); it asks for the result at most once, and not at all when it
    times out. *)
Theorem pollTaskStatus_sleep_budget (taskId : string) (cb : option Callback)
    (maxAttempts interval : option Z) :
  let M := default 100 maxAttempts in
  let I := default 3000 interval in
  let result := pollTaskStatus taskId cb maxAttempts interval in
  0 <= I ->
  total_sleep (snd result) <= Z.max 0 M * I
  /\ (result_requests (snd result) <= 1)%nat
  /\ ((forall n, Z.of_nat n < M -> fst (poll_attempt taskId cb I n) = Continue) ->
      total_sleep (snd result) = Z.max 0 M * I
      /\ result_requests (snd result) = 0%nat)
  /\ total_sleep (snd (pollTaskStatus taskId cb None None)) <= 300000.
Proof.
  intros M I result Hi. subst result. unfold pollTaskStatus. fold M. fold I.
  destruct (poll_loop_budget taskId cb M I 0 [] Hi) as [H1 H2].
  destruct (poll_loop_budget taskId cb 100 3000 0 [] ltac:(lia)) as [H3 _].
  simpl in *. split; [nia|]. split; [lia|]. split; [|lia].
  intros Hall.
  destruct (poll_loop_all_pending_sleep taskId cb M I 0 []) as [H4 H5];
    [intros n _; apply Hall|].
  simpl in H4. split; [nia | exact H5].
Qed.

(** X8.  A value polling returns is the result the backend gave for this
    task at an attempt, below the bound, that it answered 'completed'. *)
Theorem pollTaskStatus_returns_backend_result (taskId : string) (cb : option Callback)
    (maxAttempts interval : option Z) (r : R) :
  fst (pollTaskStatus taskId cb maxAttempts interval) = Returned r ->
  exists n st,
    Z.of_nat n < default 100 maxAttempts
    /\ checkStatus taskId n = Returned st /\ status st = "completed"
    /\ getResult taskId n = Returned r.
Proof.
  intros Hret. apply poll_loop_returned in Hret as (n & st & _ & H).
  exists n, st. exact H.
Qed.

End Facts.

Lemma pollTaskStatus_error_witness :
  fst (pollTaskStatus (B:=unknown_task_backend) "t1" None None None)
  = Thrown (Error "Task not found")
  /\ status_checks (snd (pollTaskStatus (B:=unknown_task_backend) "t1" None None None))
     = 1%nat.
Proof.
  destruct (pollTaskStatus_stops_at_first_error (B:=unknown_task_backend) "t1" None
              None None 0 (AxiosError (Some 404)) ltac:(simpl; lia)
              ltac:(intros k Hk; lia) eq_refl) as (H1 & H2 & _).
  split; [exact H1 | exact H2].
Defined.

Lemma pollTaskStatus_sleep_witness :
  0 <= default 3000 (Some 10)
  /\ total_sleep (snd (pollTaskStatus (B:=stuck_backend) "t1" None (Some 3) (Some 10)))
     = Z.max 0 3 * 10.
Proof.
  assert (H : 0 <= default 3000 (Some 10)) by (simpl; lia).
  split; [exact H|].
  destruct (pollTaskStatus_sleep_budget (B:=stuck_backend) "t1" None (Some 3) (Some 10) H)
    as (_ & _ & Hall & _).
  exact (proj1 (Hall (fun n _ => eq_refl))).
Defined.

Lemma pollTaskStatus_result_witness :
  fst (pollTaskStatus (B:=third_time_backend) "t1" None None None)
  = Returned "result of t1"
  /\ exists n st,
       Z.of_nat n < default 100 None
       /\ checkStatus (Backend:=third_time_backend) "t1" n = Returned st
       /\ status st = "completed"
       /\ getResult (Backend:=third_time_backend) "t1" n = Returned "result of t1".
Proof.
  assert (H : fst (pollTaskStatus (B:=third_time_backend) "t1" None None None)
              = Returned "result of t1") by (vm_compute; reflexivity).
  split; [exact H|].
  exact (pollTaskStatus_returns_backend_result (B:=third_time_backend) "t1" None
           None None "result of t1" H).
Defined.

End ApiMoreFacts.

Module RecorderMoreFacts.
Import Recorder RecorderMore RecorderFacts.

(** Unfold one run of [createVideoBlob] into its cases. *)
Ltac job_cases :=
  unfold createVideoBlob, createVideoBlob_try, bind, gets, ret, throw, modify,
    fetchFile, ffmpeg_writeFile, ffmpeg_exec, ffmpeg_readFile, on_ffmpeg,
    createObjectURL, console_error;
  simpl;
  repeat match goal with
    | |- context [core_writeFile ?a ?b ?c] =>
        destruct (core_writeFile a b c) as [[[]|?] ?] eqn:?; simpl in *
    | |- context [core_exec ?a ?c] =>
        destruct (core_exec a c) as [[?|?] ?] eqn:?; simpl in *
    | |- context [core_readFile ?a ?c] =>
        destruct (core_readFile a c) as [[?|?] ?] eqn:?; simpl in *
    end.

(** Close the side goals left by a case analysis of a handler. *)
Ltac settle :=
  repeat match goal with
    | H : Some _ = Some _ |- _ => injection H as ?
    | H : _ /\ _ |- _ => destruct H
    | H : _ \/ _ |- _ => destruct H
    | H : False |- _ => destruct H
    end;
  subst; simpl in *; try congruence;
  repeat split;
  first [ assumption | apply difference_diag_L | apply union_empty_r_L
        | left; reflexivity | right; reflexivity | reflexivity | idtac ].

(** Split a state, a render and the core reference into their parts. *)
Ltac open_job s r :=
  destruct s as [[] [? ? ? ? ? ? [?|]] []], r as [? ? []]; simpl in *.

Section Facts.

Context {E : Type} {P : Platform E}.
Variable wsUrl : string.

(** *** Invariants of the event loop *)

Lemma run_invariant (Inv : State E -> Prop) :
  (forall ev s, Inv s -> Inv (step wsUrl ev s)) ->
  forall evs s, Inv s -> Inv (run wsUrl evs s).
Proof.
  intros Hstep evs. induction evs as [|ev evs IH]; intros s Hs; [exact Hs|].
  change (run wsUrl (ev :: evs) s) with (run wsUrl evs (step wsUrl ev s)).
  apply IH, Hstep, Hs.
Qed.

Lemma run_invariant_on (ok : Event -> Prop) (Inv : State E -> Prop) :
  (forall ev s, ok ev -> Inv s -> Inv (step wsUrl ev s)) ->
  forall evs s, Forall ok evs -> Inv s -> Inv (run wsUrl evs s).
Proof.
  intros Hstep evs. induction evs as [|ev evs IH]; intros s Hall Hs; [exact Hs|].
  change (run wsUrl (ev :: evs) s) with (run wsUrl evs (step wsUrl ev s)).
  inversion Hall; subst. apply IH; [assumption|]. apply Hstep; assumption.
Qed.

(** [img.src = ...] touches the canvas, the load record and the console only. *)
Lemma img_set_src_frame (fmts : list string) (i : nat) (src : string)
    (c : Canvas) (s : State E) :
  exists c' loads lines,
    img_set_src fmts i src c s
    = with_browser (fun b => set_console lines (set_imageLoads loads b))
        (with_refs (set_canvasRef c') s).
Proof.
  funelim (img_set_src fmts i src c s).
  - exists (Some (img_onload {| img_src := src; img_width := w; img_height := h |} canvas)),
      (imageLoads (browser s) ++ [src]), (console (browser s)).
    destruct s as [? [] []]. reflexivity.
  - destruct H as (c' & loads & lines & ->). exists c', loads, lines.
    destruct s as [? [] []]. reflexivity.
  - exists (canvasRef (refs s)), (imageLoads (browser s) ++ [src]),
      (console (browser s) ++ ["Failed to load image in any format"]).
    destruct s as [? [] []]. reflexivity.
Qed.

Lemma handleFrame_frame (data : string) (s : State E) :
  exists c' loads lines,
    handleFrame data s
    = with_browser (fun b => set_console lines (set_imageLoads loads b))
        (with_refs (set_canvasRef c')
           (with_ui (setFrameCount (fun prev => Js.add prev 1)) s)).
Proof.
  unfold handleFrame, drawFrame.
  destruct (canvasRef (refs (with_ui (setFrameCount (fun prev => Js.add prev 1)) s)))
    as [c|] eqn:Hc.
  - destruct (negb (context2d c)).
    + exists (Some c), (imageLoads (browser s)), (console (browser s)).
      destruct s as [[] [] []]. simpl in *. subst. reflexivity.
    + apply img_set_src_frame.
  - exists None, (imageLoads (browser s)), (console (browser s)).
    destruct s as [[] [] []]. simpl in *. subst. reflexivity.
Qed.

Lemma in_step_same (s s' : State E) :
  isRecording (ui s') = isRecording (ui s) ->
  recordingIntervalRef (refs s') = recordingIntervalRef (refs s) ->
  intervals (browser s') = intervals (browser s) ->
  recorder_state s' = recorder_state s ->
  in_step s -> in_step s'.
Proof. unfold in_step. intros -> -> -> ->. auto. Qed.

Lemma step_in_step (ev : Event) (s : State E) :
  in_step s -> in_step (step wsUrl ev s).
Proof.
  intros Hok.
  destruct ev; simpl.
  all: try (apply (in_step_same s); [..|exact Hok];
         unfold ws_onopen, ws_onerror, ws_set_readyState, ws_is,
           updateRecordingTime, recorder_gather, recorder_timeslice, recorder_state;
         clear; destruct s as [[] [] []]; simpl in *;
         repeat (case_match; simpl in *; try congruence); try reflexivity; fail).
  - (* ClickConnect *)
    revert Hok.
    unfold in_step, recorder_state, connect, disconnect, stopRecording, clearInterval,
      ws_set_readyState.
    destruct s as [[] [? [[[] ? ? ? ?]|] ? ? ? [?|] ?] []]; simpl;
      repeat (case_match; simpl in *; try congruence);
      intros; settle.
  - (* ClickStart *)
    destruct (isConnected (ui s)) eqn:Hcon, (isRecording (ui s)) eqn:Hrec,
      (ffmpegLoaded (ui s)); simpl; try exact Hok.
    revert Hok.
    unfold in_step, recorder_state, startRecording, new_MediaRecorder, setInterval.
    rewrite Hrec.
    destruct s as [[] [? [[[] ? ? ? ?]|] ? ? ? [?|] ?] []]; simpl in *; subst;
      repeat (case_match; simpl in *; try congruence);
      intros; settle.
  - (* ClickStop *)
    revert Hok.
    unfold in_step, recorder_state, stopRecording, clearInterval.
    destruct s as [[] [? [[[] ? ? ? ?]|] ? ? ? [?|] ?] []]; simpl;
      repeat (case_match; simpl in *; try congruence);
      intros; settle.
  - (* WsClose *)
    revert Hok.
    unfold in_step, recorder_state, ws_onclose, ws_captured, stopRecording, clearInterval,
      ws_set_readyState, ws_is.
    destruct s as [[] [[[? [] []]|] [[[] ? ? ? ?]|] ? ? ? [?|] ?] []]; simpl;
      repeat (case_match; simpl in *; try congruence);
      intros; settle.
  - (* WsMessage *)
    destruct (ws_is OPEN s); [|exact Hok].
    destruct (handleFrame_frame data s) as (c' & loads & lines & ->).
    revert Hok. apply in_step_same; destruct s as [[] [] []]; reflexivity.
  - (* RunTask *)
    destruct (tasks (browser s)) as [|[data|r] rest]; [exact Hok| |]; simpl.
    + revert Hok. apply in_step_same; unfold ondataavailable, recorder_state;
        destruct s as [[] [] []]; simpl; case_match; reflexivity.
    + revert Hok. apply in_step_same; unfold recorder_state;
        open_job s r; job_cases; reflexivity.
Qed.
(** *** Recording state *)

Lemma initial_in_step (core : E) (now : Z) : in_step (initial core now).
Proof. split; [reflexivity | left; reflexivity]. Qed.

(** X9.  In every state reached from mount, the recording flag, the
    interval timer and the MediaRecorder agree: while [isRecording] is true
    there is exactly one active timer, the one [recordingIntervalRef] holds,
    and the recorder is recording; while it is false there is no timer, the
    ref is null and a recorder, if there is one, is inactive.  No more than
    one timer is ever active. *)
Theorem recording_state_stays_in_step (evs : list Event) (core : E) (now : Z) :
  let s := run wsUrl evs (initial core now) in
  (isRecording (ui s) = true ->
     exists id m,
       recordingIntervalRef (refs s) = Some id /\ intervals (browser s) = {[ id ]}
       /\ mediaRecorderRef (refs s) = Some m /\ mr_state m = recording)
  /\ (isRecording (ui s) = false ->
      recordingIntervalRef (refs s) = None /\ intervals (browser s) = ∅
      /\ forall m, mediaRecorderRef (refs s) = Some m -> mr_state m = inactive)
  /\ (size (intervals (browser s)) <= 1)%nat.
Proof.
  intros s.
  assert (Hok : in_step s)
    by (apply run_invariant; [apply step_in_step | apply initial_in_step]).
  clearbody s. unfold in_step, recorder_state in Hok.
  destruct (isRecording (ui s)), (recordingIntervalRef (refs s)) as [id|];
    try solve [destruct Hok]; destruct Hok as [Hset Hm].
  - split; [|split]; [| discriminate | rewrite Hset, size_singleton; lia].
    intros _. destruct (mediaRecorderRef (refs s)) as [m|]; [|discriminate].
    exists id, m. injection Hm as Hm. auto.
  - split; [discriminate|]. split; [|rewrite Hset, size_empty; lia].
    intros _. split; [reflexivity|]. split; [exact Hset|].
    intros m Hsome. rewrite Hsome in Hm. destruct Hm as [Hm | Hm]; simpl in Hm; congruence.
Qed.

(** X10.  [startRecording] does nothing when its render is not connected or
    no canvas is mounted.  Otherwise it empties the chunk buffer and takes the
    start time, leaving both displays as they were; if the browser supports
    the VP9 WebM type it ends recording, with a recorder started on a
    one-second timeslice and a fresh timer; if not, the constructor's
    exception is logged and [isRecording] is false again, with recorder,
    timer and status untouched (the buffer stays emptied). *)
Theorem startRecording_guards_and_reverts (r : Render) (s : State E) :
  (r_isConnected r = false \/ canvasRef (refs s) = None -> startRecording r s = s)
  /\ (r_isConnected r = true -> is_Some (canvasRef (refs s)) ->
      let s' := startRecording r s in
      recordedChunksRef (refs s') = []
      /\ startTimeRef (refs s') = clock (browser s)
      /\ recordingTime (ui s') = recordingTime (ui s)
      /\ fileSize (ui s') = fileSize (ui s)
      /\ tasks (browser s') = tasks (browser s)
      /\ if isTypeSupported "video/webm;codecs=vp9"
         then isRecording (ui s') = true
              /\ status (ui s') = "Recording..."
              /\ mediaRecorderRef (refs s')
                 = Some {| mr_state := recording; mr_mimeType := "video/webm;codecs=vp9";
                           mr_timeslice := 1000; mr_gathered := []; mr_closure := r |}
              /\ recordingIntervalRef (refs s') = Some (nextTimerId (browser s))
              /\ intervals (browser s')
                 = {[ nextTimerId (browser s) ]} ∪ intervals (browser s)
              /\ console (browser s') = console (browser s)
         else isRecording (ui s') = false
              /\ status (ui s') = status (ui s)
              /\ mediaRecorderRef (refs s') = mediaRecorderRef (refs s)
              /\ recordingIntervalRef (refs s') = recordingIntervalRef (refs s)
              /\ intervals (browser s') = intervals (browser s)
              /\ console (browser s')
                 = console (browser s) ++ ["Failed to start recording:"]).
Proof.
  unfold startRecording, new_MediaRecorder, setInterval, console_error. split.
  - intros [-> | ->]; [reflexivity|]. rewrite orb_true_r. reflexivity.
  - intros -> [c Hc]. rewrite Hc. simpl.
    destruct (isTypeSupported "video/webm;codecs=vp9");
      destruct s as [[] [] []]; simpl; repeat split; reflexivity.
Qed.


Lemma step_closure (ev : Event) (s : State E) :
  ev <> ClickConnect ->
  option_map ws_closure (wsRef (refs (step wsUrl ev s)))
  = option_map ws_closure (wsRef (refs s)).
Proof.
  intros Hev. destruct ev; try congruence; simpl;
    try (unfold ws_onopen, ws_onerror, ws_onclose, ws_captured, ws_set_readyState, ws_is,
           startRecording, stopRecording, new_MediaRecorder, setInterval, clearInterval,
           updateRecordingTime, recorder_gather, recorder_timeslice;
         destruct s as [[] [] []]; simpl in *;
         repeat (case_match; simpl in *; try congruence); try reflexivity; fail).
  - destruct (ws_is OPEN s); [|reflexivity].
    destruct (handleFrame_frame data s) as (c' & loads & lines & ->).
    destruct s as [[] [] []]; reflexivity.
  - destruct (tasks (browser s)) as [|[data|r] rest]; [reflexivity| |]; simpl.
    + unfold ondataavailable. destruct s as [[] [] []]; simpl; case_match; reflexivity.
    + open_job s r; job_cases; reflexivity.
Qed.

(** X11.  The handlers [connect] gives the socket are those of the render
    that made it.  After Connect was clicked while not recording, whatever
    happens next short of another click on that button, a [close] event of
    the socket does not stop a recording: the [stopRecording] it calls still
    sees [isRecording] false.  Flag, recorder, timer and task queue are as
    before; only the connection state and the status line change. *)
Theorem socket_close_leaves_recording_running (s0 : State E) (evs : list Event) :
  ffmpegLoaded (ui s0) = true -> isConnected (ui s0) = false ->
  isRecording (ui s0) = false ->
  Forall (fun ev => ev <> ClickConnect) evs ->
  let s := run wsUrl evs (step wsUrl ClickConnect s0) in
  let s' := step wsUrl WsClose s in
  isRecording (ui s') = isRecording (ui s)
  /\ mediaRecorderRef (refs s') = mediaRecorderRef (refs s)
  /\ recordingIntervalRef (refs s') = recordingIntervalRef (refs s)
  /\ intervals (browser s') = intervals (browser s)
  /\ tasks (browser s') = tasks (browser s)
  /\ (ws_is CLOSED s = false ->
      isConnected (ui s') = false /\ status (ui s') = "Disconnected"
      /\ ws_is CLOSED s' = true).
Proof.
  intros Hl Hc Hr Hall s s'.
  assert (Hcl : option_map ws_closure (wsRef (refs s)) = Some (render_of s0)).
  { subst s. apply (run_invariant_on (fun ev => ev <> ClickConnect)
      (fun s => option_map ws_closure (wsRef (refs s)) = Some (render_of s0)));
      [| exact Hall |].
    - intros ev s1 Hev <-. apply step_closure, Hev.
    - simpl. rewrite Hl. simpl. unfold connect. simpl. rewrite Hc.
      destruct s0 as [[] [] []]; reflexivity. }
  clearbody s. subst s'. simpl.
  destruct (wsRef (refs s)) as [ws|] eqn:Hws; [|discriminate].
  injection Hcl as Hcl.
  destruct (ws_is CLOSED s) eqn:Hclosed; [repeat split; discriminate|].
  unfold ws_onclose, ws_captured. rewrite Hws, Hcl, stopRecording_idle
    by (unfold render_of; simpl; exact Hr).
  unfold ws_set_readyState, ws_is. rewrite Hws.
  destruct s as [[] [] []]; simpl. repeat split; reflexivity.
Qed.

(** X12.  The Disconnect button (a click on Connect while connected) closes
    the socket and, unlike the socket's own [close] event, stops a running
    recording: the timer is cleared, the recorder queues its last data and
    its [stop] event, and the status reads 'Recording stopped', not
    'Disconnected', since [stopRecording] sets the status last. *)
Theorem disconnect_button_stops_recording (s : State E) :
  ffmpegLoaded (ui s) = true -> isConnected (ui s) = true ->
  let s' := step wsUrl ClickConnect s in
  isConnected (ui s') = false
  /\ (forall ws, wsRef (refs s) = Some ws ->
        wsRef (refs s') = Some {| ws_url := ws_url ws; ws_readyState := CLOSING;
                                  ws_closure := ws_closure ws |})
  /\ (isRecording (ui s) = false ->
      status (ui s') = "Disconnected" /\ tasks (browser s') = tasks (browser s))
  /\ (isRecording (ui s) = true ->
      isRecording (ui s') = false /\ status (ui s') = "Recording stopped"
      /\ forall m id,
           mediaRecorderRef (refs s) = Some m -> mr_state m = recording ->
           recordingIntervalRef (refs s) = Some id -> intervals (browser s) = {[ id ]} ->
           intervals (browser s') = ∅
           /\ recordingIntervalRef (refs s') = None
           /\ tasks (browser s')
              = tasks (browser s)
                ++ [TaskDataAvailable {| blob_data := mr_gathered m;
                                         blob_type := mr_mimeType m |};
                    TaskStop (mr_closure m)]).
Proof.
  intros Hl Hc s'. subst s'. simpl. rewrite Hl. simpl.
  unfold connect, disconnect, stopRecording, clearInterval, ws_set_readyState.
  simpl. rewrite Hc.
  destruct s as [[] [[ws|] ? ? ? ? ? ?] []]; simpl in *; subst.
  all: split; [destruct isRecording0; simpl; repeat case_match; reflexivity|].
  all: split; [intros ws' Hws; try discriminate; injection Hws as <-;
               destruct isRecording0; simpl; repeat case_match; reflexivity|].
  all: split; [intros ->; simpl; auto|].
  all: intros ->; simpl.
  all: split; [repeat case_match; reflexivity|].
  all: split; [repeat case_match; reflexivity|].
  all: intros m id -> Hm -> ->; rewrite Hm; simpl.
  all: repeat split; apply difference_diag_L.
Qed.

(** *** The frame counter *)

Lemma step_frameCount (ev : Event) (s : State E) :
  frameCount (ui (step wsUrl ev s)) = frameCount (ui s)
  \/ (exists data, ev = WsMessage data)
     /\ frameCount (ui (step wsUrl ev s)) = Js.add (frameCount (ui s)) 1.
Proof.
  destruct ev; simpl;
    try (left;
         unfold connect, disconnect, ws_onopen, ws_onerror, ws_onclose, ws_captured,
           ws_set_readyState, ws_is, startRecording, stopRecording, new_MediaRecorder,
           setInterval, clearInterval, updateRecordingTime, recorder_gather,
           recorder_timeslice;
         destruct s as [[] [] []]; simpl in *;
         repeat (case_match; simpl in *; try congruence); try reflexivity; fail).
  - destruct (ws_is OPEN s); [right | left; reflexivity].
    split; [eexists; reflexivity|].
    destruct (handleFrame_frame data s) as (c' & loads & lines & ->).
    destruct s as [[] [] []]; reflexivity.
  - left. destruct (tasks (browser s)) as [|[data|r] rest]; [reflexivity| |]; simpl.
    + unfold ondataavailable. destruct s as [[] [] []]; simpl; case_match; reflexivity.
    + open_job s r; job_cases; reflexivity.
Qed.

Lemma messages_cons (ev : Event) (evs : list Event) :
  messages (ev :: evs)
  = (match ev with WsMessage _ => 1 | _ => 0 end) + messages evs.
Proof. unfold messages. destruct ev; simpl; lia. Qed.

Lemma messages_nonneg (evs : list Event) : 0 <= messages evs.
Proof. unfold messages. lia. Qed.

Lemma handleFrame_keeps_socket (data : string) (s : State E) :
  wsRef (refs (handleFrame data s)) = wsRef (refs s).
Proof.
  destruct (handleFrame_frame data s) as (c' & loads & lines & ->).
  destruct s as [[] [] []]; reflexivity.
Qed.

(** X13.  Over any run of events the frame counter never goes down and is
    never reset: it grows by at most the number of socket messages in the run,
    and by exactly that number when the run consists of messages on an open
    socket.  (Counts below [2^53].) *)
Theorem frame_counter_never_resets (evs : list Event) (s : State E) :
  0 <= frameCount (ui s) -> frameCount (ui s) + messages evs < 2 ^ 53 ->
  frameCount (ui s) <= frameCount (ui (run wsUrl evs s)) <= frameCount (ui s) + messages evs
  /\ (ws_is OPEN s = true -> Forall (fun ev => exists data, ev = WsMessage data) evs ->
      frameCount (ui (run wsUrl evs s)) = frameCount (ui s) + messages evs).
Proof.
  revert s. induction evs as [|ev evs IH]; intros s H0 Hb.
  - unfold messages. simpl. split; [lia|]. intros _ _. lia.
  - change (run wsUrl (ev :: evs) s) with (run wsUrl evs (step wsUrl ev s)).
    rewrite messages_cons in *. pose proof (messages_nonneg evs) as Hm.
    destruct (step_frameCount ev s) as [Hsame | [[data ->] Hadd]].
    + destruct (IH (step wsUrl ev s)) as [Hle Heq];
        [rewrite Hsame; lia | rewrite Hsame; destruct ev; lia |].
      rewrite Hsame in *. split; [destruct ev; lia|].
      intros Hopen Hall. inversion Hall as [|? ? [data ->] Hrest]; subst.
      simpl in Hsame. rewrite Hopen in Hsame.
      assert (Hadd : frameCount (ui (handleFrame data s)) = Js.add (frameCount (ui s)) 1).
      { destruct (handleFrame_frame data s) as (c' & loads & lines & ->).
        destruct s as [[] [] []]; reflexivity. }
      rewrite JsFacts.add_exact in Hadd by lia. lia.
    + rewrite JsFacts.add_exact in Hadd by lia.
      destruct (IH (step wsUrl (WsMessage data) s)) as [Hle Heq];
        [rewrite Hadd; lia | rewrite Hadd; lia |].
      rewrite Hadd in *. split; [lia|].
      intros Hopen Hall. inversion Hall; subst. rewrite Heq; [lia| |assumption].
      simpl. rewrite Hopen. unfold ws_is. rewrite handleFrame_keeps_socket. exact Hopen.
Qed.

(** *** The blob URL store *)

(** A job either leaves the store and the link alone or adds one URL, made
    from the counter, and points the link at it. *)
Lemma createVideoBlob_store (r : Render) (s : State E) :
  let s' := createVideoBlob r s in
  (objectUrls (browser s') = objectUrls (browser s)
   /\ nextUrlId (browser s') = nextUrlId (browser s)
   /\ downloadUrl (ui s') = downloadUrl (ui s)
   /\ downloadFilename (ui s') = downloadFilename (ui s))
  \/ (exists data,
        objectUrls (browser s')
        = <[ "blob:" +:+ pretty (nextUrlId (browser s)) := mp4 data ]> (objectUrls (browser s))
        /\ nextUrlId (browser s') = Pos.succ (nextUrlId (browser s))
        /\ downloadUrl (ui s') = "blob:" +:+ pretty (nextUrlId (browser s))
        /\ downloadFilename (ui s') = download_filename (clock (browser s))).
Proof.
  open_job s r; job_cases; auto.
  right. eexists. unfold new_Blob, mp4. simpl. rewrite app_nil_r. auto.
Qed.

Lemma step_store (ev : Event) (s : State E) :
  let s' := step wsUrl ev s in
  (objectUrls (browser s') = objectUrls (browser s)
   /\ nextUrlId (browser s') = nextUrlId (browser s)
   /\ downloadUrl (ui s') = downloadUrl (ui s)
   /\ downloadFilename (ui s') = downloadFilename (ui s))
  \/ (exists data now,
        objectUrls (browser s')
        = <[ "blob:" +:+ pretty (nextUrlId (browser s)) := mp4 data ]> (objectUrls (browser s))
        /\ nextUrlId (browser s') = Pos.succ (nextUrlId (browser s))
        /\ downloadUrl (ui s') = "blob:" +:+ pretty (nextUrlId (browser s))
        /\ downloadFilename (ui s') = download_filename now).
Proof.
  destruct ev; simpl;
    try (left;
         unfold connect, disconnect, ws_onopen, ws_onerror, ws_onclose, ws_captured,
           ws_set_readyState, ws_is, startRecording, stopRecording, new_MediaRecorder,
           setInterval, clearInterval, updateRecordingTime, recorder_gather,
           recorder_timeslice;
         destruct s as [[] [] []]; simpl in *;
         repeat (case_match; simpl in *; try congruence); auto; fail).
  - left. destruct (ws_is OPEN s); [|auto].
    destruct (handleFrame_frame data s) as (c' & loads & lines & ->).
    destruct s as [[] [] []]; simpl; auto.
  - destruct (tasks (browser s)) as [|[data|r] rest]; [auto| |]; simpl.
    + left. unfold ondataavailable. destruct s as [[] [] []]; simpl; case_match; auto.
    + destruct (createVideoBlob_store r (with_browser (set_tasks rest) s))
        as [H | (data & H)]; [left | right; exists data, (clock (browser s))];
        destruct s as [[] [] []]; exact H.
Qed.

Lemma blob_url_inj (j k : positive) :
  "blob:" +:+ pretty j = "blob:" +:+ pretty k -> j = k.
Proof.
  intros H. apply (inj (String.app "blob:")) in H. apply (inj pretty) in H. exact H.
Qed.

Lemma blob_url_nonempty (k : positive) : String.eqb ("blob:" +:+ pretty k) "" = false.
Proof. reflexivity. Qed.

Lemma step_store_ok (ev : Event) (s : State E) :
  store_ok s ->
  store_ok (step wsUrl ev s)
  /\ forall url b, objectUrls (browser s) !! url = Some b ->
                   objectUrls (browser (step wsUrl ev s)) !! url = Some b.
Proof.
  intros [Hurls Hlink]. unfold store_ok, urls_ok, link_ok, downloadVideo in *.
  destruct (step_store ev s) as [(-> & -> & -> & ->) | (data & now & -> & -> & -> & ->)].
  - auto.
  - assert (Hfresh : forall url b, objectUrls (browser s) !! url = Some b ->
                       url <> "blob:" +:+ pretty (nextUrlId (browser s))).
    { intros url b Hb ->. destruct (Hurls _ (mk_is_Some _ _ Hb)) as (k & Hk & Hlt).
      apply blob_url_inj in Hk. lia. }
    split; [split|].
    + intros url [b Hb]. apply lookup_insert_Some in Hb as [[<- _] | [_ Hb]].
      * eexists. split; [reflexivity | lia].
      * destruct (Hurls _ (mk_is_Some _ _ Hb)) as (k & Hk & Hlt). exists k. split; [exact Hk | lia].
    + rewrite blob_url_nonempty. exists data, now. rewrite lookup_insert_eq. auto.
    + intros url b Hb. rewrite lookup_insert_ne; [exact Hb|].
      intros Heq. exact (Hfresh url b Hb (eq_sym Heq)).
Qed.

Lemma initial_store_ok (core : E) (now : Z) : store_ok (initial core now).
Proof.
  split; [|exact I]. intros url [b Hb]. simpl in Hb. rewrite lookup_empty in Hb. discriminate.
Qed.

Lemma run_store_ok (evs : list Event) (s : State E) :
  store_ok s ->
  store_ok (run wsUrl evs s)
  /\ forall url b, objectUrls (browser s) !! url = Some b ->
                   objectUrls (browser (run wsUrl evs s)) !! url = Some b.
Proof.
  revert s. induction evs as [|ev evs IH]; intros s Hs; [auto|].
  change (run wsUrl (ev :: evs) s) with (run wsUrl evs (step wsUrl ev s)).
  destruct (step_store_ok ev s Hs) as [H1 H2]. destruct (IH _ H1) as [H3 H4]. auto.
Qed.

(** X14.  The blob URL store only grows: an entry present in a state reached
    from mount is still there, with the same blob, after any further events
    (no URL is revoked or reused; every URL is [blob:] and a counter value
    already passed).  What [downloadVideo] clicks, when the URL is not empty,
    is a stored [video/mp4] blob under a name made by [createVideoBlob]. *)
Theorem blob_urls_are_never_revoked (evs more : list Event) (core : E) (now : Z) :
  let s := run wsUrl evs (initial core now) in
  (forall url b, objectUrls (browser s) !! url = Some b ->
     objectUrls (browser (run wsUrl more s)) !! url = Some b)
  /\ (forall url, is_Some (objectUrls (browser s) !! url) ->
        exists k, url = "blob:" +:+ pretty k /\ (k < nextUrlId (browser s))%positive)
  /\ match downloadVideo s with
     | None => downloadUrl (ui s) = ""
     | Some (url, name) =>
         exists data t,
           objectUrls (browser s) !! url = Some (mp4 data)
           /\ name = download_filename t
     end.
Proof.
  intros s.
  destruct (run_store_ok evs (initial core now) (initial_store_ok core now))
    as [[Hurls Hlink] _]. fold s in Hurls, Hlink.
  destruct (run_store_ok more s (conj Hurls Hlink)) as [_ Hkeep].
  split; [exact Hkeep|]. split; [exact Hurls|].
  unfold link_ok in Hlink. unfold downloadVideo in *.
  destruct (String.eqb_spec (downloadUrl (ui s)) ""); [assumption | exact Hlink].
Qed.

(** *** Delivered chunks reach the engine *)

Lemma run_deliveries (blobs : list Blob) (rest : list Task) (s : State E) :
  tasks (browser s) = deliveries blobs ++ rest ->
  let s' := run wsUrl (run_tasks (length blobs)) s in
  tasks (browser s') = rest
  /\ recordedChunksRef (refs s')
     = recordedChunksRef (refs s) ++ List.filter is_nonempty blobs
  /\ ffmpegRef (refs s') = ffmpegRef (refs s)
  /\ ffmpegLog (browser s') = ffmpegLog (browser s).
Proof.
  revert s. induction blobs as [|b blobs IH]; intros s Ht; cbv zeta in *.
  - simpl in *. rewrite app_nil_r. auto.
  - change (run wsUrl (run_tasks (length (b :: blobs))) s)
      with (run wsUrl (run_tasks (length blobs)) (step wsUrl RunTask s)).
    assert (Hs1 : step wsUrl RunTask s
                  = ondataavailable b
                      (with_browser (set_tasks (deliveries blobs ++ rest)) s)).
    { simpl. rewrite Ht. reflexivity. }
    rewrite Hs1.
    set (s1 := ondataavailable b (with_browser (set_tasks (deliveries blobs ++ rest)) s)).
    assert (Ht1 : tasks (browser s1) = deliveries blobs ++ rest).
    { subst s1. rewrite ondataavailable_tasks. destruct s as [? ? []]. reflexivity. }
    destruct (IH s1 Ht1) as (H1 & H2 & H3 & H4).
    rewrite H1, H2, H3, H4. subst s1. rewrite ondataavailable_chunks.
    simpl. unfold is_nonempty at 2. unfold ondataavailable.
    destruct s as [? [] []]; simpl.
    destruct (blob_size b >? 0); simpl; rewrite <- ?app_assoc, ?app_nil_r; auto.
Qed.

Lemma nonempty_data (blobs : list Blob) :
  concat (map blob_data (List.filter is_nonempty blobs)) = concat (map blob_data blobs).
Proof.
  induction blobs as [|b blobs IH]; [reflexivity|]. simpl.
  unfold is_nonempty at 1, blob_size.
  destruct (blob_data b) as [|x data] eqn:Hb; simpl.
  - exact IH.
  - rewrite Hb, IH. reflexivity.
Qed.

Lemma createVideoBlob_writes (r : Render) (s : State E) (c0 : E) :
  ffmpegRef (refs s) = Some c0 -> r_ffmpegLoaded r = true ->
  exists more,
    ffmpegLog (browser (createVideoBlob r s))
    = ffmpegLog (browser s)
      ++ CallWriteFile "input.webm" (concat (map blob_data (recordedChunksRef (refs s))))
         :: more.
Proof.
  intros Hc Hl. open_job s r; try discriminate; job_cases;
    unfold new_Blob; simpl; rewrite <- ?app_assoc; simpl; eexists; reflexivity.
Qed.

(** X15.  When the queue holds the deliveries of some blobs followed by the
    [stop] event, running the deliveries and then the [stop] handler writes
    to [input.webm] the bytes already buffered followed by the bytes of those
    blobs, in the order of delivery; empty blobs, which are not buffered, add
    nothing. *)
Theorem transcode_input_is_delivered_data (blobs : list Blob) (r : Render)
    (s : State E) (c0 : E) :
  tasks (browser s) = deliveries blobs ++ [TaskStop r] ->
  ffmpegRef (refs s) = Some c0 -> r_ffmpegLoaded r = true ->
  let s1 := run wsUrl (run_tasks (length blobs)) s in
  let s2 := step wsUrl RunTask s1 in
  tasks (browser s1) = [TaskStop r]
  /\ s2 = createVideoBlob r (with_browser (set_tasks []) s1)
  /\ exists more,
       ffmpegLog (browser s2)
       = ffmpegLog (browser s)
         ++ CallWriteFile "input.webm"
              (concat (map blob_data (recordedChunksRef (refs s)))
               ++ concat (map blob_data blobs))
            :: more.
Proof.
  intros Ht Hc Hl s1 s2.
  destruct (run_deliveries blobs [TaskStop r] s Ht) as (H1 & H2 & H3 & H4).
  fold s1 in H1, H2, H3, H4.
  assert (Hs2 : s2 = createVideoBlob r (with_browser (set_tasks []) s1)).
  { subst s2. simpl. rewrite H1. reflexivity. }
  split; [exact H1|]. split; [exact Hs2|].
  destruct (createVideoBlob_writes r (with_browser (set_tasks []) s1) c0) as [more Hw];
    [rewrite <- Hc, <- H3; destruct s1 as [? ? []]; reflexivity | exact Hl |].
  exists more. rewrite Hs2, Hw.
  replace (ffmpegLog (browser (with_browser (set_tasks []) s1)))
    with (ffmpegLog (browser s)) by (rewrite <- H4; destruct s1 as [? ? []]; reflexivity).
  replace (recordedChunksRef (refs (with_browser (set_tasks []) s1)))
    with (recordedChunksRef (refs s1)) by reflexivity.
  rewrite H2, map_app, concat_app, nonempty_data. reflexivity.
Qed.

(** *** The engine check *)

Lemma engine_ready_same (s s' : State E) :
  ffmpegRef (refs s') = ffmpegRef (refs s) ->
  mediaRecorderRef (refs s') = mediaRecorderRef (refs s) ->
  tasks (browser s') = tasks (browser s) ->
  engine_ready s -> engine_ready s'.
Proof. unfold engine_ready. intros -> -> ->. auto. Qed.

Lemma stopRecording_engine (r : Render) (s : State E) :
  engine_ready s -> engine_ready (stopRecording r s).
Proof.
  unfold engine_ready, stopRecording, clearInterval. intros (Hc & Hm & Ht).
  destruct (r_isRecording r); simpl; [|auto].
  destruct s as [[] [? [[[] ? ? ? ?]|] ? ? ? [?|] ?] []]; simpl in *;
    (split; [exact Hc|]); (split; [|try exact Ht]);
    try (intros m Hsome; injection Hsome as <-; simpl; exact (Hm _ eq_refl));
    try (intros m Hsome; discriminate).
  all: apply Forall_app; split; [exact Ht|].
  all: repeat constructor; simpl; exact (Hm _ eq_refl).
Qed.

Lemma step_engine (ev : Event) (s : State E) :
  engine_ready s -> engine_ready (step wsUrl ev s).
Proof.
  intros Hok.
  destruct ev; simpl.
  all: try (apply (engine_ready_same s); [..|exact Hok];
         unfold ws_onopen, ws_onerror, ws_set_readyState, ws_is, updateRecordingTime;
         clear; destruct s as [[] [] []]; simpl in *;
         repeat (case_match; simpl in *; try congruence); try reflexivity; fail).
  - (* ClickConnect *)
    destruct (negb (ffmpegLoaded (ui s))); [exact Hok|].
    unfold connect, disconnect. destruct (r_isConnected (render_of s)).
    + apply stopRecording_engine. revert Hok. apply engine_ready_same;
        unfold ws_set_readyState; destruct s as [[] [[?|] ? ? ? ? ? ?] []]; reflexivity.
    + revert Hok. apply engine_ready_same; destruct s as [[] [] []]; reflexivity.
  - (* ClickStart *)
    destruct (isConnected (ui s)) eqn:Hcon, (isRecording (ui s)) eqn:Hrec,
      (ffmpegLoaded (ui s)) eqn:Hl; simpl; try exact Hok.
    revert Hok. unfold engine_ready, startRecording, new_MediaRecorder, setInterval.
    destruct s as [[] [] []]; simpl in *; subst.
    repeat (case_match; simpl in *; try congruence); intros (Hc & Hm & Ht);
      repeat split; try assumption.
    intros m Hsome. injection Hsome as <-.
    match goal with H : Returned _ = Returned _ |- _ => injection H as <- end.
    reflexivity.
  - (* ClickStop *)
    destruct (negb (isRecording (ui s))); [exact Hok|].
    apply stopRecording_engine, Hok.
  - (* WsClose *)
    destruct (ws_is CLOSED s); [exact Hok|].
    destruct (wsRef (refs s)) eqn:Hws; [|exact Hok].
    unfold ws_onclose. apply stopRecording_engine. revert Hok.
    apply engine_ready_same; unfold ws_set_readyState; rewrite Hws;
      destruct s as [[] [] []]; reflexivity.
  - (* WsMessage *)
    destruct (ws_is OPEN s); [|exact Hok].
    destruct (handleFrame_frame data s) as (c' & loads & lines & ->).
    revert Hok. apply engine_ready_same; destruct s as [[] [] []]; reflexivity.
  - (* Encoded *)
    revert Hok. unfold engine_ready, recorder_gather.
    destruct s as [[] [? [[[] ? ? ? ?]|] ? ? ? ? ?] []]; simpl; intros (Hc & Hm & Ht);
      repeat split; try assumption.
    intros m Hsome. injection Hsome as <-. exact (Hm _ eq_refl).
  - (* TimesliceElapsed *)
    revert Hok. unfold engine_ready, recorder_timeslice.
    destruct s as [[] [? [[[] ? ? ? ?]|] ? ? ? ? ?] []]; simpl; intros (Hc & Hm & Ht);
      repeat split; try assumption.
    + intros m Hsome. injection Hsome as <-. exact (Hm _ eq_refl).
    + apply Forall_app. split; [exact Ht | repeat constructor].
  - (* RunTask *)
    destruct Hok as (Hc & Hm & Ht).
    destruct (tasks (browser s)) as [|[data|r] rest] eqn:Hq;
      [rewrite <- Hq in Ht; repeat split; assumption| |];
      inversion Ht as [|? ? Hhead Hrest]; subst; simpl.
    + unfold engine_ready, ondataavailable. destruct s as [[] [] []]; simpl in *.
      case_match; repeat split; assumption.
    + unfold engine_ready. destruct Hc as [c0 Hc].
      open_job s r; try discriminate; job_cases; repeat split; eauto.
Qed.

(** X16.  In every state reached from mount the engine object exists and
    every recorder was made by a render that saw the engine loaded (the Start
    button is disabled before).  So the [stop] handler never throws
    'FFmpeg not loaded': a queued [stop] event always reaches the engine,
    starting with the write of [input.webm]. *)
Theorem engine_check_always_passes (evs : list Event) (core : E) (now : Z) :
  let s := run wsUrl evs (initial core now) in
  is_Some (ffmpegRef (refs s))
  /\ (forall m, mediaRecorderRef (refs s) = Some m ->
        r_ffmpegLoaded (mr_closure m) = true)
  /\ (forall r rest, tasks (browser s) = TaskStop r :: rest ->
        job_outcome r (with_browser (set_tasks rest) s) <> JobNotLoaded
        /\ exists more,
             ffmpegLog (browser (step wsUrl RunTask s))
             = ffmpegLog (browser s)
               ++ CallWriteFile "input.webm"
                    (concat (map blob_data (recordedChunksRef (refs s))))
                  :: more).
Proof.
  intros s.
  assert (Hok : engine_ready s).
  { apply run_invariant; [apply step_engine|].
    split; [eexists; reflexivity|]. split; [discriminate | constructor]. }
  clearbody s. destruct Hok as ([c0 Hc] & Hm & Ht).
  split; [eauto|]. split; [exact Hm|].
  intros r rest Hq. rewrite Hq in Ht. inversion Ht as [|? ? Hl _]; subst. simpl in Hl.
  split.
  - unfold job_outcome. replace (ffmpegRef (refs (with_browser (set_tasks rest) s)))
      with (Some c0) by (rewrite <- Hc; reflexivity).
    rewrite Hl. simpl. repeat case_match; discriminate.
  - assert (Hs : step wsUrl RunTask s
                 = createVideoBlob r (with_browser (set_tasks rest) s))
      by (simpl; rewrite Hq; reflexivity).
    rewrite Hs.
    destruct (createVideoBlob_writes r (with_browser (set_tasks rest) s) c0) as [more Hw];
      [rewrite <- Hc; reflexivity | exact Hl |].
    exists more. rewrite Hw. destruct s as [? ? []]. reflexivity.
Qed.

(** *** Before the engine is loaded *)

Lemma step_idle (ev : Event) (s : State E) :
  ev <> FFmpegLoaded -> idle s -> idle (step wsUrl ev s).
Proof.
  unfold idle. intros Hev (H1 & H2 & H3 & H4 & H5 & H6 & H7 & H8 & H9 & H10 & H11 & H12 & H13).
  destruct s as [[] [] []]; simpl in *; subst.
  destruct ev; try congruence; simpl; unfold ws_is, ws_onerror, recorder_gather,
    recorder_timeslice; simpl; rewrite ?bool_decide_eq_false_2 by apply not_elem_of_empty;
    auto 20.
Qed.

(** X17.  Until [ffmpeg.load] has resolved the component stays inert: the
    buttons are disabled and there is no socket, so whatever else happens,
    nothing is connected, recorded, counted, drawn, queued or transcoded. *)
Theorem nothing_runs_before_engine_loads (evs : list Event) (core : E) (now : Z) :
  Forall (fun ev => ev <> FFmpegLoaded) evs ->
  let s := run wsUrl evs (initial core now) in
  isConnected (ui s) = false /\ isRecording (ui s) = false
  /\ ffmpegLoaded (ui s) = false /\ frameCount (ui s) = 0
  /\ showDownload (ui s) = false /\ downloadUrl (ui s) = ""
  /\ wsRef (refs s) = None /\ mediaRecorderRef (refs s) = None
  /\ recordedChunksRef (refs s) = []
  /\ intervals (browser s) = ∅ /\ tasks (browser s) = []
  /\ ffmpegLog (browser s) = [] /\ imageLoads (browser s) = [].
Proof.
  intros Hall s. subst s.
  apply (run_invariant_on (fun ev => ev <> FFmpegLoaded) idle);
    [apply step_idle | exact Hall |].
  unfold idle. simpl. auto 20.
Qed.

End Facts.

End RecorderMoreFacts.

Module RecorderMoreRuns.
Import Recorder RecorderMore RecorderMoreFacts.

(** *** X9 on a run *)

(** Right after Start was clicked: timer 1 and a recording recorder. *)
Lemma recording_state_witness :
  exists id m,
    recordingIntervalRef (refs example_recording) = Some id
    /\ intervals (browser example_recording) = {[ id ]}
    /\ mediaRecorderRef (refs example_recording) = Some m
    /\ mr_state m = recording.
Proof.
  exact (proj1 (recording_state_stays_in_step (P:=example_platform) example_url
                  [FFmpegLoaded; ClickConnect; WsOpen; ClickStart] ∅ 1793620800000)
           eq_refl).
Defined.

(** *** X10 on a run *)

(** A browser without VP9 WebM: the attempt is logged and undone. *)
Lemma startRecording_witness :
  r_isConnected render_idle = true
  /\ is_Some (canvasRef (refs example_initial))
  /\ isRecording (ui (startRecording (P:=mem_platform decode_nothing false)
                        render_idle example_initial)) = false
  /\ console (browser (startRecording (P:=mem_platform decode_nothing false)
                         render_idle example_initial))
     = ["Failed to start recording:"].
Proof.
  assert (H1 : r_isConnected render_idle = true) by reflexivity.
  assert (H2 : is_Some (canvasRef (refs example_initial))) by (eexists; reflexivity).
  split; [exact H1|]. split; [exact H2|].
  destruct (proj2 (startRecording_guards_and_reverts (P:=mem_platform decode_nothing false)
                     render_idle example_initial) H1 H2)
    as (_ & _ & _ & _ & _ & Hrec & _ & _ & _ & _ & Hlog).
  split; [exact Hrec | exact Hlog].
Defined.

(** *** X11 on a run *)

(** Connect, open, start; then the socket closes: still recording. *)
Lemma socket_close_witness :
  let s0 := run (P:=example_platform) example_url [FFmpegLoaded] example_initial in
  let s := run (P:=example_platform) example_url [WsOpen; ClickStart]
             (step (P:=example_platform) example_url ClickConnect s0) in
  ffmpegLoaded (ui s0) = true /\ isConnected (ui s0) = false
  /\ isRecording (ui s0) = false
  /\ isRecording (ui (step (P:=example_platform) example_url WsClose s)) = true.
Proof.
  intros s0 s.
  assert (H1 : ffmpegLoaded (ui s0) = true) by reflexivity.
  assert (H2 : isConnected (ui s0) = false) by reflexivity.
  assert (H3 : isRecording (ui s0) = false) by reflexivity.
  assert (H4 : Forall (fun ev => ev <> ClickConnect) [WsOpen; ClickStart])
    by (repeat constructor; discriminate).
  split; [exact H1|]. split; [exact H2|]. split; [exact H3|].
  transitivity (isRecording (ui s)); [|reflexivity].
  exact (proj1 (socket_close_leaves_recording_running (P:=example_platform)
                  example_url s0 [WsOpen; ClickStart] H1 H2 H3 H4)).
Defined.

(** *** X12 on a run *)

Lemma disconnect_button_witness :
  ffmpegLoaded (ui example_recording) = true
  /\ isConnected (ui example_recording) = true
  /\ isRecording (ui example_recording) = true
  /\ status (ui (step (P:=example_platform) example_url ClickConnect example_recording))
     = "Recording stopped".
Proof.
  assert (H1 : ffmpegLoaded (ui example_recording) = true) by reflexivity.
  assert (H2 : isConnected (ui example_recording) = true) by reflexivity.
  assert (H3 : isRecording (ui example_recording) = true) by reflexivity.
  split; [exact H1|]. split; [exact H2|]. split; [exact H3|].
  destruct (disconnect_button_stops_recording (P:=example_platform) example_url
              example_recording H1 H2) as (_ & _ & _ & Hstop).
  exact (proj1 (proj2 (Hstop H3))).
Defined.

(** *** X13 on a run *)

(** Two frames with a disconnect and a reconnect in between: the second
    frame arrives before the new socket is open and is not counted. *)
Lemma frame_counter_witness :
  let evs := [WsMessage "AAAA"; ClickConnect; ClickConnect; WsMessage "BBBB"] in
  0 <= frameCount (ui example_recording)
  /\ frameCount (ui example_recording) + messages evs < 2 ^ 53
  /\ frameCount (ui example_recording)
     <= frameCount (ui (run (P:=example_platform) example_url evs example_recording))
     <= frameCount (ui example_recording) + messages evs.
Proof.
  intros evs.
  assert (H1 : 0 <= frameCount (ui example_recording)) by (vm_compute; discriminate).
  assert (H2 : frameCount (ui example_recording) + messages evs < 2 ^ 53)
    by (vm_compute; reflexivity).
  split; [exact H1|]. split; [exact H2|].
  exact (proj1 (frame_counter_never_resets (P:=example_platform) example_url evs
                  example_recording H1 H2)).
Defined.

(** *** X14 on a run *)

(** After one finished job the link is [blob:1]; a second example_session leaves
    that entry in the store. *)
Lemma blob_urls_witness :
  let s := run (P:=example_platform) example_url example_session example_initial in
  downloadVideo s = Some ("blob:1", "recorded_video_2026-11-02T12-00-00.mp4")
  /\ exists data t,
       objectUrls (browser s) !! "blob:1" = Some (mp4 data)
       /\ "recorded_video_2026-11-02T12-00-00.mp4" = download_filename t.
Proof.
  intros s.
  assert (Hd : downloadVideo s = Some ("blob:1", "recorded_video_2026-11-02T12-00-00.mp4"))
    by (vm_compute; reflexivity).
  split; [exact Hd|].
  destruct (blob_urls_are_never_revoked (P:=example_platform) example_url example_session []
              ∅ 1793620800000) as (_ & _ & Hlink).
  fold example_initial in Hlink. fold s in Hlink. rewrite Hd in Hlink. exact Hlink.
Defined.

(** *** X15 on a run *)

(** One chunk gathered, then Stop: the queue holds its delivery and the
    [stop] event, and the engine is given exactly those bytes. *)
Lemma transcode_input_witness :
  let s1 := run (P:=example_platform) example_url (run_tasks 1) example_stopping in
  tasks (browser example_stopping) = deliveries [example_chunk] ++ [TaskStop render_idle]
  /\ ffmpegRef (refs example_stopping) = Some ∅
  /\ r_ffmpegLoaded render_idle = true
  /\ exists more,
       ffmpegLog (browser (step (P:=example_platform) example_url RunTask s1))
       = ffmpegLog (browser example_stopping)
         ++ CallWriteFile "input.webm"
              (concat (map blob_data (recordedChunksRef (refs example_stopping)))
               ++ concat (map blob_data [example_chunk]))
            :: more.
Proof.
  intros s1.
  assert (H1 : tasks (browser example_stopping)
               = deliveries [example_chunk] ++ [TaskStop render_idle])
    by (vm_compute; reflexivity).
  assert (H2 : ffmpegRef (refs example_stopping) = Some ∅) by (vm_compute; reflexivity).
  assert (H3 : r_ffmpegLoaded render_idle = true) by reflexivity.
  split; [exact H1|]. split; [exact H2|]. split; [exact H3|].
  exact (proj2 (proj2 (transcode_input_is_delivered_data (P:=example_platform) example_url
                         [example_chunk] render_idle example_stopping ∅ H1 H2 H3))).
Defined.

(** *** X16 on a run *)

(** The [stop] event queued by a click on Stop finds the engine loaded. *)
Lemma engine_check_witness :
  let s := run (P:=example_platform) example_url
             [FFmpegLoaded; ClickConnect; WsOpen; ClickStart; ClickStop; RunTask]
             (initial ∅ 1793620800000) in
  tasks (browser s) = [TaskStop render_idle]
  /\ job_outcome (P:=example_platform) render_idle (with_browser (set_tasks []) s)
     <> JobNotLoaded.
Proof.
  intros s.
  assert (H1 : tasks (browser s) = [TaskStop render_idle]) by (vm_compute; reflexivity).
  split; [exact H1|].
  destruct (engine_check_always_passes (P:=example_platform) example_url
              [FFmpegLoaded; ClickConnect; WsOpen; ClickStart; ClickStop; RunTask]
              ∅ 1793620800000) as (_ & _ & Hjob).
  exact (proj1 (Hjob render_idle [] H1)).
Defined.

(** *** X17 on a run *)

(** The engine fails to load; clicks and a stray message change nothing. *)
Lemma nothing_runs_witness :
  let evs := [ClickConnect; ClickStart; WsMessage "AAAA"; FFmpegLoadFailed; ClickConnect] in
  Forall (fun ev => ev <> FFmpegLoaded) evs
  /\ wsRef (refs (run (P:=example_platform) example_url evs (initial ∅ 1793620800000)))
     = None.
Proof.
  intros evs.
  assert (H : Forall (fun ev => ev <> FFmpegLoaded) evs)
    by (repeat constructor; discriminate).
  split; [exact H|].
  destruct (nothing_runs_before_engine_loads (P:=example_platform) example_url evs
              ∅ 1793620800000 H) as (_ & _ & _ & _ & _ & _ & Hws & _).
  exact Hws.
Defined.

End RecorderMoreRuns.
